(** * EchoPersona: the audio-ingestion decision pipeline and the hybrid
      generation router

    A shallow embedding of
      - [backend/ai_engine/voice_processor.py]   (class [VoiceProcessor])
      - [backend/ai_engine/hybrid_llm_service.py] (class [HybridLLMService])
    followed by the properties the specification states about them.

    Conventions of the embedding.
      - A Python [bytes] value is a [list byte]; [len], slices and the
        [in] operator are written out on lists.
      - A Python [str] is a [string]; its characters stand for the code
        points 0..255, and [str.lower], [str.strip] follow Python on that
        range.
      - The dictionaries [validation] and [format_info] have a fixed key set
        and are records; a key that may be absent is an [option] field.
      - Calls that leave the process (transcoding, speech recognition, HTTP)
        are collaborators: functions of an abstract world that return a
        result and the next world.  Everything else is computed. *)

From Stdlib Require Import List String Ascii Bool Arith NArith ZArith Lia.
From Stdlib Require Import Strings.Byte.
From Stdlib Require Import DecimalString.
Import ListNotations.
Local Open Scope string_scope.
Local Open Scope nat_scope.

(** ** Python primitives on [bytes] and [str] *)

Definition bytes := list byte.

(** [len(data)] on bytes. *)
Definition len (data : bytes) : nat := List.length data.

(** A bytes literal [b'...']. *)
Definition b (s : string) : bytes := list_byte_of_string s.

(** [data[i:j]] for [0 <= i <= j]. *)
Definition slice {A} (i j : nat) (l : list A) : list A :=
  firstn (j - i) (skipn i l).

Fixpoint bytes_eqb (x y : bytes) : bool :=
  match x, y with
  | [], [] => true
  | a :: x', c :: y' => Byte.eqb a c && bytes_eqb x' y'
  | _, _ => false
  end.

Fixpoint bytes_startswith (needle hay : bytes) : bool :=
  match needle, hay with
  | [], _ => true
  | a :: n', c :: h' => Byte.eqb a c && bytes_startswith n' h'
  | _ :: _, [] => false
  end.

(** [needle in hay] on bytes. *)
Fixpoint bytes_in (needle hay : bytes) : bool :=
  bytes_startswith needle hay ||
  match hay with
  | [] => false
  | _ :: h' => bytes_in needle h'
  end.

(** [needle in hay] on str. *)
Fixpoint str_in (needle hay : string) : bool :=
  String.prefix needle hay ||
  match hay with
  | EmptyString => false
  | String _ h' => str_in needle h'
  end.

(** [str(n)] of a non-negative integer, as an f-string renders it. *)
Definition str_of_nat (n : nat) : string :=
  NilZero.string_of_uint (Nat.to_uint n).

(** [s.startswith(p)]. *)
Definition startswith (p s : string) : bool := String.prefix p s.

(** ** VoiceProcessor: the plausibility gate *)

Record validation := {
  v_is_valid : bool;
  v_size : nat;
  v_error : option string;
  v_likely_has_speech : bool;
  v_recommendation : option string
}.

Definition set_error (e : string) (v : validation) : validation :=
  {| v_is_valid := v_is_valid v; v_size := v_size v; v_error := Some e;
     v_likely_has_speech := v_likely_has_speech v;
     v_recommendation := v_recommendation v |}.

Definition set_recommendation (r : string) (v : validation) : validation :=
  {| v_is_valid := v_is_valid v; v_size := v_size v; v_error := v_error v;
     v_likely_has_speech := v_likely_has_speech v;
     v_recommendation := Some r |}.

Definition set_likely_has_speech (x : bool) (v : validation) : validation :=
  {| v_is_valid := v_is_valid v; v_size := v_size v; v_error := v_error v;
     v_likely_has_speech := x;
     v_recommendation := v_recommendation v |}.

Definition set_is_valid (x : bool) (v : validation) : validation :=
  {| v_is_valid := x; v_size := v_size v; v_error := v_error v;
     v_likely_has_speech := v_likely_has_speech v;
     v_recommendation := v_recommendation v |}.

Definition _validate_audio_data (audio_data : bytes) : validation :=
  let n := len audio_data in
  let validation :=
    {| v_is_valid := false; v_size := n; v_error := None;
       v_likely_has_speech := false; v_recommendation := None |} in
  if n =? 0 then
    set_recommendation "Please record some audio first"
      (set_error "Empty audio data" validation)
  else if n <? 44 then
    set_recommendation
      "The recording is extremely short. Please record for at least 1-2 seconds with clear speech."
      (set_error ("Audio too small (" ++ str_of_nat n
                  ++ " bytes) - likely no speech content") validation)
  else
    let validation :=
      if n <? 1000 then
        set_recommendation
          "The recording seems to contain only silence or noise. Please check your microphone and speak clearly for at least 2-3 seconds."
          (set_likely_has_speech false
             (set_error ("Audio very small (" ++ str_of_nat n
                         ++ " bytes) - probably silence, noise, or recording issue")
                validation))
      else if n <? 2000 then
        set_recommendation
          "The recording is very short. Please speak for at least 2-3 seconds with clear speech."
          (set_likely_has_speech false
             (set_error ("Audio small (" ++ str_of_nat n
                         ++ " bytes) - may not contain enough speech")
                validation))
      else set_likely_has_speech true validation in
    set_is_valid true validation.

(** ** VoiceProcessor: the format sniffer *)

Record format_info := {
  f_format : string;
  f_is_valid : bool;
  f_size : nat;
  f_needs_conversion : bool;
  f_error : option string
}.

(** The EBML magic [b'\x1a\x45\xdf\xa3']. *)
Definition EBML_MAGIC : bytes := [x1a; x45; xdf; xa3].

Definition _analyze_audio_format (audio_data : bytes) : format_info :=
  let n := len audio_data in
  let mk fmt valid conv err :=
    {| f_format := fmt; f_is_valid := valid; f_size := n;
       f_needs_conversion := conv; f_error := err |} in
  if n <? 12 then mk "unknown" false false (Some "Audio data too small")
  else if bytes_eqb (slice 0 4 audio_data) (b "RIFF")
          && bytes_eqb (slice 8 12 audio_data) (b "WAVE")
  then mk "wav" true false None
  else if bytes_eqb (slice 0 4 audio_data) EBML_MAGIC
  then mk "webm" false true None
  else if bytes_in (b "ftyp") (slice 0 20 audio_data)
  then mk "mp4" false true None
  else if bytes_eqb (slice 0 4 audio_data) (b "OggS")
  then mk "ogg" false true None
  else mk "unknown" false false None.

(** ** [struct.pack] and the synthesised WAV header *)

Definition byte_of_N (v : N) : byte :=
  match Byte.of_N (v mod 256) with
  | Some x => x
  | None => x00
  end.

(** The [k] low bytes of [v], least significant first. *)
Fixpoint le_bytes (k : nat) (v : N) : bytes :=
  match k with
  | 0 => []
  | S k' => byte_of_N v :: le_bytes k' (v / 256)
  end.

(** [struct.pack('<I', v)]: [None] stands for [struct.error]. *)
Definition pack_I (v : N) : option bytes :=
  if (v <? 2 ^ 32)%N then Some (le_bytes 4 v) else None.

(** [struct.pack('<H', v)]. *)
Definition pack_H (v : N) : option bytes :=
  if (v <? 2 ^ 16)%N then Some (le_bytes 2 v) else None.

Definition obind {A B} (x : option A) (f : A -> option B) : option B :=
  match x with
  | Some a => f a
  | None => None
  end.

Notation "'let?' x ':=' e 'in' k" := (obind e (fun x => k))
  (at level 10, x name, e at level 100, k at level 200).

(** The 44-byte header of [_create_wav_from_raw_pcm]; [None] when one of the
    [struct.pack] calls raises. *)
Definition wav_header (data_size sample_rate channels sample_width : N)
  : option bytes :=
  let byte_rate := (sample_rate * channels * sample_width)%N in
  let block_align := (channels * sample_width)%N in
  let file_size := (36 + data_size)%N in
  let? p_file_size := pack_I file_size in
  let? p_16 := pack_I 16 in
  let? p_1 := pack_H 1 in
  let? p_channels := pack_H channels in
  let? p_rate := pack_I sample_rate in
  let? p_byte_rate := pack_I byte_rate in
  let? p_block_align := pack_H block_align in
  let? p_bits := pack_H (sample_width * 8) in
  let? p_data_size := pack_I data_size in
  Some (b "RIFF" ++ p_file_size ++ b "WAVE" ++ b "fmt " ++ p_16 ++ p_1
        ++ p_channels ++ p_rate ++ p_byte_rate ++ p_block_align ++ p_bits
        ++ b "data" ++ p_data_size)%list.

(** [_create_wav_from_raw_pcm]: the [except] branch returns the raw data. *)
Definition _create_wav_from_raw_pcm (audio_data : bytes)
  (sample_rate channels sample_width : N) : bytes :=
  match wav_header (N.of_nat (len audio_data)) sample_rate channels sample_width with
  | Some header => (header ++ audio_data)%list
  | None => audio_data
  end.

Record pcm_config := { rate : N; channels : N; width : N }.

Definition configs : list pcm_config :=
  [ {| rate := 16000; channels := 1; width := 2 |};
    {| rate := 44100; channels := 1; width := 2 |};
    {| rate := 48000; channels := 1; width := 2 |};
    {| rate := 22050; channels := 1; width := 2 |};
    {| rate := 8000; channels := 1; width := 2 |} ].

(** Truth value of [x and len(x) > 44] for an optional bytes value. *)
Definition usable (x : option bytes) : bool :=
  match x with
  | Some d => negb (len d =? 0) && (44 <? len d)
  | None => false
  end.

(** One turn of the loop of [_try_raw_pcm_variants]: [Some wav] when the
    turn returns, [None] when it goes on to the next configuration (by
    [continue], by falling through, or by the inner [except]). *)
Definition raw_pcm_variant (audio_data : bytes) (config : pcm_config)
  : option bytes :=
  let bytes_per_sample := N.to_nat (channels config * width config) in
  if bytes_per_sample =? 0 then None (* ZeroDivisionError, caught *)
  else
    let trimmed_data :=
      if negb (len audio_data mod bytes_per_sample =? 0)
      then slice 0 (len audio_data - len audio_data mod bytes_per_sample) audio_data
      else audio_data in
    if len trimmed_data <? bytes_per_sample * 100 then None
    else
      let wav_data :=
        _create_wav_from_raw_pcm trimmed_data (rate config) (channels config)
          (width config) in
      if usable (Some wav_data) then Some wav_data else None.

Fixpoint first_variant (audio_data : bytes) (cs : list pcm_config)
  : option bytes :=
  match cs with
  | [] => None
  | config :: cs' =>
      match raw_pcm_variant audio_data config with
      | Some wav_data => Some wav_data
      | None => first_variant audio_data cs'
      end
  end.

Definition _try_raw_pcm_variants (audio_data : bytes) : option bytes :=
  first_variant audio_data configs.

(** ** [hashlib.md5] (RFC 1321), on 32-bit words held in [N] *)

Module MD5.

Local Open Scope N_scope.

Definition mask32 : N := 0xFFFFFFFF.
Definition add32 (x y : N) : N := N.land (x + y) mask32.
Definition not32 (x : N) : N := N.lxor x mask32.
Definition rotl32 (x s : N) : N :=
  N.land (N.lor (N.shiftl x s) (N.shiftr x (32 - s))) mask32.

Definition K : list N :=
  [ 0xd76aa478; 0xe8c7b756; 0x242070db; 0xc1bdceee;
    0xf57c0faf; 0x4787c62a; 0xa8304613; 0xfd469501;
    0x698098d8; 0x8b44f7af; 0xffff5bb1; 0x895cd7be;
    0x6b901122; 0xfd987193; 0xa679438e; 0x49b40821;
    0xf61e2562; 0xc040b340; 0x265e5a51; 0xe9b6c7aa;
    0xd62f105d; 0x02441453; 0xd8a1e681; 0xe7d3fbc8;
    0x21e1cde6; 0xc33707d6; 0xf4d50d87; 0x455a14ed;
    0xa9e3e905; 0xfcefa3f8; 0x676f02d9; 0x8d2a4c8a;
    0xfffa3942; 0x8771f681; 0x6d9d6122; 0xfde5380c;
    0xa4beea44; 0x4bdecfa9; 0xf6bb4b60; 0xbebfbc70;
    0x289b7ec6; 0xeaa127fa; 0xd4ef3085; 0x04881d05;
    0xd9d4d039; 0xe6db99e5; 0x1fa27cf8; 0xc4ac5665;
    0xf4292244; 0x432aff97; 0xab9423a7; 0xfc93a039;
    0x655b59c3; 0x8f0ccc92; 0xffeff47d; 0x85845dd1;
    0x6fa87e4f; 0xfe2ce6e0; 0xa3014314; 0x4e0811a1;
    0xf7537e82; 0xbd3af235; 0x2ad7d2bb; 0xeb86d391 ].

Definition S : list N :=
  [ 7; 12; 17; 22; 7; 12; 17; 22; 7; 12; 17; 22; 7; 12; 17; 22;
    5; 9; 14; 20; 5; 9; 14; 20; 5; 9; 14; 20; 5; 9; 14; 20;
    4; 11; 16; 23; 4; 11; 16; 23; 4; 11; 16; 23; 4; 11; 16; 23;
    6; 10; 15; 21; 6; 10; 15; 21; 6; 10; 15; 21; 6; 10; 15; 21 ].

(** A little-endian word from (up to) four bytes. *)
Fixpoint word_of_bytes (l : bytes) : N :=
  match l with
  | [] => 0
  | x :: l' => Byte.to_N x + 256 * word_of_bytes l'
  end.

(** The sixteen words of a 64-byte block. *)
Fixpoint words (k : nat) (block : bytes) : list N :=
  match k with
  | O => []
  | Datatypes.S k' => word_of_bytes (firstn 4 block) :: words k' (skipn 4 block)
  end.

Definition state : Type := N * N * N * N.

Definition round (M : list N) (st : state) (i : nat) : state :=
  let '(A, B, C, D) := st in
  let '(F, g) :=
    if (i <? 16)%nat then (N.lor (N.land B C) (N.land (not32 B) D), i)
    else if (i <? 32)%nat
    then (N.lor (N.land D B) (N.land (not32 D) C), ((5 * i + 1) mod 16)%nat)
    else if (i <? 48)%nat
    then (N.lxor B (N.lxor C D), ((3 * i + 5) mod 16)%nat)
    else (N.lxor C (N.lor B (not32 D)), ((7 * i) mod 16)%nat) in
  let F' := add32 (add32 (add32 F A) (nth i K 0)) (nth g M 0) in
  (D, add32 B (rotl32 F' (nth i S 0)), B, C).

Definition process_block (st : state) (block : bytes) : state :=
  let '(a0, b0, c0, d0) := st in
  let '(A, B, C, D) := fold_left (round (words 16 block)) (seq 0 64) st in
  (add32 a0 A, add32 b0 B, add32 c0 C, add32 d0 D).

(** The message followed by 0x80, zeros up to 56 mod 64, and the bit length
    on eight bytes. *)
Definition pad (msg : bytes) : bytes :=
  let n := List.length msg in
  let zeros := ((64 + 55 - n mod 64) mod 64)%nat in
  (msg ++ [x80] ++ repeat x00 zeros
   ++ le_bytes 8 ((8 * N.of_nat n) mod 2 ^ 64))%list.

Fixpoint blocks (k : nat) (data : bytes) (st : state) : state :=
  match k with
  | O => st
  | Datatypes.S k' => blocks k' (skipn 64 data) (process_block st (firstn 64 data))
  end.

Definition init : state := (0x67452301, 0xefcdab89, 0x98badcfe, 0x10325476).

(** [hashlib.md5(msg).digest()]. *)
Definition digest (msg : bytes) : bytes :=
  let data := pad msg in
  let '(A, B, C, D) := blocks (List.length data / 64) data init in
  (le_bytes 4 A ++ le_bytes 4 B ++ le_bytes 4 C ++ le_bytes 4 D)%list.

Definition hex_digit (v : N) : ascii :=
  if v <? 10 then ascii_of_N (48 + v) else ascii_of_N (87 + v).

Definition hex_of_byte (x : byte) : string :=
  String (hex_digit (Byte.to_N x / 16))
    (String (hex_digit (Byte.to_N x mod 16)) EmptyString).

Fixpoint hex (l : bytes) : string :=
  match l with
  | [] => EmptyString
  | x :: l' => (hex_of_byte x ++ hex l')%string
  end.

(** [hashlib.md5(msg).hexdigest()]. *)
Definition hexdigest (msg : bytes) : string := hex (digest msg).

End MD5.

(** ** VoiceProcessor: the mock recogniser *)

Definition hex_value (c : ascii) : option N :=
  let v := N_of_ascii c in
  if ((48 <=? v) && (v <=? 57))%N then Some (v - 48)%N
  else if ((97 <=? v) && (v <=? 102))%N then Some (v - 87)%N
  else if ((65 <=? v) && (v <=? 70))%N then Some (v - 55)%N
  else None.

(** [int(s, 16)] on a non-empty string of hexadecimal digits; [None] stands
    for [ValueError]. *)
Fixpoint int_base16_aux (acc : N) (s : string) : option N :=
  match s with
  | EmptyString => Some acc
  | String c s' =>
      let? v := hex_value c in
      int_base16_aux (16 * acc + v)%N s'
  end.

Definition int_base16 (s : string) : option N :=
  match s with
  | EmptyString => None
  | _ => int_base16_aux 0 s
  end.

Definition mock_responses_small : list string :=
  [ "Hello, testing microphone.";
    "Can you hear me?";
    "This is a test.";
    "How are you today?" ].

Definition mock_responses_large : list string :=
  [ "Hello, I would like to know about your services.";
    "Can you tell me about your products?";
    "What are your business hours?";
    "I need help with my account.";
    "Thank you for your assistance." ].

(** [_try_mock_recognition].  [size_kb = len(audio_data) / 1024] is a float,
    and [size_kb < 1] holds exactly when the length is below 1024.  [None]
    is returned under 200 bytes and by the [except] branch. *)
Definition _try_mock_recognition (audio_data : bytes) : option string :=
  if len audio_data <? 200 then None
  else
    let mock_responses :=
      if len audio_data <? 1024 then mock_responses_small
      else mock_responses_large in
    let audio_hash := MD5.hexdigest audio_data in
    let? v := int_base16 (substring 0 2 audio_hash) in
    let response_index := N.to_nat v mod List.length mock_responses in
    nth_error mock_responses response_index.

(** ** VoiceProcessor: the recognition chain *)

(** Truth value of an optional transcript ([None] and [''] are false). *)
Definition truthy (x : option string) : bool :=
  match x with
  | Some EmptyString => false
  | Some _ => true
  | None => false
  end.

(** The calls [speech_to_text] makes on the processor, in order. *)
Inductive call :=
| Call_convert_webm_to_wav (audio_data : bytes)
| Call_convert_webm_enhanced (audio_data : bytes)
| Call_convert_container_format_to_wav (audio_data : bytes) (format_name : string)
| Call_try_raw_pcm_variants (audio_data : bytes)
| Call_try_direct_webm_recognition (audio_data : bytes)
| Call_try_speech_recognition (method_name : string) (audio_data : bytes)
| Call_try_alternative_processing (audio_data : bytes)
| Call_try_mock_recognition (audio_data : bytes).

Section RecognitionChain.

(** The state of everything outside the process: files, ffmpeg, the
    recognition services. *)
Variable W : Type.

(** The methods whose body is a call to a library or a service.  Each of
    them catches every exception itself and answers [None] then. *)
Record collaborators := {
  _convert_webm_to_wav : bytes -> W -> option bytes * W;
  _convert_webm_enhanced : bytes -> W -> option bytes * W;
  _convert_container_format_to_wav : bytes -> string -> W -> option bytes * W;
  _try_direct_webm_recognition : bytes -> W -> option string * W;
  _try_speech_recognition : string -> bytes -> W -> option string * W;
  _try_alternative_processing : bytes -> W -> option string * W
}.

Variable self : collaborators.

(** A computation over the world and the log of calls (oldest first). *)
Definition M (A : Type) : Type := W * list call -> A * (W * list call).

Definition ret {A} (a : A) : M A := fun s => (a, s).

Definition bind {A B} (m : M A) (f : A -> M B) : M B :=
  fun s => let '(a, s') := m s in f a s'.

Notation "x <- m ;; k" := (bind m (fun x => k))
  (at level 61, m at next level, right associativity).

(** Record the call, then let the collaborator answer. *)
Definition invoke {A} (c : call) (f : W -> A * W) : M A :=
  fun '(w, log) => let '(a, w') := f w in (a, (w', (log ++ [c])%list)).

(** Record the call of a method that is computed here. *)
Definition compute {A} (c : call) (a : A) : M A :=
  fun '(w, log) => (a, (w, (log ++ [c])%list)).

(** What a [lambda] of [recognition_methods] evaluates to when called: a
    coroutine still to be awaited, or a value. *)
Inductive method_func :=
| Coroutine (body : M (option string))
| Plain (body : M (option bytes)).

(** The list built between "Multiple recognition strategies" and "Try each
    recognition method". *)
Definition recognition_methods (audio_data : bytes) (format_info : format_info)
  : list (string * method_func) :=
  ((if (f_format format_info =? "webm")%string then
      [ ("direct_webm",
         Coroutine (invoke (Call_try_direct_webm_recognition audio_data)
                      (_try_direct_webm_recognition self audio_data)));
        ("webm_enhanced",
         Plain (invoke (Call_convert_webm_enhanced audio_data)
                  (_convert_webm_enhanced self audio_data)));
        ("webm_standard",
         Plain (invoke (Call_convert_webm_to_wav audio_data)
                  (_convert_webm_to_wav self audio_data))) ]
    else if f_needs_conversion format_info
            && ((f_format format_info =? "mp4")%string || (f_format format_info =? "ogg")%string)
    then
      [ ((f_format format_info ++ "_converted")%string,
         Plain (invoke (Call_convert_container_format_to_wav audio_data
                          (f_format format_info))
                  (_convert_container_format_to_wav self audio_data
                     (f_format format_info)))) ]
    else if f_is_valid format_info && (f_format format_info =? "wav")%string
    then [ ("original_wav", Plain (ret (Some audio_data))) ]
    else [])
   ++
   (if 1000 <? len audio_data then
      [ ("raw_pcm_fallback",
         Plain (compute (Call_try_raw_pcm_variants audio_data)
                  (_try_raw_pcm_variants audio_data))) ]
    else []))%list.

(** The loop "for method_name, method_func in recognition_methods".  A
    [TypeError] (awaiting a value, or [len] of a coroutine) is caught by the
    loop's [except] and the loop continues. *)
Fixpoint try_methods (methods : list (string * method_func)) : M (option string) :=
  match methods with
  | [] => ret None
  | (method_name, method_func) :: rest =>
      if startswith "direct_" method_name then
        match method_func with
        | Coroutine body =>
            result <- body ;;
            if truthy result then ret result else try_methods rest
        | Plain body => _ <- body ;; try_methods rest
        end
      else
        match method_func with
        | Plain body =>
            converted_audio <- body ;;
            match converted_audio with
            | Some audio =>
                if usable converted_audio then
                  result <- invoke (Call_try_speech_recognition method_name audio)
                              (_try_speech_recognition self method_name audio) ;;
                  if truthy result then ret result else try_methods rest
                else try_methods rest
            | None => try_methods rest
            end
        | Coroutine _ => try_methods rest
        end
  end.

(** The tail shared by both paths: alternative extraction, then the mock. *)
Definition alternatives_then_mock (audio_data : bytes) : M (option string) :=
  alt_result <- invoke (Call_try_alternative_processing audio_data)
                  (_try_alternative_processing self audio_data) ;;
  if truthy alt_result then ret alt_result
  else
    mock_result <- compute (Call_try_mock_recognition audio_data)
                     (_try_mock_recognition audio_data) ;;
    if truthy mock_result then ret mock_result else ret None.

(** The "single quick recognition method for small file" branch. *)
Definition quick_path (audio_data : bytes) : M (option string) :=
  let format_info := _analyze_audio_format audio_data in
  quick <-
    (if (f_format format_info =? "webm")%string then
       converted_audio <- invoke (Call_convert_webm_to_wav audio_data)
                            (_convert_webm_to_wav self audio_data) ;;
       match converted_audio with
       | Some audio =>
           if usable converted_audio then
             result <- invoke (Call_try_speech_recognition "webm_quick" audio)
                         (_try_speech_recognition self "webm_quick" audio) ;;
             if truthy result then ret result else ret None
           else ret None
       | None => ret None
       end
     else ret None) ;;
  match quick with
  | Some result => ret (Some result)
  | None => alternatives_then_mock audio_data
  end.

(** The path for blobs that pass the quick branch by. *)
Definition full_path (audio_data : bytes) : M (option string) :=
  let format_info := _analyze_audio_format audio_data in
  result <- try_methods (recognition_methods audio_data format_info) ;;
  match result with
  | Some text => ret (Some text)
  | None => alternatives_then_mock audio_data
  end.

Definition speech_to_text (audio_data : bytes) : M (option string) :=
  let validation := _validate_audio_data audio_data in
  if negb (v_is_valid validation) then ret None
  else if len audio_data <? 500 then ret None
  else if negb (v_likely_has_speech validation) then
    if len audio_data <? 2000 then quick_path audio_data
    else full_path audio_data
  else full_path audio_data.

End RecognitionChain.

Arguments ret {W A}.
Arguments bind {W A B}.
Arguments invoke {W A}.
Arguments compute {W A}.

(** ** Python [str] methods used by the router *)

(** [c.isspace()] for a code point below 256. *)
Definition is_space (c : ascii) : bool :=
  let v := N_of_ascii c in
  (((9 <=? v) && (v <=? 13)) || ((28 <=? v) && (v <=? 32))
   || (v =? 133) || (v =? 160))%N.

Fixpoint lstrip (s : string) : string :=
  match s with
  | EmptyString => EmptyString
  | String c s' => if is_space c then lstrip s' else s
  end.

Fixpoint rstrip (s : string) : string :=
  match s with
  | EmptyString => EmptyString
  | String c s' =>
      match rstrip s' with
      | EmptyString => if is_space c then EmptyString else String c EmptyString
      | t => String c t
      end
  end.

(** [s.strip()]. *)
Definition strip (s : string) : string := rstrip (lstrip s).

(** [c.lower()] for a code point below 256: A-Z, and the capital letters
    of Latin-1 (0xC0-0xDE without the multiplication sign 0xD7). *)
Definition lower_char (c : ascii) : ascii :=
  let v := N_of_ascii c in
  if (((65 <=? v) && (v <=? 90))
      || ((192 <=? v) && (v <=? 222) && negb (v =? 215)))%N
  then ascii_of_N (v + 32) else c.

(** [s.lower()]. *)
Fixpoint lower (s : string) : string :=
  match s with
  | EmptyString => EmptyString
  | String c s' => String (lower_char c) (lower s')
  end.

(** [s.replace(old, new)] for a non-empty [old]: occurrences are replaced
    from the left and do not overlap.  [skip] counts the characters of the
    occurrence just replaced that are still to be passed over. *)
Fixpoint replace_from (old new : string) (skip : nat) (s : string) : string :=
  match s with
  | EmptyString => EmptyString
  | String c s' =>
      match skip with
      | S k => replace_from old new k s'
      | O =>
          if String.prefix old s
          then (new ++ replace_from old new (String.length old - 1) s')%string
          else String c (replace_from old new 0 s')
      end
  end.

(** [s.replace('', new)] puts [new] before every character and at the end. *)
Fixpoint intersperse (new s : string) : string :=
  match s with
  | EmptyString => new
  | String c s' => (new ++ String c (intersperse new s'))%string
  end.

Definition replace (old new s : string) : string :=
  match old with
  | EmptyString => intersperse new s
  | _ => replace_from old new 0 s
  end.

(** [s.endswith(suffix)]. *)
Definition endswith (suffix s : string) : bool :=
  (String.length suffix <=? String.length s)
  && String.eqb suffix
       (substring (String.length s - String.length suffix)
          (String.length suffix) s).

(** [s.endswith(tuple)]. *)
Definition endswith_any (suffixes : list string) (s : string) : bool :=
  existsb (fun suffix => endswith suffix s) suffixes.

(** ** HybridLLMService: post-processing of the generated text *)

Definition DOUBLE_QUOTE : string := String (ascii_of_nat 34) EmptyString.

(** The tuple of [response.endswith((...))]. *)
Definition TERMINATORS : list string := [ "?"; "."; "!"; ")"; DOUBLE_QUOTE ].

Definition CANONICAL_FALLBACK : string :=
  "I can only provide information based on our available documentation. Please ask about topics covered in our materials.".

Definition _clean_and_validate_response
  (response knowledge_context user_message : string) : string :=
  let response := replace "AI:" "" (replace "Assistant:" "" response) in
  let response :=
    strip (replace "Your Response:" "" (replace "Response:" "" response)) in
  if str_in "I'm here to provide support based on our documentation" response
  then CANONICAL_FALLBACK
  else if (String.length response <? 15)
          && negb (str_in "documentation" (lower response))
  then CANONICAL_FALLBACK
  else if negb (endswith_any TERMINATORS response)
  then (response ++ ".")%string
  else response.

(** ** HybridLLMService: the backend pin *)

(** The value under [agent_persona['personality']]: absent, a dictionary
    (with or without a ['goal']), or something without a [get] method. *)
Inductive personality :=
| PersonalityAbsent
| PersonalityDict (goal : option string)
| PersonalityOther.

Record agent_persona := { persona_personality : personality }.

(** [agent_persona.get('personality', {}).get('goal', 'Represent the
    organization')]; [None] stands for the [AttributeError] raised when the
    personality has no [get]. *)
Definition persona_goal (persona : agent_persona) : option string :=
  match persona_personality persona with
  | PersonalityAbsent => Some "Represent the organization"
  | PersonalityDict (Some goal) => Some goal
  | PersonalityDict None => Some "Represent the organization"
  | PersonalityOther => None
  end.

(** What [requests.post] and the decoding of its body come to. *)
Inductive ollama_reply :=
| OllamaRaises
| OllamaStatus (status_code : nat) (response : option string).

(** What [gemini_model.generate_content] comes to; [None] is an empty
    [response.text]. *)
Inductive gemini_reply :=
| GeminiRaises
| GeminiText (text : option string).

(** What happens on the service, in order. *)
Inductive router_event :=
| Probe
| PostOllama
| CallGemini
| SetUseOllama (value : bool).

Definition APOLOGY : string :=
  "I apologize, but I'm having trouble processing your request right now. Please try again.".

Section Router.

Variable W : Type.

(** The network calls.  The prompts are fixed templates around the role,
    the knowledge context and the user message. *)
Record backends := {
  _check_ollama_availability : W -> bool * W;
  post_api_generate : string -> string -> string -> W -> ollama_reply * W;
  generate_content : string -> string -> W -> gemini_reply * W
}.

Variable net : backends.

(** The instance: [self.use_ollama] with the world and the trace. *)
Record service := {
  use_ollama : option bool;
  world : W;
  trace : list router_event
}.

Definition HybridLLMService (w : W) : service :=
  {| use_ollama := None; world := w; trace := [] |}.

Definition emit (e : router_event) (self : service) : service :=
  {| use_ollama := use_ollama self; world := world self;
     trace := (trace self ++ [e])%list |}.

Definition set_world (w : W) (self : service) : service :=
  {| use_ollama := use_ollama self; world := w; trace := trace self |}.

(** The assignment [self.use_ollama = value]. *)
Definition assign_use_ollama (value : bool) (self : service) : service :=
  {| use_ollama := Some value; world := world self;
     trace := (trace self ++ [SetUseOllama value])%list |}.

Definition _generate_gemini_response
  (persona : agent_persona) (user_message knowledge_context : string)
  (self : service) : string * service :=
  let self := emit CallGemini self in
  let '(reply, w) := generate_content net knowledge_context user_message (world self) in
  let self := set_world w self in
  match reply with
  | GeminiRaises => (APOLOGY, self)
  | GeminiText text =>
      let generated_text :=
        match text with
        | Some t => if String.length t =? 0 then "" else strip t
        | None => ""
        end in
      (_clean_and_validate_response generated_text knowledge_context user_message,
       self)
  end.

(** [_generate_ollama_response]: [inl tt] when the exception raised while
    the prompt is built leaves the method, [inr text] when it returns. *)
Definition _generate_ollama_response
  (persona : agent_persona) (user_message knowledge_context : string)
  (self : service) : (unit + string) * service :=
  match persona_goal persona with
  | None => (inl tt, self)
  | Some role =>
      let self := emit PostOllama self in
      let '(reply, w) :=
        post_api_generate net role knowledge_context user_message (world self) in
      let self := set_world w self in
      let fall_back (self : service) :=
        let self := assign_use_ollama false self in
        let '(text, self) :=
          _generate_gemini_response persona user_message knowledge_context self in
        (inr text, self) in
      match reply with
      | OllamaStatus status_code response =>
          if status_code =? 200 then
            let generated_text :=
              strip match response with Some r => r | None => "" end in
            (inr (_clean_and_validate_response generated_text knowledge_context
                    user_message), self)
          else fall_back self
      | OllamaRaises => fall_back self
      end
  end.

Definition generate_response
  (persona : agent_persona) (user_message knowledge_context : string)
  (self : service) : string * service :=
  let self :=
    match use_ollama self with
    | None =>
        let self := emit Probe self in
        let '(available, w) := _check_ollama_availability net (world self) in
        assign_use_ollama available (set_world w self)
    | Some _ => self
    end in
  match use_ollama self with
  | Some true =>
      match _generate_ollama_response persona user_message knowledge_context self with
      | (inr text, self) => (text, self)
      | (inl _, self) =>
          let self := assign_use_ollama false self in
          _generate_gemini_response persona user_message knowledge_context self
      end
  | _ => _generate_gemini_response persona user_message knowledge_context self
  end.

(** A request: the three arguments of [generate_response]. *)
Definition request : Type := agent_persona * string * string.

(** The instance after serving the requests one after the other. *)
Fixpoint serve (requests : list request) (self : service) : service :=
  match requests with
  | [] => self
  | (persona, user_message, knowledge_context) :: rest =>
      serve rest (snd (generate_response persona user_message knowledge_context self))
  end.

End Router.

Arguments use_ollama {W}.
Arguments world {W}.
Arguments trace {W}.

(** ** The pin as a state machine *)

(** The edges [unset -> local], [unset -> remote] and [local -> remote]. *)
Inductive pin_step : option bool -> option bool -> Prop :=
| unset_to_local : pin_step None (Some true)
| unset_to_remote : pin_step None (Some false)
| local_to_remote : pin_step (Some true) (Some false).

Definition pin_step_b (p : option bool) (value : bool) : bool :=
  match p, value with
  | None, _ => true
  | Some true, false => true
  | _, _ => false
  end.

(** Replays a trace from the pin [p].  It yields the pin at the end, or
    [None] when an assignment is not an edge of [pin_step], a probe is made
    while the pin is set, the local backend is called while the pin is not
    local, or the remote backend while the pin is not remote. *)
Fixpoint replay (p : option bool) (t : list router_event) : option (option bool) :=
  match t with
  | [] => Some p
  | Probe :: t' =>
      match p with None => replay p t' | Some _ => None end
  | PostOllama :: t' =>
      match p with Some true => replay p t' | _ => None end
  | CallGemini :: t' =>
      match p with Some false => replay p t' | _ => None end
  | SetUseOllama value :: t' =>
      if pin_step_b p value then replay (Some value) t' else None
  end.

Definition probes (t : list router_event) : nat :=
  List.length (filter (fun e => match e with Probe => true | _ => false end) t).

(** * Vocabulary of the statements *)

(** ** Predicates *)

(** One of the four container signatures the sniffer knows. *)
Definition has_signature (a : bytes) : Prop :=
  (firstn 4 a = b "RIFF" /\ slice 8 12 a = b "WAVE")
  \/ firstn 4 a = EBML_MAGIC
  \/ bytes_in (b "ftyp") (firstn 20 a) = true
  \/ firstn 4 a = b "OggS".

(** The text once the scaffolding tokens are removed and the ends are
    stripped: the value of [response] before the first test. *)
Definition strip_scaffolding (response : string) : string :=
  strip (replace "Your Response:" ""
           (replace "Response:" ""
              (replace "AI:" "" (replace "Assistant:" "" response)))).

(** What the pin [p] permits as the next event. *)
Definition permitted (p : option bool) (e : router_event) : Prop :=
  match e with
  | Probe => p = None
  | PostOllama => p = Some true
  | CallGemini => p = Some false
  | SetUseOllama value => pin_step p (Some value)
  end.

(** The raw-PCM fallback as the specification words it: the sample rates
    are tried in order, and the first one whose header-prepended WAV is
    plausible and accepted by the recogniser is the one kept. *)
Definition spec_raw_pcm_fallback (accepts : bytes -> bool) (audio_data : bytes)
  : option bytes :=
  find (fun wav => usable (Some wav) && accepts wav)
    (map (fun config =>
            _create_wav_from_raw_pcm
              (firstn (len audio_data - len audio_data mod 2) audio_data)
              (rate config) (channels config) (width config))
       configs).

Section ChainVocabulary.

Variable W : Type.

(** Every audio handed to [_try_speech_recognition] so far is longer than
    44 bytes. *)
Definition recognised_ok (log : list call) : Prop :=
  forall method_name audio,
    In (Call_try_speech_recognition method_name audio) log -> 44 < len audio.

(** A computation that keeps [recognised_ok]. *)
Definition keeps {A} (m : M W A) : Prop :=
  forall w log, recognised_ok log -> recognised_ok (snd (snd (m (w, log)))).

(** A call that is not a recognition call on a short audio. *)
Definition harmless (c : call) : Prop :=
  forall method_name audio,
    c = Call_try_speech_recognition method_name audio -> 44 < len audio.

Definition keeps_method (entry : string * method_func W) : Prop :=
  match snd entry with
  | Coroutine _ body => keeps body
  | Plain _ body => keeps body
  end.

End ChainVocabulary.

Arguments keeps W {A}.
Arguments keeps_method {W}.

Section RouterVocabulary.

Variable W : Type.
Variable net : backends W.

(** A runtime failure of the local backend in the world [w]: the prompt
    cannot be built, the request or the decoding of its answer raises, or
    the status is not 200. *)
Definition local_call_fails (persona : agent_persona) (um kc : string) (w : W)
  : Prop :=
  match persona_goal persona with
  | None => True
  | Some role =>
      match fst (post_api_generate W net role kc um w) with
      | OllamaRaises => True
      | OllamaStatus status_code _ => status_code <> 200
      end
  end.

(** The events one call appends, and what they do to the pin. *)
Record call_effect (self self' : service W) (t : list router_event) : Prop := {
  effect_trace : trace self' = (trace self ++ t)%list;
  effect_replay : replay (use_ollama self) t = Some (use_ollama self');
  effect_set : use_ollama self' <> None;
  effect_probes :
    probes t = match use_ollama self with None => 1 | Some _ => 0 end;
  effect_first :
    use_ollama self = None ->
    exists value t', t = Probe :: SetUseOllama value :: t' /\ probes t' = 0;
  effect_remote : use_ollama self = Some false -> t = [CallGemini]
}.

(** The first half of [generate_response]: the probe, when the pin is
    unset. *)
Definition probe_once (self : service W) : service W :=
  match use_ollama self with
  | None =>
      let self := emit W Probe self in
      let '(available, w) := _check_ollama_availability W net (world self) in
      assign_use_ollama W available (set_world W w self)
  | Some _ => self
  end.

(** The second half: the call on the pinned backend. *)
Definition dispatch (persona : agent_persona) (um kc : string) (self : service W)
  : string * service W :=
  match use_ollama self with
  | Some true =>
      match _generate_ollama_response W net persona um kc self with
      | (inr text, self) => (text, self)
      | (inl _, self) =>
          let self := assign_use_ollama W false self in
          _generate_gemini_response W net persona um kc self
      end
  | _ => _generate_gemini_response W net persona um kc self
  end.

End RouterVocabulary.

Arguments call_effect {W}.

(** ** Sample blobs and stand-in collaborators *)

(** A collaborator set on a world without state: conversions yield
    [converted], the two recognisers yield [heard], alternative extraction
    yields nothing. *)
Definition stand_in (converted : option bytes) (heard : bytes -> option string)
  : collaborators unit :=
  {| _convert_webm_to_wav := fun _ w => (converted, w);
     _convert_webm_enhanced := fun _ w => (converted, w);
     _convert_container_format_to_wav := fun _ _ w => (converted, w);
     _try_direct_webm_recognition := fun _ w => (None, w);
     _try_speech_recognition := fun _ audio w => (heard audio, w);
     _try_alternative_processing := fun _ w => (None, w) |}.

(** 2000 bytes with the RIFF/WAVE signature. *)
Definition wav_2000 : bytes :=
  (b "RIFF" ++ repeat x00 4 ++ b "WAVE" ++ repeat x00 1988)%list.

(** 2000 bytes with the EBML magic. *)
Definition webm_2000 : bytes := (EBML_MAGIC ++ repeat x00 1996)%list.

(** 2000 bytes without a signature. *)
Definition raw_2000 : bytes := repeat x00 2000.

(** A recogniser that understands only a WAV whose header announces
    44100 Hz (bytes 24 to 27 of the header hold the sample rate). *)
Definition accepts_44100 (wav : bytes) : bool :=
  bytes_eqb (slice 24 28 wav) (le_bytes 4 44100).

Definition hears_44100 (wav : bytes) : option string :=
  if accepts_44100 wav then Some "hello" else None.

(** Bytes drawn from a linear congruential generator. *)
Fixpoint noise (k : nat) (seed : N) : bytes :=
  match k with
  | 0 => []
  | S k' =>
      let next := ((seed * 1103515245 + 12345) mod 2 ^ 31)%N in
      byte_of_N (next / 65536) :: noise k' next
  end.

Definition noise_1500 : bytes := noise 1500 2024.

(** A local backend that is reachable and then fails, and a remote one that
    answers. *)
Definition failing_local : backends unit :=
  {| _check_ollama_availability := fun w => (true, w);
     post_api_generate := fun _ _ _ w => (OllamaRaises, w);
     generate_content := fun _ _ w => (GeminiText (Some "We open at nine"), w) |}.

(** A local backend that the probe finds unreachable. *)
Definition unreachable_local : backends unit :=
  {| _check_ollama_availability := fun w => (false, w);
     post_api_generate := fun _ _ _ w => (OllamaRaises, w);
     generate_content := fun _ _ w => (GeminiText (Some "We open at nine"), w) |}.

Definition a_request : request :=
  ({| persona_personality := PersonalityAbsent |}, "When do you open?", "").

(** * Further model *)

(** ** VoiceProcessor: alternative extraction *)

(** [hay.find(needle)]: the index of the first occurrence, [None] for -1. *)
Fixpoint bytes_find (needle hay : bytes) : option nat :=
  if bytes_startswith needle hay then Some 0
  else
    match hay with
    | [] => None
    | _ :: hay' => option_map S (bytes_find needle hay')
    end.

(** [little] as an integer, least significant byte first. *)
Fixpoint int_from_le (little : bytes) : N :=
  match little with
  | [] => 0
  | x :: rest => Byte.to_N x + 256 * int_from_le rest
  end.

(** The sample rates of [_try_raw_audio_extraction], in order. *)
Definition extraction_rates : list N := [16000; 22050; 44100; 8000]%N.

(** [str(n)] for a number held in [N]. *)
Definition str_of_N (n : N) : string := str_of_nat (N.to_nat n).

Section AlternativeProcessing.

Variable W : Type.
Variable self : collaborators W.

(** The subprocess part of [_try_ffmpeg_extraction]: the WAV that FFmpeg
    wrote; [None] when FFmpeg is missing or fails, or when anything raises. *)
Variable ffmpeg_to_wav : bytes -> W -> option bytes * W.

Notation "x <- m ;; k" := (bind m (fun x => k))
  (at level 61, m at next level, right associativity).

(** A collaborator call that is not recorded in the log of calls. *)
Definition quiet {A} (f : W -> A * W) : M W A :=
  fun '(w, log) => let '(a, w') := f w in (a, (w', log)).

(** The loop of [_try_raw_audio_extraction] over the sample rates. *)
Fixpoint raw_extraction_loop (audio_data : bytes) (rates : list N)
  : M W (option string) :=
  match rates with
  | [] => ret None
  | rate :: rest =>
      let wav_data := _create_wav_from_raw_pcm audio_data rate 1 2 in
      if 1000 <? len wav_data then
        result <- invoke (Call_try_speech_recognition
                            ("raw_extracted_" ++ str_of_N rate) wav_data)
                    (_try_speech_recognition W self
                       ("raw_extracted_" ++ str_of_N rate) wav_data) ;;
        if truthy result then ret result else raw_extraction_loop audio_data rest
      else raw_extraction_loop audio_data rest
  end.

Definition _try_raw_audio_extraction (audio_data : bytes) : M W (option string) :=
  raw_extraction_loop audio_data extraction_rates.

(** [_try_ffmpeg_extraction]: whatever FFmpeg wrote goes to recognition. *)
Definition _try_ffmpeg_extraction (audio_data : bytes) : M W (option string) :=
  converted <- quiet (ffmpeg_to_wav audio_data) ;;
  match converted with
  | Some wav_data =>
      invoke (Call_try_speech_recognition "ffmpeg_converted" wav_data)
        (_try_speech_recognition W self "ffmpeg_converted" wav_data)
  | None => ret None
  end.

(** The first method of [_try_alternative_processing]: [Some text] when it
    returns [text], [None] when it falls through to the second method. *)
Definition opus_extraction (audio_data : bytes) : M W (option string) :=
  if 50 <? len audio_data then
    if bytes_in (b "OpusHead") audio_data then
      match bytes_find (b "OpusHead") audio_data with
      | Some opus_start =>
          if 0 <? opus_start then
            let extracted_audio := skipn (opus_start + 50) audio_data in
            if 100 <? len extracted_audio then
              result <- _try_raw_audio_extraction extracted_audio ;;
              if truthy result then ret result else ret None
            else ret None
          else ret None
      | None => ret None
      end
    else ret None
  else ret None.

(** [_try_alternative_processing]: the Opus extraction, when it applies,
    then the FFmpeg extraction. *)
Definition _try_alternative_processing_body (audio_data : bytes)
  : M W (option string) :=
  extracted <- opus_extraction audio_data ;;
  match extracted with
  | Some result => ret (Some result)
  | None =>
      ffmpeg_result <- _try_ffmpeg_extraction audio_data ;;
      if truthy ffmpeg_result then ret ffmpeg_result else ret None
  end.

End AlternativeProcessing.

Arguments quiet {W A}.

(** ** VoiceProcessor: the WAV readings of raw data *)


(** ** HybridLLMService: the fallback sentences *)

(** [_get_fallback_response]; [agent_type] is [None] when the key is
    missing. *)
Definition _get_fallback_response (agent_type : option string) : string :=
  let agent_type :=
    match agent_type with Some t => t | None => "support" end in
  if (agent_type =? "sales")%string then
    "I'm here to help you with information about our products and services. How can I assist you today?"
  else if (agent_type =? "support")%string then
    "I'm here to provide support based on our documentation. How can I help you?"
  else
    "I'm here to assist you with information from our knowledge base. What would you like to know?".

(** ** Vocabulary of the further statements *)

(** The fields of the header fit their [struct.pack] formats. *)
Definition header_fits (data_size sample_rate channels sample_width : N) : Prop :=
  (36 + data_size < 2 ^ 32 /\ sample_rate < 2 ^ 32
   /\ sample_rate * channels * sample_width < 2 ^ 32
   /\ channels < 2 ^ 16 /\ channels * sample_width < 2 ^ 16
   /\ sample_width * 8 < 2 ^ 16)%N.


(** A call of one of the real strategies: anything but alternative
    extraction and the mock. *)
Definition real_call (c : call) : Prop :=
  match c with
  | Call_try_alternative_processing _ => False
  | Call_try_mock_recognition _ => False
  | _ => True
  end.

(** The end of a run of [speech_to_text]: nothing, alternative extraction,
    or alternative extraction followed by the mock. *)
Definition last_resort (audio_data : bytes) (t : list call) : Prop :=
  t = []
  \/ t = [ Call_try_alternative_processing audio_data ]
  \/ t = [ Call_try_alternative_processing audio_data;
           Call_try_mock_recognition audio_data ].

(** The calls of the quick branch before the last resort. *)
Definition quick_attempt (audio_data : bytes) (t : list call) : Prop :=
  t = []
  \/ f_format (_analyze_audio_format audio_data) = "webm"
     /\ (t = [ Call_convert_webm_to_wav audio_data ]
         \/ exists converted,
              44 < len converted
              /\ t = [ Call_convert_webm_to_wav audio_data;
                       Call_try_speech_recognition "webm_quick" converted ]).

(** The calls of the quick branch before the last resort, in the world
    [w]: none unless the blob is webm; for webm the standard conversion,
    followed by the recognition of its output when that output is longer
    than 44 bytes. *)
Definition quick_calls (W : Type) (self : collaborators W) (audio_data : bytes)
  (w : W) : list call :=
  if (f_format (_analyze_audio_format audio_data) =? "webm")%string then
    Call_convert_webm_to_wav audio_data
    :: match fst (_convert_webm_to_wav W self audio_data w) with
       | Some converted =>
           if usable (Some converted)
           then [ Call_try_speech_recognition "webm_quick" converted ]
           else []
       | None => []
       end
  else [].

(** The first call of the full strategy list, by detected format. *)
Definition first_attempt (audio_data : bytes) : call :=
  let format := f_format (_analyze_audio_format audio_data) in
  if (format =? "webm")%string then Call_try_direct_webm_recognition audio_data
  else if ((format =? "mp4") || (format =? "ogg"))%string
  then Call_convert_container_format_to_wav audio_data format
  else if (format =? "wav")%string
  then Call_try_speech_recognition "original_wav" audio_data
  else Call_try_raw_pcm_variants audio_data.

(** The recognition calls of the raw extraction over [rates], one per
    sample rate, in the order of the loop. *)
Definition rate_calls (extracted : bytes) (rates : list N) : list call :=
  map (fun rate =>
         Call_try_speech_recognition ("raw_extracted_" ++ str_of_N rate)
           (_create_wav_from_raw_pcm extracted rate 1 2))
    rates.

Definition extraction_calls (extracted : bytes) : list call :=
  rate_calls extracted extraction_rates.

(** The loop over [rates] stopped after [k] calls: at least one when there
    is a rate, and all of them when nothing was heard. *)
Definition tried (extracted : bytes) (rates : list N) (r : option string)
  (t : list call) : Prop :=
  exists k,
    k <= List.length rates
    /\ t = firstn k (rate_calls extracted rates)
    /\ (rates <> [] -> 1 <= k)
    /\ (r = None -> k = List.length rates).

(** The calls of the Opus extraction: none, or the raw extraction of what
    follows an Opus header found after the first byte. *)
Definition opus_calls (audio_data : bytes) (t : list call) : Prop :=
  t = []
  \/ exists opus_start k,
       bytes_find (b "OpusHead") audio_data = Some opus_start
       /\ 0 < opus_start
       /\ opus_start + 1006 < len audio_data
       /\ 1 <= k <= 4
       /\ t = firstn k (extraction_calls (skipn (opus_start + 50) audio_data)).

(** The calls of the FFmpeg extraction: none, or one recognition. *)
Definition ffmpeg_calls (t : list call) : Prop :=
  t = []
  \/ exists wav_data,
       t = [ Call_try_speech_recognition "ffmpeg_converted" wav_data ].

(** The shape of a run on a blob of 200 bytes or more: real calls, then
    the last resort; the transcript is not empty, and it is the mock
    transcript when the mock was called. *)
Definition path_post (audio_data : bytes) (r : option string) (t : list call)
  : Prop :=
  truthy r = true
  /\ exists t1 t2,
       t = (t1 ++ t2)%list /\ Forall real_call t1 /\ last_resort audio_data t2
       /\ (In (Call_try_mock_recognition audio_data) t2 ->
           r = _try_mock_recognition audio_data).

Section ChainPostconditions.

Variable W : Type.

(** The computation appends [t] to the log and returns [a] with [P a t]. *)
Definition appends {A} (m : M W A) (P : A -> list call -> Prop) : Prop :=
  forall w log,
  exists t,
    snd (snd (m (w, log))) = (log ++ t)%list /\ P (fst (m (w, log))) t.

(** An optional transcript as the chain passes it on: nothing, or a text
    that is not empty. *)
Definition heard (r : option string) : Prop := r = None \/ truthy r = true.

(** The strategies of the list make real calls only. *)
Definition real_method (entry : string * method_func W) : Prop :=
  match snd entry with
  | Coroutine _ body => appends body (fun _ t => Forall real_call t)
  | Plain _ body => appends body (fun _ t => Forall real_call t)
  end.

End ChainPostconditions.

Arguments appends W {A}.
Arguments real_method {W}.

(** ** Further sample backends *)

(** Both backends down: the probe succeeds, the local request raises and
    so does the remote one. *)
Definition both_down : backends unit :=
  {| _check_ollama_availability := fun w => (true, w);
     post_api_generate := fun _ _ _ w => (OllamaRaises, w);
     generate_content := fun _ _ w => (GeminiRaises, w) |}.

(** A local backend that answers 200 with a body without text. *)
Definition silent_local : backends unit :=
  {| _check_ollama_availability := fun w => (true, w);
     post_api_generate := fun _ _ _ w => (OllamaStatus 200 None, w);
     generate_content := fun _ _ w => (GeminiText (Some "We open at nine"), w) |}.

(** ** ConversationEngine *)

Set Warnings "-abstract-large-number".

Module ConversationEngine.

(** A document as a dictionary: each of the three keys may be missing. *)
Record document := {
  doc_title : option string;
  doc_content : option string;
  doc_categories : option (list string)
}.

(** An entry of the conversation log, with the two keys the engine reads. *)
Record log_entry := { speaker : string; message : string }.

(** What the engine reads of an [AgentPersona]. *)
Record agent := { agent_personality : personality }.

Definition NEWLINE : string := String (ascii_of_nat 10) EmptyString.

(** [sep.join(parts)]. *)
Fixpoint join (sep : string) (parts : list string) : string :=
  match parts with
  | [] => ""
  | part :: rest =>
      match rest with
      | [] => part
      | _ => part ++ sep ++ join sep rest
      end
  end.

(** [d.get(key, default)]. *)
Definition get {A} (value : option A) (default : A) : A :=
  match value with
  | Some v => v
  | None => default
  end.

(** The string behind a value that has passed a truth test. *)
Definition text_of (value : option string) : string :=
  match value with
  | Some text => text
  | None => ""
  end.

(** The four lines [_prepare_full_knowledge_context] appends for [doc]. *)
Definition context_parts (doc : document) : list string :=
  let title := get (doc_title doc) "Document" in
  let content := get (doc_content doc) "" in
  let categories := get (doc_categories doc) [] in
  let content :=
    if 5000 <? String.length content
    then substring 0 5000 content ++ "... [content truncated]"
    else content in
  [ "Document Title: " ++ title;
    "Categories: " ++ join ", " categories;
    "Content: " ++ content;
    "---" ].

Definition _prepare_full_knowledge_context (all_documents : list document)
  : string :=
  join NEWLINE (flat_map context_parts all_documents).

(** The loop [for entry in reversed(conversation_log)] with its [break]. *)
Fixpoint latest_human (reversed_log : list log_entry) : option string :=
  match reversed_log with
  | [] => None
  | entry :: rest =>
      if (speaker entry =? "human")%string then Some (message entry)
      else latest_human rest
  end.

(** The dictionary appended to [all_documents] for a stored document;
    [None] is the [KeyError] of [doc["title"]] or [doc["content"]]. *)
Definition loaded (doc : document) : option document :=
  match doc_title doc, doc_content doc with
  | Some title, Some content =>
      Some {| doc_title := Some title; doc_content := Some content;
              doc_categories := Some (get (doc_categories doc) []) |}
  | _, _ => None
  end.

Fixpoint load_all (documents : list document) : option (list document) :=
  match documents with
  | [] => Some []
  | doc :: rest =>
      match loaded doc with
      | Some d => option_map (cons d) (load_all rest)
      | None => None
      end
  end.

Definition NOT_ABLE : string :=
  "I'm sorry, I'm not able to help with that right now.".

Definition DID_NOT_CATCH : string :=
  "I didn't catch that. Could you please repeat?".

Definition NO_DOCUMENTS : string :=
  "I don't have any documents loaded yet. Please upload some company documents first so I can help you.".

Definition TROUBLE : string :=
  "I'm having trouble processing your request. Please try again.".

Section Engine.

Variable W : Type.
Variable net : backends W.
Variable chain : collaborators W.

(** What the engine calls outside itself.  [None] is an exception, which
    the [except] of [generate_response] turns into [TROUBLE].
    [text_to_speech] catches its own exceptions and answers a path or
    [None]. *)
Record environment := {
  get_agent : string -> W -> option (option agent) * W;
  list_agents : W -> option unit * W;
  documents : W -> option (list document) * W;
  text_to_speech : string -> string -> W -> option string * W
}.

Variable env : environment.

(** [generate_response]: the reply, the world, and the LLM service of this
    turn when one was created. *)
Definition generate_response (agent_id : string)
  (conversation_log : list log_entry) (w : W)
  : string * W * option (service W) :=
  match get_agent env agent_id w with
  | (None, w) => (TROUBLE, w, None)
  | (Some None, w) =>
      match list_agents env w with
      | (None, w) => (TROUBLE, w, None)
      | (Some _, w) => (NOT_ABLE, w, None)
      end
  | (Some (Some agent), w) =>
      let latest_human_message := latest_human (rev conversation_log) in
      if negb (truthy latest_human_message) then (DID_NOT_CATCH, w, None)
      else
        match documents env w with
        | (None, w) => (TROUBLE, w, None)
        | (Some stored, w) =>
            if List.length stored =? 0 then (NO_DOCUMENTS, w, None)
            else
              match load_all stored with
              | None => (TROUBLE, w, None)
              | Some all_documents =>
                  let knowledge_context :=
                    _prepare_full_knowledge_context all_documents in
                  let llm_service := HybridLLMService W w in
                  let agent_persona :=
                    {| persona_personality := agent_personality agent |} in
                  let '(response, llm_service) :=
                    generate_response W net agent_persona
                      (text_of latest_human_message) knowledge_context
                      llm_service in
                  (response, world llm_service, Some llm_service)
              end
        end
  end.

(** What [process_speech_input] runs, in order. *)
Inductive engine_call :=
| Engine_speech_to_text (calls : list call)
| Engine_generate_response (conversation_log : list log_entry)
    (llm : option (service W))
| Engine_text_to_speech (text : string).

(** The dictionary [process_speech_input] returns; [error] is [None] where
    the key is missing. *)
Record speech_reply := {
  success : bool;
  error : option string;
  transcribed_text : option string;
  response_text : string;
  audio_response : option string;
  audio_validation : validation
}.

(** [process_speech_input].  Its callees catch their own exceptions, so
    its own [except] branch is left out. *)
Definition process_speech_input (audio_data : bytes) (agent_id : string) (w : W)
  : speech_reply * W * list engine_call :=
  let validation := _validate_audio_data audio_data in
  let '(transcribed_text, (w, calls)) :=
    speech_to_text W chain audio_data (w, []) in
  if negb (truthy transcribed_text) then
    let '(error_message, fallback_response) :=
      if truthy (v_recommendation validation)
      then (v_error validation, text_of (v_recommendation validation))
      else if len audio_data <? 1000
      then (Some "The audio recording is too short or contains only silence.",
            "I didn't hear any speech in your recording. Please try again - make sure to speak clearly for at least 2-3 seconds, and check that your microphone is working.")
      else (Some "Could not understand the audio content.",
            "I'm having trouble understanding your audio. Please try speaking more clearly or check your microphone settings.") in
    let '(audio_response, w) := text_to_speech env fallback_response agent_id w in
    ({| success := false; error := error_message; transcribed_text := None;
        response_text := fallback_response; audio_response := audio_response;
        audio_validation := validation |},
     w,
     [ Engine_speech_to_text calls; Engine_text_to_speech fallback_response ])
  else
    let conversation_log :=
      [ {| speaker := "human"; message := text_of transcribed_text |} ] in
    let '(response_text, w, llm) := generate_response agent_id conversation_log w in
    let '(audio_response, w) := text_to_speech env response_text agent_id w in
    ({| success := true; error := None; transcribed_text := transcribed_text;
        response_text := response_text; audio_response := audio_response;
        audio_validation := validation |},
     w,
     [ Engine_speech_to_text calls;
       Engine_generate_response conversation_log llm;
       Engine_text_to_speech response_text ]).

End Engine.

Arguments get_agent {W}.
Arguments list_agents {W}.
Arguments documents {W}.
Arguments text_to_speech {W}.
Arguments Engine_speech_to_text {W}.
Arguments Engine_generate_response {W}.
Arguments Engine_text_to_speech {W}.

End ConversationEngine.

(** An engine whose agent exists and whose knowledge base holds one
    document. *)
Definition an_engine : ConversationEngine.environment unit :=
  {| ConversationEngine.get_agent := fun _ w =>
       (Some (Some {| ConversationEngine.agent_personality := PersonalityAbsent |}),
        w);
     ConversationEngine.list_agents := fun w => (Some tt, w);
     ConversationEngine.documents := fun w =>
       (Some [ {| ConversationEngine.doc_title := Some "Hours";
                  ConversationEngine.doc_content := Some "We open at nine.";
                  ConversationEngine.doc_categories := None |} ],
        w);
     ConversationEngine.text_to_speech := fun _ _ w => (Some "response.mp3", w) |}.

(** ** The endpoint [/api/speech-chat] *)

(** [os.path.basename(path)]: what follows the last slash. *)
Fixpoint basename (path : string) : string :=
  match path with
  | EmptyString => EmptyString
  | String c rest =>
      if str_in "/" rest then basename rest
      else if Ascii.eqb c "/" then rest
      else path
  end.

(** The [error] of a reply: the one of the engine, or the text made from
    the exception caught by the handler. *)
Inductive chat_error :=
| Engine_error (error_msg : option string)
| Server_error.

(** The dictionary [speech_chat] returns; [chat_error_msg] is [None] where
    the key is missing. *)
Record chat_reply := {
  chat_success : bool;
  chat_error_msg : option chat_error;
  chat_transcribed_text : string;
  chat_response_text : string;
  chat_audio_url : option string
}.

Definition SORRY : string :=
  "I'm sorry, I couldn't understand your audio. Please try speaking clearly and ensure your microphone is working properly.".

Definition TECHNICAL_DIFFICULTIES : string :=
  "I'm experiencing technical difficulties. Please try again.".

Section SpeechChat.

Variable W : Type.
Variable net : backends W.
Variable chain : collaborators W.
Variable env : ConversationEngine.environment W.

(** The reply of the [except] branch. *)
Definition server_error_reply : chat_reply :=
  {| chat_success := false; chat_error_msg := Some Server_error;
     chat_transcribed_text := ""; chat_response_text := TECHNICAL_DIFFICULTIES;
     chat_audio_url := None |}.

(** [speech_chat], once the upload is read.  The [HTTPException] raised for
    an unknown agent is raised inside the [try] and is an [Exception]: the
    [except] branch catches it. *)
Definition speech_chat (audio_data : bytes) (agent_id : string) (w : W)
  : chat_reply * W * list (ConversationEngine.engine_call W) :=
  match ConversationEngine.get_agent env agent_id w with
  | (None, w) => (server_error_reply, w, [])
  | (Some None, w) => (server_error_reply, w, [])
  | (Some (Some agent), w) =>
      let '(result, w, calls) :=
        ConversationEngine.process_speech_input W net chain env audio_data
          agent_id w in
      if negb (ConversationEngine.success result) then
        ({| chat_success := false;
            chat_error_msg := Some (Engine_error (ConversationEngine.error result));
            chat_transcribed_text := "";
            chat_response_text := SORRY;
            chat_audio_url := None |}, w, calls)
      else
        ({| chat_success := true;
            chat_error_msg := None;
            chat_transcribed_text :=
              ConversationEngine.text_of
                (ConversationEngine.transcribed_text result);
            chat_response_text := ConversationEngine.response_text result;
            chat_audio_url :=
              if truthy (ConversationEngine.audio_response result)
              then Some ("/api/audio/"
                         ++ basename (ConversationEngine.text_of
                                        (ConversationEngine.audio_response result)))
              else None |}, w, calls)
  end.

End SpeechChat.

(** * Properties *)

(** ** The embedding on known values *)

Example md5_empty : MD5.hexdigest [] = "d41d8cd98f00b204e9800998ecf8427e".
Proof. vm_compute. reflexivity. Qed.

Example md5_abc : MD5.hexdigest (b "abc") = "900150983cd24fb0d6963f7d28e17f72".
Proof. vm_compute. reflexivity. Qed.

Example md5_1500_zeros :
  MD5.hexdigest (repeat x00 1500) = "09441e5fd94bf722af5b5bfc2676638f".
Proof. vm_compute. reflexivity. Qed.

Example mock_1500_zeros :
  _try_mock_recognition (repeat x00 1500) = Some "Thank you for your assistance.".
Proof. vm_compute. reflexivity. Qed.

Example replace_overlap : replace "aa" "b" "aaa" = "ba".
Proof. reflexivity. Qed.

Example replace_empty_old : replace "" "-" "ab" = "-a-b-".
Proof. reflexivity. Qed.

Example strip_both : strip (String (ascii_of_nat 9) " a b  ") = "a b".
Proof. reflexivity. Qed.

Example clean_scaffolding :
  _clean_and_validate_response "Assistant: We open at nine" "" ""
  = "We open at nine.".
Proof. reflexivity. Qed.

Example clean_keeps_short_documentation :
  _clean_and_validate_response "Documentation" "" "" = "Documentation.".
Proof. reflexivity. Qed.

(** ** The plausibility gate *)

Lemma validate_depends_on_length (x y : bytes) :
  len x = len y -> _validate_audio_data x = _validate_audio_data y.
Proof.
  intros E. unfold _validate_audio_data. rewrite E. reflexivity.
Qed.

(** The verdict in each of the five length ranges. *)
Lemma validate_by_length (audio_data : bytes) :
  let n := len audio_data in
  let v := _validate_audio_data audio_data in
  (n = 0 ->
   v_is_valid v = false
   /\ v_error v = Some "Empty audio data"
   /\ option_map lower (v_error v) = Some "empty audio data")
  /\ (1 <= n <= 43 ->
      v_is_valid v = false
      /\ v_error v = Some ("Audio too small (" ++ str_of_nat n
                           ++ " bytes) - likely no speech content")%string)
  /\ (44 <= n <= 999 ->
      v_is_valid v = true /\ v_likely_has_speech v = false
      /\ v_error v = Some ("Audio very small (" ++ str_of_nat n
                           ++ " bytes) - probably silence, noise, or recording issue")%string)
  /\ (1000 <= n <= 1999 ->
      v_is_valid v = true /\ v_likely_has_speech v = false
      /\ v_error v = Some ("Audio small (" ++ str_of_nat n
                           ++ " bytes) - may not contain enough speech")%string)
  /\ (2000 <= n ->
      v_is_valid v = true /\ v_likely_has_speech v = true /\ v_error v = None).
Proof.
  intros n v. subst v. unfold _validate_audio_data. fold n.
  destruct (Nat.eqb_spec n 0) as [E0 | N0];
    [ | destruct (Nat.ltb_spec n 44) as [L44 | G44];
        [ | destruct (Nat.ltb_spec n 1000) as [L1000 | G1000];
            [ | destruct (Nat.ltb_spec n 2000) as [L2000 | G2000] ] ] ];
    cbn [set_is_valid set_error set_recommendation set_likely_has_speech
         v_is_valid v_error v_likely_has_speech v_recommendation option_map];
    repeat split; intros; try lia; try reflexivity.
Qed.

(** C1: the gate is a function of the blob length alone and applies the
    thresholds 0, 44, 1000, 2000 in order: length 0 is invalid with the
    "Empty audio data" diagnostic; 1..43 is invalid, too small, likely no
    speech content; 44..999 is valid without likely speech, probably
    silence or noise; 1000..1999 is valid without likely speech, may not
    contain enough speech; 2000 and more is valid with likely speech. *)
Theorem gate_thresholds (audio_data : bytes) :
  let n := len audio_data in
  let v := _validate_audio_data audio_data in
  (forall other, len other = n -> _validate_audio_data other = v)
  /\ (n = 0 ->
      v_is_valid v = false
      /\ v_error v = Some "Empty audio data"
      /\ option_map lower (v_error v) = Some "empty audio data")
  /\ (1 <= n <= 43 ->
      v_is_valid v = false
      /\ v_error v = Some ("Audio too small (" ++ str_of_nat n
                           ++ " bytes) - likely no speech content")%string)
  /\ (44 <= n <= 999 ->
      v_is_valid v = true /\ v_likely_has_speech v = false
      /\ v_error v = Some ("Audio very small (" ++ str_of_nat n
                           ++ " bytes) - probably silence, noise, or recording issue")%string)
  /\ (1000 <= n <= 1999 ->
      v_is_valid v = true /\ v_likely_has_speech v = false
      /\ v_error v = Some ("Audio small (" ++ str_of_nat n
                           ++ " bytes) - may not contain enough speech")%string)
  /\ (2000 <= n ->
      v_is_valid v = true /\ v_likely_has_speech v = true /\ v_error v = None).
Proof.
  intros n v. split.
  - intros other E. apply validate_depends_on_length. exact E.
  - exact (validate_by_length audio_data).
Qed.

Lemma gate_thresholds_witness :
  let z k := _validate_audio_data (repeat x00 k) in
  v_is_valid (z 0) = false
  /\ v_is_valid (z 43) = false
  /\ (v_is_valid (z 44) = true /\ v_likely_has_speech (z 44) = false)
  /\ (v_is_valid (z 1999) = true /\ v_likely_has_speech (z 1999) = false)
  /\ (v_is_valid (z 2000) = true /\ v_likely_has_speech (z 2000) = true).
Proof.
  intros z.
  pose proof (gate_thresholds (repeat x00 0)) as (_ & H0 & _).
  pose proof (gate_thresholds (repeat x00 43)) as (_ & _ & H43 & _).
  pose proof (gate_thresholds (repeat x00 44)) as (_ & _ & _ & H44 & _).
  pose proof (gate_thresholds (repeat x00 1999)) as (_ & _ & _ & _ & H1999 & _).
  pose proof (gate_thresholds (repeat x00 2000)) as (_ & _ & _ & _ & _ & H2000).
  unfold len in *. rewrite repeat_length in *.
  split; [ apply H0; reflexivity | ].
  split; [ apply H43; lia | ].
  split; [ split; apply H44; lia | ].
  split; [ split; apply H1999; lia | ].
  split; apply H2000; lia.
Defined.

(** C6 as stated fails: fifty zero bytes are not rejected by the gate, and
    its message does not mention "too small". *)
Lemma fifty_zero_bytes_not_rejected :
  ~ (v_is_valid (_validate_audio_data (repeat x00 50)) = false
     /\ option_map (str_in "too small")
          (v_error (_validate_audio_data (repeat x00 50))) = Some true).
Proof.
  intros [H _]. vm_compute in H. discriminate H.
Qed.

(** C6, amended: for the blob of fifty zero bytes the gate answers valid
    with [likely_has_speech] false and the "very small" message (the
    "too small" rejection stops below 44 bytes), and [speech_to_text]
    returns [None] without a single call: the chain is not invoked. *)
Theorem fifty_zero_bytes_pass_gate_skip_chain
  (W : Type) (self : collaborators W) (w : W) :
  v_is_valid (_validate_audio_data (repeat x00 50)) = true
  /\ v_likely_has_speech (_validate_audio_data (repeat x00 50)) = false
  /\ v_error (_validate_audio_data (repeat x00 50))
     = Some "Audio very small (50 bytes) - probably silence, noise, or recording issue"
  /\ option_map (str_in "too small")
       (v_error (_validate_audio_data (repeat x00 50))) = Some false
  /\ speech_to_text W self (repeat x00 50) (w, []) = (None, (w, [])).
Proof.
  repeat split.
Qed.

(** C10: a blob of 44 to 499 bytes passes the gate, and [speech_to_text]
    returns [None] at once: the world is untouched and no conversion,
    recognition, alternative extraction or mock call is made. *)
Theorem short_blob_returns_none
  (W : Type) (self : collaborators W) (audio_data : bytes)
  (w : W) (log : list call) :
  44 <= len audio_data <= 499 ->
  v_is_valid (_validate_audio_data audio_data) = true
  /\ speech_to_text W self audio_data (w, log) = (None, (w, log)).
Proof.
  intros H.
  destruct (validate_by_length audio_data) as (_ & _ & Hv & _).
  destruct Hv as (Hvalid & _); [ lia | ].
  split; [ exact Hvalid | ].
  unfold speech_to_text. rewrite Hvalid. cbn [negb].
  destruct (Nat.ltb_spec (len audio_data) 500) as [_ | G]; [ reflexivity | lia ].
Qed.

Lemma short_blob_returns_none_witness :
  v_is_valid (_validate_audio_data (repeat xff 499)) = true
  /\ speech_to_text unit
       {| _convert_webm_to_wav := fun d w => (Some d, w);
          _convert_webm_enhanced := fun d w => (Some d, w);
          _convert_container_format_to_wav := fun d _ w => (Some d, w);
          _try_direct_webm_recognition := fun _ w => (Some "hello", w);
          _try_speech_recognition := fun _ _ w => (Some "hello", w);
          _try_alternative_processing := fun _ w => (Some "hello", w) |}
       (repeat xff 499) (tt, []) = (None, (tt, [])).
Proof.
  apply short_blob_returns_none.
  unfold len. rewrite repeat_length. lia.
Defined.

(** ** The format sniffer *)

(** C4 as stated fails: the four bytes of the EBML magic alone are
    classified unknown, without conversion. *)
Lemma ebml_magic_alone_is_unknown :
  firstn 4 EBML_MAGIC = EBML_MAGIC
  /\ f_format (_analyze_audio_format EBML_MAGIC) = "unknown"
  /\ f_needs_conversion (_analyze_audio_format EBML_MAGIC) = false.
Proof.
  repeat split.
Qed.

(** C4, amended: every blob of at least 12 bytes whose first four bytes are
    the EBML magic 0x1A45DFA3 is classified webm with conversion needed; a
    blob shorter than 12 bytes is classified unknown, without conversion,
    whatever its first bytes. *)
Theorem ebml_prefix_is_webm (audio_data : bytes) :
  (12 <= len audio_data ->
   firstn 4 audio_data = EBML_MAGIC ->
   f_format (_analyze_audio_format audio_data) = "webm"
   /\ f_needs_conversion (_analyze_audio_format audio_data) = true)
  /\ (len audio_data < 12 ->
      f_format (_analyze_audio_format audio_data) = "unknown"
      /\ f_needs_conversion (_analyze_audio_format audio_data) = false).
Proof.
  unfold _analyze_audio_format.
  destruct (Nat.ltb_spec (len audio_data) 12) as [L | G].
  - split; [ intros Hlen; lia | intros _; split; reflexivity ].
  - split; [ | intros Hlen; lia ].
    intros _ Hmagic.
    change (slice 0 4 audio_data) with (firstn 4 audio_data).
    rewrite Hmagic.
    split; reflexivity.
Qed.

Lemma ebml_prefix_is_webm_witness :
  (f_format (_analyze_audio_format (EBML_MAGIC ++ repeat x00 8)%list) = "webm"
   /\ f_needs_conversion (_analyze_audio_format (EBML_MAGIC ++ repeat x00 8)%list)
      = true)
  /\ (f_format (_analyze_audio_format (EBML_MAGIC ++ repeat x00 7)%list) = "unknown"
      /\ f_needs_conversion (_analyze_audio_format (EBML_MAGIC ++ repeat x00 7)%list)
         = false).
Proof.
  split.
  - apply (proj1 (ebml_prefix_is_webm (EBML_MAGIC ++ repeat x00 8)%list)).
    + vm_compute. lia.
    + reflexivity.
  - apply (proj2 (ebml_prefix_is_webm (EBML_MAGIC ++ repeat x00 7)%list)).
    vm_compute. lia.
Defined.

(** ** The recognition chain: what reaches the recogniser *)

Create HintDb chain.

Section ChainInvariant.

Variable W : Type.
Variable self : collaborators W.

Lemma recognised_ok_snoc (log : list call) (c : call) :
  recognised_ok log -> harmless c -> recognised_ok (log ++ [c]).
Proof.
  intros Hlog Hc method_name audio Hin.
  apply in_app_or in Hin. destruct Hin as [Hin | [Hin | []]].
  - exact (Hlog _ _ Hin).
  - exact (Hc _ _ Hin).
Qed.

Lemma keeps_ret {A} (a : A) : keeps W (ret a).
Proof. intros w log H. exact H. Qed.

Lemma keeps_bind {A B} (m : M W A) (f : A -> M W B) :
  keeps W m -> (forall a, keeps W (f a)) -> keeps W (bind m f).
Proof.
  intros Hm Hf w log H. unfold bind.
  specialize (Hm w log H).
  destruct (m (w, log)) as [a [w' log']]. apply Hf. exact Hm.
Qed.

Lemma keeps_invoke {A} (c : call) (f : W -> A * W) :
  harmless c -> keeps W (invoke c f).
Proof.
  intros Hc w log H. unfold invoke.
  destruct (f w) as [a w']. cbn [snd].
  apply recognised_ok_snoc; assumption.
Qed.

Lemma keeps_compute {A} (c : call) (a : A) :
  harmless c -> keeps W (compute c a).
Proof.
  intros Hc w log H. unfold compute. cbn [snd].
  apply recognised_ok_snoc; assumption.
Qed.

Lemma usable_long (audio : bytes) : usable (Some audio) = true -> 44 < len audio.
Proof.
  unfold usable. intros H. apply andb_prop in H. destruct H as [_ H].
  apply Nat.ltb_lt. exact H.
Qed.

#[local] Hint Resolve keeps_ret : chain.

Ltac not_recognition :=
  let H := fresh in intros ? ? H; discriminate H.

Lemma keeps_try_methods (methods : list (string * method_func W)) :
  Forall keeps_method methods -> keeps W (try_methods W self methods).
Proof.
  induction 1 as [ | [method_name f] rest Hf _ IH ]; cbn [try_methods].
  - apply keeps_ret.
  - unfold keeps_method in Hf. cbn [snd] in Hf.
    destruct (startswith "direct_" method_name), f as [body | body].
    + apply keeps_bind; [ exact Hf | ].
      intros result. destruct (truthy result); auto with chain.
    + apply keeps_bind; [ exact Hf | ]. intros _. exact IH.
    + exact IH.
    + apply keeps_bind; [ exact Hf | ].
      intros [audio | ]; [ | exact IH ].
      destruct (usable (Some audio)) eqn:Hu; [ | exact IH ].
      apply keeps_bind.
      * apply keeps_invoke. intros n a E. injection E as _ <-.
        apply usable_long. exact Hu.
      * intros result. destruct (truthy result); auto with chain.
Qed.

Lemma keeps_recognition_methods (audio_data : bytes) (fi : format_info) :
  Forall keeps_method (recognition_methods W self audio_data fi).
Proof.
  unfold recognition_methods. apply Forall_app. split.
  - destruct (f_format fi =? "webm")%string;
      [ | destruct (f_needs_conversion fi
                    && ((f_format fi =? "mp4") || (f_format fi =? "ogg"))%string);
          [ | destruct (f_is_valid fi && (f_format fi =? "wav")%string) ] ];
      repeat constructor; unfold keeps_method; cbn [snd];
      try apply keeps_ret; apply keeps_invoke; not_recognition.
  - destruct (1000 <? len audio_data); repeat constructor.
    unfold keeps_method; cbn [snd]. apply keeps_compute. not_recognition.
Qed.

Lemma keeps_alternatives_then_mock (audio_data : bytes) :
  keeps W (alternatives_then_mock W self audio_data).
Proof.
  unfold alternatives_then_mock.
  apply keeps_bind; [ apply keeps_invoke; not_recognition | ].
  intros alt_result. destruct (truthy alt_result); [ apply keeps_ret | ].
  apply keeps_bind; [ apply keeps_compute; not_recognition | ].
  intros mock_result. destruct (truthy mock_result); apply keeps_ret.
Qed.

Lemma keeps_quick_path (audio_data : bytes) : keeps W (quick_path W self audio_data).
Proof.
  unfold quick_path. apply keeps_bind.
  - destruct (f_format (_analyze_audio_format audio_data) =? "webm")%string;
      [ | apply keeps_ret ].
    apply keeps_bind; [ apply keeps_invoke; not_recognition | ].
    intros [audio | ]; [ | apply keeps_ret ].
    destruct (usable (Some audio)) eqn:Hu; [ | apply keeps_ret ].
    apply keeps_bind.
    + apply keeps_invoke. intros n a E. injection E as _ <-.
      apply usable_long. exact Hu.
    + intros result. destruct (truthy result); apply keeps_ret.
  - intros [result | ]; [ apply keeps_ret | apply keeps_alternatives_then_mock ].
Qed.

Lemma keeps_full_path (audio_data : bytes) : keeps W (full_path W self audio_data).
Proof.
  unfold full_path. apply keeps_bind.
  - apply keeps_try_methods. apply keeps_recognition_methods.
  - intros [text | ]; [ apply keeps_ret | apply keeps_alternatives_then_mock ].
Qed.

Lemma keeps_speech_to_text (audio_data : bytes) :
  keeps W (speech_to_text W self audio_data).
Proof.
  unfold speech_to_text.
  destruct (negb (v_is_valid (_validate_audio_data audio_data)));
    [ apply keeps_ret | ].
  destruct (len audio_data <? 500); [ apply keeps_ret | ].
  destruct (negb (v_likely_has_speech (_validate_audio_data audio_data)));
    [ destruct (len audio_data <? 2000) | ];
    auto using keeps_quick_path, keeps_full_path.
Qed.

End ChainInvariant.

(** C3: whatever the collaborators answer, every audio that
    [speech_to_text] hands to [_try_speech_recognition] is at least 44
    bytes long; a converted output under 44 bytes never reaches it. *)
Theorem recognition_only_on_44_bytes_or_more
  (W : Type) (self : collaborators W) (audio_data : bytes) (w : W)
  (method_name : string) (audio : bytes) :
  In (Call_try_speech_recognition method_name audio)
     (snd (snd (speech_to_text W self audio_data (w, [])))) ->
  44 <= len audio.
Proof.
  intros Hin.
  apply Nat.lt_le_incl.
  apply (keeps_speech_to_text W self audio_data w []) with (method_name := method_name).
  - intros n a [].
  - exact Hin.
Qed.

Lemma recognition_only_on_44_bytes_or_more_witness : 44 <= len wav_2000.
Proof.
  apply (recognition_only_on_44_bytes_or_more unit
           (stand_in None (fun _ => Some "hello")) wav_2000 tt
           "original_wav" wav_2000).
  vm_compute. left. reflexivity.
Defined.

(** A conversion that yields 43 bytes, and one that yields exactly 44: the
    converted output never reaches the recogniser; the only recognition
    call is the one of the raw-PCM fallback, on its 2044-byte WAV. *)
Example short_conversion_not_recognised :
  forall k, k = 43 \/ k = 44 ->
  snd (snd (speech_to_text unit
              (stand_in (Some (repeat x00 k)) (fun _ => None))
              webm_2000 (tt, [])))
  = [ Call_try_direct_webm_recognition webm_2000;
      Call_convert_webm_enhanced webm_2000;
      Call_convert_webm_to_wav webm_2000;
      Call_try_raw_pcm_variants webm_2000;
      Call_try_speech_recognition "raw_pcm_fallback"
        (_create_wav_from_raw_pcm webm_2000 16000 1 2);
      Call_try_alternative_processing webm_2000;
      Call_try_mock_recognition webm_2000 ].
Proof.
  intros k [-> | ->]; vm_compute; reflexivity.
Qed.

(** ** The raw-PCM fallback *)

Lemma create_wav_at_least (d : bytes) (r c w : N) :
  len d <= len (_create_wav_from_raw_pcm d r c w).
Proof.
  unfold _create_wav_from_raw_pcm.
  destruct (wav_header _ r c w); unfold len; rewrite ?length_app; lia.
Qed.

Lemma len_trimmed (a : bytes) :
  len (firstn (len a - len a mod 2) a) = len a - len a mod 2.
Proof.
  unfold len. rewrite length_firstn. lia.
Qed.

Lemma raw_pcm_variant_long (a : bytes) (r : N) :
  200 <= len a - len a mod 2 ->
  raw_pcm_variant a {| rate := r; channels := 1; width := 2 |}
  = Some (_create_wav_from_raw_pcm (firstn (len a - len a mod 2) a) r 1 2).
Proof.
  intros Hlen. unfold raw_pcm_variant.
  cbn [rate channels width]. change (N.to_nat (1 * 2)) with 2.
  cbn [Nat.eqb].
  assert (Ht : (if negb (len a mod 2 =? 0)
                then slice 0 (len a - len a mod 2) a else a)
               = firstn (len a - len a mod 2) a).
  { destruct (Nat.eqb_spec (len a mod 2) 0) as [E | _]; cbn [negb].
    - rewrite E, Nat.sub_0_r. unfold len. rewrite firstn_all. reflexivity.
    - unfold slice. rewrite Nat.sub_0_r. reflexivity. }
  rewrite Ht.
  pose proof (len_trimmed a) as Hl.
  pose proof (create_wav_at_least (firstn (len a - len a mod 2) a) r 1 2) as Hw.
  destruct (Nat.ltb_spec (len (firstn (len a - len a mod 2) a)) (2 * 100))
    as [L | _]; [ lia | ].
  unfold usable.
  destruct (Nat.eqb_spec
              (len (_create_wav_from_raw_pcm (firstn (len a - len a mod 2) a) r 1 2)) 0)
    as [E | _]; [ lia | ].
  destruct (Nat.ltb_spec 44
              (len (_create_wav_from_raw_pcm (firstn (len a - len a mod 2) a) r 1 2)))
    as [_ | G]; [ reflexivity | lia ].
Qed.

Lemma raw_pcm_variant_usable (a : bytes) (c : pcm_config) (wav : bytes) :
  raw_pcm_variant a c = Some wav -> 44 < len wav.
Proof.
  unfold raw_pcm_variant.
  destruct (N.to_nat (channels c * width c) =? 0); [ discriminate | ].
  match goal with |- context [len ?t <? ?k] => destruct (len t <? k) end;
    [ discriminate | ].
  match goal with |- context [usable (Some ?x)] =>
    destruct (usable (Some x)) eqn:Hu end; [ | discriminate ].
  intros E. injection E as <-. apply usable_long. exact Hu.
Qed.

Lemma first_variant_is_first (a : bytes) (cs : list pcm_config) (wav : bytes) :
  first_variant a cs = Some wav ->
  exists before config after,
    cs = (before ++ config :: after)%list
    /\ Forall (fun c => raw_pcm_variant a c = None) before
    /\ raw_pcm_variant a config = Some wav.
Proof.
  induction cs as [ | c cs IH ]; cbn [first_variant]; [ discriminate | ].
  destruct (raw_pcm_variant a c) as [wav' | ] eqn:Hc.
  - intros E. injection E as ->.
    exists [], c, cs. repeat split; [ constructor | exact Hc ].
  - intros H. destruct (IH H) as (before & config & after & -> & Hb & Hv).
    exists (c :: before), config, after.
    repeat split; [ constructor; assumption | exact Hv ].
Qed.

Lemma raw_pcm_fallback_listed
  (W : Type) (self : collaborators W) (audio_data : bytes) (fi : format_info) :
  In "raw_pcm_fallback" (map fst (recognition_methods W self audio_data fi))
  <-> 1000 < len audio_data.
Proof.
  unfold recognition_methods. rewrite map_app, in_app_iff.
  assert (Hfirst :
    ~ In "raw_pcm_fallback"
        (map fst
           (if (f_format fi =? "webm")%string then
              [ ("direct_webm",
                 Coroutine W (invoke (Call_try_direct_webm_recognition audio_data)
                                (_try_direct_webm_recognition W self audio_data)));
                ("webm_enhanced",
                 Plain W (invoke (Call_convert_webm_enhanced audio_data)
                            (_convert_webm_enhanced W self audio_data)));
                ("webm_standard",
                 Plain W (invoke (Call_convert_webm_to_wav audio_data)
                            (_convert_webm_to_wav W self audio_data))) ]
            else if f_needs_conversion fi
                    && ((f_format fi =? "mp4") || (f_format fi =? "ogg"))%string
            then
              [ ((f_format fi ++ "_converted")%string,
                 Plain W (invoke (Call_convert_container_format_to_wav audio_data
                                    (f_format fi))
                            (_convert_container_format_to_wav W self audio_data
                               (f_format fi)))) ]
            else if f_is_valid fi && (f_format fi =? "wav")%string
            then [ ("original_wav", Plain W (ret (Some audio_data))) ]
            else []))).
  { destruct (f_format fi =? "webm")%string.
    - cbn. intros [H | [H | [H | []]]]; discriminate H.
    - destruct (f_needs_conversion fi); cbn [andb].
      + destruct (String.eqb_spec (f_format fi) "mp4") as [-> | _];
          [ cbn; intros [H | []]; discriminate H | ].
        destruct (String.eqb_spec (f_format fi) "ogg") as [-> | _];
          [ cbn; intros [H | []]; discriminate H | ].
        cbn [orb]. destruct (f_is_valid fi && (f_format fi =? "wav")%string).
        * cbn. intros [H | []]; discriminate H.
        * intros [].
      + destruct (f_is_valid fi && (f_format fi =? "wav")%string).
        * cbn. intros [H | []]; discriminate H.
        * intros []. }
  destruct (Nat.ltb_spec 1000 (len audio_data)) as [L | G].
  - split; [ intros _; exact L | intros _; right; left; reflexivity ].
  - split; [ intros [H | []]; contradiction | lia ].
Qed.

(** C5 as stated fails: on 2000 signature-less bytes, with a recogniser
    that accepts the 44100 Hz reading only, the fallback worded by the
    specification would keep the 44100 Hz WAV; the code keeps the 16000 Hz
    WAV, hands that one alone to the recogniser, and ends on the mock
    transcript. *)
Lemma raw_pcm_fallback_never_reaches_second_rate :
  spec_raw_pcm_fallback accepts_44100 raw_2000
  = Some (_create_wav_from_raw_pcm raw_2000 44100 1 2)
  /\ _try_raw_pcm_variants raw_2000
     = Some (_create_wav_from_raw_pcm raw_2000 16000 1 2)
  /\ _try_raw_pcm_variants raw_2000 <> spec_raw_pcm_fallback accepts_44100 raw_2000
  /\ hears_44100 (_create_wav_from_raw_pcm raw_2000 44100 1 2) = Some "hello"
  /\ speech_to_text unit (stand_in None hears_44100) raw_2000 (tt, [])
     = (Some "What are your business hours?",
        (tt, [ Call_try_raw_pcm_variants raw_2000;
               Call_try_speech_recognition "raw_pcm_fallback"
                 (_create_wav_from_raw_pcm raw_2000 16000 1 2);
               Call_try_alternative_processing raw_2000;
               Call_try_mock_recognition raw_2000 ])).
Proof.
  split; [ vm_compute; reflexivity | ].
  split; [ vm_compute; reflexivity | ].
  split; [ intros H; vm_compute in H; discriminate H | ].
  split; vm_compute; reflexivity.
Qed.

(** ** The mock transcript *)

Lemma bytes_eqb_eq (x y : bytes) : bytes_eqb x y = true <-> x = y.
Proof.
  revert y. induction x as [ | a x IH ]; intros [ | c y ]; cbn [bytes_eqb];
    try (split; [ discriminate | discriminate ]); [ tauto | ].
  rewrite andb_true_iff, IH. split.
  - intros [Hb ->]. apply Byte.byte_dec_bl in Hb. subst. reflexivity.
  - intros E. injection E as -> ->. split; [ apply Byte.byte_dec_lb | ]; reflexivity.
Qed.

Lemma bytes_eqb_neq (x y : bytes) : x <> y -> bytes_eqb x y = false.
Proof.
  intros H. destruct (bytes_eqb x y) eqn:E; [ | reflexivity ].
  apply bytes_eqb_eq in E. contradiction.
Qed.

Lemma no_signature_unknown (a : bytes) :
  ~ has_signature a -> f_format (_analyze_audio_format a) = "unknown".
Proof.
  intros H. unfold has_signature in H. unfold _analyze_audio_format.
  destruct (len a <? 12); [ reflexivity | ].
  change (slice 0 4 a) with (firstn 4 a).
  change (slice 0 20 a) with (firstn 20 a).
  destruct (bytes_eqb (firstn 4 a) (b "RIFF")) eqn:E1;
    [ destruct (bytes_eqb (slice 8 12 a) (b "WAVE")) eqn:E2 | ]; cbn [andb].
  - apply bytes_eqb_eq in E1, E2. tauto.
  - destruct (bytes_eqb (firstn 4 a) EBML_MAGIC) eqn:E3.
    + apply bytes_eqb_eq in E1, E3. rewrite E1 in E3.
      vm_compute in E3. discriminate E3.
    + apply bytes_eqb_eq in E1. rewrite E1 in *.
      change (bytes_eqb (b "RIFF") (b "OggS")) with false.
      destruct (bytes_in (b "ftyp") (firstn 20 a)); [ tauto | reflexivity ].
  - destruct (bytes_eqb (firstn 4 a) EBML_MAGIC) eqn:E3;
      [ apply bytes_eqb_eq in E3; tauto | ].
    destruct (bytes_in (b "ftyp") (firstn 20 a)); [ tauto | ].
    destruct (bytes_eqb (firstn 4 a) (b "OggS")) eqn:E4;
      [ apply bytes_eqb_eq in E4; tauto | reflexivity ].
Qed.

Lemma int_of_hex_prefix (x : byte) (l : bytes) :
  int_base16 (substring 0 2 (MD5.hex (x :: l))) = Some (Byte.to_N x).
Proof.
  cbn [MD5.hex]. unfold MD5.hex_of_byte. cbn [append substring].
  replace (substring 0 0 (MD5.hex l)) with EmptyString
    by (destruct (MD5.hex l); reflexivity).
  destruct x; vm_compute; reflexivity.
Qed.

Lemma digest_first_byte (a : bytes) :
  exists l, MD5.digest a = hd x00 (MD5.digest a) :: l.
Proof.
  unfold MD5.digest.
  destruct (MD5.blocks _ _ _) as [[[A B] C] D].
  cbn [le_bytes app hd]. eexists. reflexivity.
Qed.

Lemma nth_error_nth_large (i : nat) :
  i < 5 -> nth_error mock_responses_large i = Some (nth i mock_responses_large "").
Proof.
  intros H. do 5 (destruct i as [ | i ]; [ reflexivity | ]). lia.
Qed.

(** Above 1023 bytes the mock transcript is the phrase of the long list
    picked by the first byte of the MD5 digest, modulo 5. *)
Lemma mock_large_by_hash (a : bytes) :
  1024 <= len a ->
  _try_mock_recognition a
  = Some (nth (N.to_nat (Byte.to_N (hd x00 (MD5.digest a))) mod 5)
            mock_responses_large "").
Proof.
  intros H. unfold _try_mock_recognition.
  destruct (Nat.ltb_spec (len a) 200); [ lia | ].
  destruct (Nat.ltb_spec (len a) 1024); [ lia | ].
  unfold MD5.hexdigest.
  destruct (digest_first_byte a) as [l ->].
  rewrite int_of_hex_prefix. cbn [obind hd].
  change (List.length mock_responses_large) with 5.
  apply nth_error_nth_large. apply Nat.mod_upper_bound. discriminate.
Qed.

Lemma large_phrase_truthy (i : nat) :
  i < 5 -> truthy (Some (nth i mock_responses_large "")) = true
           /\ In (nth i mock_responses_large "") mock_responses_large.
Proof.
  intros H. do 5 (destruct i as [ | i ]; [ split; [ reflexivity | cbn; tauto ] | ]).
  lia.
Qed.

(** C7: for a blob of 1500 bytes without a container signature the format
    is unknown and the gate answers valid with [likely_has_speech] false;
    when the one real attempt of that path (alternative extraction) yields
    nothing, [speech_to_text] returns the mock transcript: a phrase of the
    defined list, picked by the first byte of the MD5 digest of the blob,
    so that it depends on the content of the blob alone. *)
Theorem noise_1500_falls_to_mock
  (W : Type) (self : collaborators W) (audio_data : bytes) (w : W) :
  len audio_data = 1500 ->
  ~ has_signature audio_data ->
  truthy (fst (_try_alternative_processing W self audio_data w)) = false ->
  let phrase :=
    nth (N.to_nat (Byte.to_N (hd x00 (MD5.digest audio_data))) mod 5)
      mock_responses_large "" in
  f_format (_analyze_audio_format audio_data) = "unknown"
  /\ v_is_valid (_validate_audio_data audio_data) = true
  /\ v_likely_has_speech (_validate_audio_data audio_data) = false
  /\ In phrase mock_responses_large
  /\ _try_mock_recognition audio_data = Some phrase
  /\ speech_to_text W self audio_data (w, [])
     = (Some phrase,
        (snd (_try_alternative_processing W self audio_data w),
         [ Call_try_alternative_processing audio_data;
           Call_try_mock_recognition audio_data ])).
Proof.
  intros Hlen Hsig Halt phrase.
  pose proof (no_signature_unknown _ Hsig) as Hfmt.
  destruct (validate_by_length audio_data) as (_ & _ & _ & Hgate & _).
  destruct Hgate as (Hvalid & Hlikely & _); [ lia | ].
  assert (Hi : N.to_nat (Byte.to_N (hd x00 (MD5.digest audio_data))) mod 5 < 5)
    by (apply Nat.mod_upper_bound; discriminate).
  destruct (large_phrase_truthy _ Hi) as (Htruthy & Hin).
  assert (Hmock : _try_mock_recognition audio_data = Some phrase)
    by (apply mock_large_by_hash; lia).
  repeat (split; [ assumption | ]).
  unfold speech_to_text. rewrite Hvalid, Hlikely, Hlen. cbn [negb].
  change (1500 <? 500) with false. change (1500 <? 2000) with true.
  cbv beta iota.
  unfold quick_path. rewrite Hfmt.
  change ("unknown" =? "webm")%string with false. cbv beta iota.
  unfold bind at 1. unfold ret at 1.
  unfold alternatives_then_mock, bind, invoke, compute.
  destruct (_try_alternative_processing W self audio_data w) as [alt w'].
  cbn [fst snd] in *. rewrite Halt, Hmock.
  fold phrase in Htruthy. rewrite Htruthy. reflexivity.
Qed.

Lemma noise_1500_falls_to_mock_witness :
  f_format (_analyze_audio_format noise_1500) = "unknown"
  /\ speech_to_text unit (stand_in None (fun _ => None)) noise_1500 (tt, [])
     = (_try_mock_recognition noise_1500,
        (tt, [ Call_try_alternative_processing noise_1500;
               Call_try_mock_recognition noise_1500 ])).
Proof.
  assert (Hlen : len noise_1500 = 1500) by (vm_compute; reflexivity).
  assert (Hsig : ~ has_signature noise_1500).
  { intros [[H _] | [H | [H | H]]]; vm_compute in H; discriminate H. }
  destruct (noise_1500_falls_to_mock unit (stand_in None (fun _ => None))
              noise_1500 tt Hlen Hsig eq_refl)
    as (Hfmt & _ & _ & _ & Hmock & Hrun).
  split; [ exact Hfmt | ].
  rewrite Hmock. exact Hrun.
Defined.

(** ** Post-processing of the generated text *)

Lemma clean_unfold (response kc um : string) :
  _clean_and_validate_response response kc um
  = let cleaned := strip_scaffolding response in
    if str_in "I'm here to provide support based on our documentation" cleaned
    then CANONICAL_FALLBACK
    else if (String.length cleaned <? 15)
            && negb (str_in "documentation" (lower cleaned))
    then CANONICAL_FALLBACK
    else if negb (endswith_any TERMINATORS cleaned)
    then (cleaned ++ ".")%string
    else cleaned.
Proof. reflexivity. Qed.

Lemma length_append (s t : string) :
  String.length (s ++ t) = String.length s + String.length t.
Proof.
  induction s as [ | c s IH ]; cbn [append String.length]; [ | rewrite IH ];
    reflexivity.
Qed.

Lemma substring_whole (s : string) : substring 0 (String.length s) s = s.
Proof.
  induction s as [ | c s IH ]; cbn [substring String.length]; [ | rewrite IH ];
    reflexivity.
Qed.

Lemma substring_after (s t : string) :
  substring (String.length s) (String.length t) (s ++ t) = t.
Proof.
  induction s as [ | c s IH ]; cbn [append String.length].
  - apply substring_whole.
  - cbn [substring]. exact IH.
Qed.

Lemma endswith_append (s suffix : string) : endswith suffix (s ++ suffix) = true.
Proof.
  unfold endswith. rewrite length_append.
  replace (String.length s + String.length suffix - String.length suffix)
    with (String.length s) by lia.
  rewrite substring_after, String.eqb_refl, andb_true_r.
  apply Nat.leb_le. lia.
Qed.





(** ** The backend pin *)

Lemma pin_step_b_sound (p : option bool) (value : bool) :
  pin_step_b p value = true -> pin_step p (Some value).
Proof.
  destruct p as [[ | ] | ], value; cbn; intros H;
    try discriminate H; constructor.
Qed.

Lemma replay_app (p : option bool) (t1 t2 : list router_event) :
  replay p (t1 ++ t2)
  = match replay p t1 with
    | Some q => replay q t2
    | None => None
    end.
Proof.
  revert p. induction t1 as [ | e t1 IH ]; intros p; [ reflexivity | ].
  destruct e; cbn [app replay].
  - destruct p; [ reflexivity | apply IH ].
  - destruct p as [[ | ] | ]; try reflexivity. apply IH.
  - destruct p as [[ | ] | ]; try reflexivity. apply IH.
  - destruct (pin_step_b p value); [ apply IH | reflexivity ].
Qed.

Lemma replay_permitted (p q : option bool) (t1 t2 : list router_event)
  (e : router_event) :
  replay p (t1 ++ e :: t2) = Some q ->
  exists p', replay p t1 = Some p' /\ permitted p' e.
Proof.
  rewrite replay_app. destruct (replay p t1) as [p' | ]; [ | discriminate ].
  intros H. exists p'. split; [ reflexivity | ].
  destruct e; cbn [replay] in H; cbn [permitted].
  - destruct p'; [ discriminate H | reflexivity ].
  - destruct p' as [[ | ] | ]; try discriminate H. reflexivity.
  - destruct p' as [[ | ] | ]; try discriminate H. reflexivity.
  - destruct (pin_step_b p' value) eqn:E; [ | discriminate H ].
    apply pin_step_b_sound. exact E.
Qed.

Lemma probes_app (t1 t2 : list router_event) :
  probes (t1 ++ t2) = probes t1 + probes t2.
Proof.
  unfold probes. rewrite filter_app, length_app. reflexivity.
Qed.

Section RouterInvariant.

Variable W : Type.
Variable net : backends W.

Lemma gemini_effect (persona : agent_persona) (um kc : string) (self : service W) :
  use_ollama (snd (_generate_gemini_response W net persona um kc self))
  = use_ollama self
  /\ trace (snd (_generate_gemini_response W net persona um kc self))
     = (trace self ++ [CallGemini])%list.
Proof.
  unfold _generate_gemini_response. cbn [emit world].
  destruct (generate_content W net kc um (world self)) as [[ | text] w];
    split; reflexivity.
Qed.

(** The three ways [_generate_ollama_response] ends when the pin is local:
    the prompt cannot be built; the local backend answers; the local
    backend fails and the method demotes and asks the remote one. *)
Lemma ollama_effect (persona : agent_persona) (um kc : string) (self : service W) :
  let r := _generate_ollama_response W net persona um kc self in
  (fst r = inl tt /\ snd r = self)
  \/ (exists text, fst r = inr text
      /\ use_ollama (snd r) = use_ollama self
      /\ trace (snd r) = (trace self ++ [PostOllama])%list)
  \/ (exists text, fst r = inr text
      /\ use_ollama (snd r) = Some false
      /\ trace (snd r)
         = (trace self ++ [PostOllama; SetUseOllama false; CallGemini])%list).
Proof.
  unfold _generate_ollama_response.
  assert (Hfall : forall self0 : service W,
    exists text,
      fst (let '(text, self2) :=
             _generate_gemini_response W net persona um kc
               (assign_use_ollama W false self0) in
           (@inr unit string text, self2)) = inr text
      /\ use_ollama
           (snd (let '(text, self2) :=
                   _generate_gemini_response W net persona um kc
                     (assign_use_ollama W false self0) in
                 (@inr unit string text, self2))) = Some false
      /\ trace
           (snd (let '(text, self2) :=
                   _generate_gemini_response W net persona um kc
                     (assign_use_ollama W false self0) in
                 (@inr unit string text, self2)))
         = (trace self0 ++ [SetUseOllama false; CallGemini])%list).
  { intros self0.
    pose proof (gemini_effect persona um kc (assign_use_ollama W false self0))
      as [Hu Ht].
    destruct (_generate_gemini_response W net persona um kc
                (assign_use_ollama W false self0)) as [text self2].
    cbn [fst snd] in *. exists text.
    repeat split; [ exact Hu | ].
    rewrite Ht. cbn [assign_use_ollama trace]. rewrite <- app_assoc. reflexivity. }
  destruct (persona_goal persona) as [role | ]; [ | left; split; reflexivity ].
  right. cbv zeta. cbn [emit world].
  destruct (post_api_generate W net role kc um (world self)) as [reply w].
  destruct reply as [ | status_code response ].
  - right.
    destruct (Hfall (set_world W w (emit W PostOllama self)))
      as (text & Hf & Hu & Ht).
    exists text. split; [ exact Hf | ]. split; [ exact Hu | ].
    etransitivity; [ exact Ht | ].
    cbn [set_world emit trace]. rewrite <- app_assoc. reflexivity.
  - destruct (status_code =? 200).
    + left. eexists. repeat split.
    + right.
      destruct (Hfall (set_world W w (emit W PostOllama self)))
        as (text & Hf & Hu & Ht).
      exists text. split; [ exact Hf | ]. split; [ exact Hu | ].
      etransitivity; [ exact Ht | ].
      cbn [set_world emit trace]. rewrite <- app_assoc. reflexivity.
Qed.

Lemma generate_response_halves (persona : agent_persona) (um kc : string)
  (self : service W) :
  generate_response W net persona um kc self
  = dispatch W net persona um kc (probe_once W net self).
Proof. reflexivity. Qed.

Lemma dispatch_effect (persona : agent_persona) (um kc : string)
  (self : service W) (value : bool) :
  use_ollama self = Some value ->
  exists t,
    trace (snd (dispatch W net persona um kc self)) = (trace self ++ t)%list
    /\ replay (Some value) t = Some (use_ollama (snd (dispatch W net persona um kc self)))
    /\ use_ollama (snd (dispatch W net persona um kc self)) <> None
    /\ probes t = 0
    /\ (value = false -> t = [CallGemini]).
Proof.
  intros Hpin. unfold dispatch. rewrite Hpin. destruct value.
  - pose proof (ollama_effect persona um kc self) as H. cbv zeta in H.
    destruct (_generate_ollama_response W net persona um kc self) as [res self1].
    cbn [fst snd] in H.
    destruct H as [[-> ->] | [(text & -> & Hu & Ht) | (text & -> & Hu & Ht)]].
    + pose proof (gemini_effect persona um kc (assign_use_ollama W false self))
        as [Hu Ht].
      exists [SetUseOllama false; CallGemini].
      rewrite Hu, Ht. cbn [assign_use_ollama trace use_ollama].
      rewrite <- app_assoc.
      repeat split; try reflexivity; discriminate.
    + exists [PostOllama]. cbn [snd]. rewrite Hu, Ht, Hpin.
      repeat split; try reflexivity; discriminate.
    + exists [PostOllama; SetUseOllama false; CallGemini]. cbn [snd].
      rewrite Hu, Ht.
      repeat split; try reflexivity; discriminate.
  - pose proof (gemini_effect persona um kc self) as [Hu Ht].
    exists [CallGemini]. rewrite Hu, Ht, Hpin.
    repeat split; try reflexivity; discriminate.
Qed.

Lemma generate_response_effect (persona : agent_persona) (um kc : string)
  (self : service W) :
  exists t,
    call_effect self (snd (generate_response W net persona um kc self)) t.
Proof.
  rewrite generate_response_halves. unfold probe_once.
  destruct (use_ollama self) as [value | ] eqn:Hpin.
  - destruct (dispatch_effect persona um kc self value Hpin)
      as (t & Ht & Hr & Hs & Hp & Hf).
    exists t. constructor; rewrite ?Hpin; try assumption.
    + discriminate.
    + intros E. injection E as E. apply Hf. exact E.
  - cbv zeta. cbn [emit world].
    destruct (_check_ollama_availability W net (world self)) as [available w].
    match goal with
    | |- context [dispatch W net persona um kc ?s] => set (self1 := s)
    end.
    assert (Hpin1 : use_ollama self1 = Some available) by reflexivity.
    destruct (dispatch_effect persona um kc self1 available Hpin1)
      as (t & Ht & Hr & Hs & Hp & Hf).
    exists (Probe :: SetUseOllama available :: t).
    constructor; rewrite ?Hpin.
    + rewrite Ht. subst self1. cbn [assign_use_ollama set_world emit trace].
      rewrite <- !app_assoc. reflexivity.
    + cbn [replay pin_step_b]. exact Hr.
    + exact Hs.
    + change (Probe :: SetUseOllama available :: t)
        with ([Probe; SetUseOllama available] ++ t)%list.
      rewrite probes_app, Hp. reflexivity.
    + intros _. exists available, t. split; [ reflexivity | exact Hp ].
    + discriminate.
Qed.

Lemma serve_app (before after : list request) (self : service W) :
  serve W net (before ++ after) self = serve W net after (serve W net before self).
Proof.
  revert self. induction before as [ | [[persona um] kc] before IH ]; intros self;
    [ reflexivity | ].
  cbn [app serve]. apply IH.
Qed.

(** The events a run of calls appends. *)
Lemma serve_effect (requests : list request) (self : service W) :
  exists t,
    trace (serve W net requests self) = (trace self ++ t)%list
    /\ replay (use_ollama self) t = Some (use_ollama (serve W net requests self))
    /\ probes t <= match use_ollama self with None => 1 | Some _ => 0 end
    /\ (use_ollama self <> None -> use_ollama (serve W net requests self) <> None)
    /\ (requests <> [] ->
        use_ollama (serve W net requests self) <> None
        /\ (use_ollama self = None ->
            exists value t',
              t = Probe :: SetUseOllama value :: t' /\ probes t' = 0))
    /\ (use_ollama self = Some false ->
        use_ollama (serve W net requests self) = Some false
        /\ Forall (fun e => e = CallGemini) t).
Proof.
  revert self. induction requests as [ | [[persona um] kc] rest IH ]; intros self.
  - exists []. cbn [serve]. rewrite app_nil_r.
    repeat split; try tauto; try constructor.
    + destruct (use_ollama self); cbn; lia.
  - cbn [serve].
    destruct (generate_response_effect persona um kc self) as [t1 H1].
    set (self1 := snd (generate_response W net persona um kc self)) in *.
    destruct H1 as [Ht1 Hr1 Hs1 Hp1 Hf1 Hm1].
    destruct (IH self1) as (t2 & Ht2 & Hr2 & Hp2 & Hs2 & _ & Hm2).
    exists (t1 ++ t2)%list.
    assert (Hp2' : probes t2 = 0).
    { destruct (use_ollama self1); [ lia | contradiction ]. }
    split; [ rewrite Ht2, Ht1, app_assoc; reflexivity | ].
    split; [ rewrite replay_app, Hr1; exact Hr2 | ].
    split; [ rewrite probes_app, Hp1, Hp2'; destruct (use_ollama self); lia | ].
    split; [ intros _; apply Hs2; exact Hs1 | ].
    split.
    + intros _. split; [ apply Hs2; exact Hs1 | ].
      intros Hnone. destruct (Hf1 Hnone) as (value & t' & -> & Hp').
      exists value, (t' ++ t2)%list. split; [ reflexivity | ].
      rewrite probes_app, Hp', Hp2'. reflexivity.
    + intros Hremote. rewrite (Hm1 Hremote) in *.
      cbn [replay] in Hr1. rewrite Hremote in Hr1. injection Hr1 as Hr1.
      destruct (Hm2 (eq_sym Hr1)) as [Hfinal Hall].
      split; [ exact Hfinal | ].
      constructor; [ reflexivity | exact Hall ].
Qed.

(** A failure of the local backend while the pin is local leaves the pin
    remote; an answer of the local backend leaves it local. *)
Lemma local_failure_demotes (persona : agent_persona) (um kc : string)
  (self : service W) :
  use_ollama self = Some true ->
  (local_call_fails W net persona um kc (world self) ->
   use_ollama (snd (generate_response W net persona um kc self)) = Some false)
  /\ (~ local_call_fails W net persona um kc (world self) ->
      use_ollama (snd (generate_response W net persona um kc self)) = Some true).
Proof.
  intros Hpin. rewrite generate_response_halves.
  unfold probe_once, dispatch. rewrite Hpin. cbv beta iota. rewrite Hpin.
  unfold local_call_fails, _generate_ollama_response.
  assert (Hg : forall self0 : service W,
            use_ollama (snd (_generate_gemini_response W net persona um kc
                               (assign_use_ollama W false self0))) = Some false).
  { intros self0. rewrite (proj1 (gemini_effect persona um kc _)). reflexivity. }
  destruct (persona_goal persona) as [role | ].
  - cbv zeta. cbn [emit world].
    destruct (post_api_generate W net role kc um (world self)) as [reply w].
    cbn [fst].
    destruct reply as [ | status_code response ].
    + specialize (Hg (set_world W w (emit W PostOllama self))).
      cbn [emit] in Hg.
      destruct (_generate_gemini_response W net persona um kc _) as [text self2].
      split; [ intros _; exact Hg | tauto ].
    + destruct (Nat.eqb_spec status_code 200) as [E | N].
      * split; [ contradiction | intros _; exact Hpin ].
      * specialize (Hg (set_world W w (emit W PostOllama self))).
        cbn [emit] in Hg.
        destruct (_generate_gemini_response W net persona um kc _) as [text self2].
        split; [ intros _; exact Hg | contradiction ].
  - split; [ intros _; apply Hg | tauto ].
Qed.

(** The first call on an unset pin records the probe and then the
    assignment of its answer. *)
Lemma first_call_probe (persona : agent_persona) (um kc : string)
  (self : service W) :
  use_ollama self = None ->
  exists t,
    trace (snd (generate_response W net persona um kc self))
    = (trace self
       ++ Probe
          :: SetUseOllama (fst (_check_ollama_availability W net (world self)))
          :: t)%list.
Proof.
  intros Hpin. rewrite generate_response_halves. unfold probe_once.
  rewrite Hpin. cbv zeta. cbn [emit world].
  destruct (_check_ollama_availability W net (world self)) as [available w].
  cbn [fst].
  match goal with
  | |- context [dispatch W net persona um kc ?s] => set (self1 := s)
  end.
  assert (Hpin1 : use_ollama self1 = Some available) by reflexivity.
  destruct (dispatch_effect persona um kc self1 available Hpin1)
    as (t & Ht & _).
  exists t. rewrite Ht. subst self1.
  cbn [assign_use_ollama set_world emit trace].
  rewrite <- !app_assoc. reflexivity.
Qed.

Lemma serve_first_probe (requests : list request) (self : service W) :
  requests <> [] ->
  use_ollama self = None ->
  exists t,
    trace (serve W net requests self)
    = (trace self
       ++ Probe
          :: SetUseOllama (fst (_check_ollama_availability W net (world self)))
          :: t)%list.
Proof.
  intros Hne Hpin.
  destruct requests as [ | [[persona um] kc] rest ]; [ contradiction | ].
  cbn [serve].
  destruct (first_call_probe persona um kc self Hpin) as (t1 & H1).
  destruct (serve_effect rest (snd (generate_response W net persona um kc self)))
    as (t2 & H2 & _).
  exists (t1 ++ t2)%list. rewrite H2, H1, <- app_assoc. reflexivity.
Qed.

End RouterInvariant.

(** C2: over any run of [generate_response] calls on a fresh instance,
    whatever the backends do, every event finds the pin in the state that
    permits it: [use_ollama] is assigned only along unset -> local, unset
    -> remote and local -> remote, the probe is made only while the pin is
    unset, the local backend is called only while it is local.  The probe
    is made at most once, by the first call, and the value the pin then
    takes is the answer of [_check_ollama_availability] in the world the
    instance was created in; after that the pin is never unset again; a
    failure of the local backend while the pin is local leaves it remote;
    and once the pin is remote it stays remote and the later calls do
    nothing but call the remote backend. *)
Theorem pin_moves_forward_only
  (W : Type) (net : backends W) (w0 : W) (before after : list request) :
  let start := HybridLLMService W w0 in
  let mid := serve W net before start in
  let final := serve W net (before ++ after) start in
  (forall t1 e t2,
     trace final = (t1 ++ e :: t2)%list ->
     exists p, replay None t1 = Some p /\ permitted p e)
  /\ replay None (trace final) = Some (use_ollama final)
  /\ probes (trace final) <= 1
  /\ (before <> [] ->
      use_ollama mid <> None /\ use_ollama final <> None
      /\ exists t,
           trace mid
           = Probe :: SetUseOllama (fst (_check_ollama_availability W net w0)) :: t
           /\ probes t = 0)
  /\ (use_ollama mid = Some false ->
      use_ollama final = Some false
      /\ exists t,
           trace final = (trace mid ++ t)%list
           /\ Forall (fun e => e = CallGemini) t)
  /\ (forall persona um kc,
        use_ollama mid = Some true ->
        local_call_fails W net persona um kc (world mid) ->
        use_ollama (snd (generate_response W net persona um kc mid)) = Some false).
Proof.
  intros start mid final.
  destruct (serve_effect W net (before ++ after) start)
    as (t & Ht & Hr & Hp & _ & _ & _).
  fold final in Ht, Hr. cbn [start HybridLLMService trace use_ollama app] in Ht, Hr, Hp.
  assert (Hreplay : replay None (trace final) = Some (use_ollama final))
    by (rewrite Ht; exact Hr).
  split.
  { intros t1 e t2 E. rewrite E in Hreplay.
    exact (replay_permitted _ _ _ _ _ Hreplay). }
  split; [ exact Hreplay | ].
  split; [ rewrite Ht; exact Hp | ].
  destruct (serve_effect W net before start)
    as (tb & Htb & _ & _ & _ & Hfirst & _).
  fold mid in Htb, Hfirst.
  destruct (serve_effect W net after mid) as (ta & Hta & _ & _ & Hset & _ & Hremote).
  assert (Hfinal : final = serve W net after mid) by apply serve_app.
  rewrite <- Hfinal in Hta, Hset, Hremote.
  split.
  - intros Hne. destruct (Hfirst Hne) as (Hmid & Hprobe).
    split; [ exact Hmid | ]. split; [ exact (Hset Hmid) | ].
    destruct (Hprobe eq_refl) as (value & t' & -> & Hp').
    destruct (serve_first_probe W net before start Hne eq_refl) as (t'' & Hvalue).
    fold mid in Hvalue. rewrite Htb in Hvalue.
    cbn [start HybridLLMService trace world app] in Hvalue.
    injection Hvalue as Hvalue _.
    exists t'. split; [ | exact Hp' ].
    rewrite Htb, Hvalue. reflexivity.
  - split.
    + intros Hmid. destruct (Hremote Hmid) as (Hf & Hall).
      split; [ exact Hf | ]. exists ta. split; [ exact Hta | exact Hall ].
    + intros persona um kc Hlocal Hfails.
      exact (proj1 (local_failure_demotes W net persona um kc mid Hlocal) Hfails).
Qed.

Lemma pin_moves_forward_only_witness :
  use_ollama (serve unit failing_local [a_request; a_request]
                (HybridLLMService unit tt)) = Some false
  /\ probes (trace (serve unit failing_local [a_request; a_request]
                      (HybridLLMService unit tt))) <= 1
  /\ (exists t,
        trace (serve unit failing_local [a_request] (HybridLLMService unit tt))
        = Probe :: SetUseOllama true :: t
        /\ probes t = 0)
  /\ (exists t,
        trace (serve unit unreachable_local [a_request] (HybridLLMService unit tt))
        = Probe :: SetUseOllama false :: t
        /\ probes t = 0).
Proof.
  pose proof (pin_moves_forward_only unit failing_local tt [a_request] [a_request])
    as (_ & _ & Hprobes & Hfirst & Hremote & _).
  pose proof (pin_moves_forward_only unit unreachable_local tt [a_request] [])
    as (_ & _ & _ & Hunreachable & _).
  split; [ | split; [ | split ] ].
  - apply Hremote. reflexivity.
  - exact Hprobes.
  - apply Hfirst. discriminate.
  - apply Hunreachable. discriminate.
Defined.

(** The first call probes, pins local, fails over and pins remote; the
    second call goes to the remote backend at once. *)
Example demoted_router_trace :
  trace (serve unit failing_local [a_request; a_request] (HybridLLMService unit tt))
  = [ Probe; SetUseOllama true; PostOllama; SetUseOllama false; CallGemini;
      CallGemini ]
  /\ fst (generate_response unit failing_local
            {| persona_personality := PersonalityAbsent |} "When do you open?" ""
            (HybridLLMService unit tt))
     = "We open at nine.".
Proof.
  split; vm_compute; reflexivity.
Qed.

(** * Further properties *)

(** ** The format sniffer and the synthesised WAV *)

(** X1: whatever the blob, the sniffer answers one of its five formats with
    the size of the blob; the verdict is valid exactly for wav, conversion
    is needed exactly for webm, mp4 and ogg, and the error is set exactly
    when the blob has fewer than 12 bytes, in which case the format is
    unknown. *)
Theorem sniffer_invariants (audio_data : bytes) :
  In (f_format (_analyze_audio_format audio_data))
    [ "wav"; "webm"; "mp4"; "ogg"; "unknown" ]
  /\ f_size (_analyze_audio_format audio_data) = len audio_data
  /\ (f_is_valid (_analyze_audio_format audio_data) = true
      <-> f_format (_analyze_audio_format audio_data) = "wav")
  /\ (f_needs_conversion (_analyze_audio_format audio_data) = true
      <-> In (f_format (_analyze_audio_format audio_data)) [ "webm"; "mp4"; "ogg" ])
  /\ (f_error (_analyze_audio_format audio_data) <> None <-> len audio_data < 12)
  /\ (len audio_data < 12 ->
      f_format (_analyze_audio_format audio_data) = "unknown").
Proof.
  unfold _analyze_audio_format.
  destruct (Nat.ltb_spec (len audio_data) 12) as [L | G].
  - cbn. repeat split; try tauto; try discriminate; try (intros; lia).
    intros [H | [H | [H | []]]]; discriminate H.
  - destruct (bytes_eqb (slice 0 4 audio_data) (b "RIFF")
              && bytes_eqb (slice 8 12 audio_data) (b "WAVE"));
      [ | destruct (bytes_eqb (slice 0 4 audio_data) EBML_MAGIC);
          [ | destruct (bytes_in (b "ftyp") (slice 0 20 audio_data));
              [ | destruct (bytes_eqb (slice 0 4 audio_data) (b "OggS")) ] ] ];
      cbn; repeat split; try tauto; try discriminate; try (intros; lia);
      try (intros [H | [H | [H | []]]]; discriminate H);
      try (intros H; exfalso; apply H; reflexivity).
Qed.

Lemma sniffer_invariants_witness :
  f_format (_analyze_audio_format (b "OggS")) = "unknown".
Proof.
  apply (sniffer_invariants (b "OggS")). vm_compute. lia.
Defined.

Lemma wav_header_fits (n r c w : N) :
  header_fits n r c w ->
  wav_header n r c w
  = Some (b "RIFF" ++ le_bytes 4 (36 + n) ++ b "WAVE" ++ b "fmt "
          ++ le_bytes 4 16 ++ le_bytes 2 1 ++ le_bytes 2 c ++ le_bytes 4 r
          ++ le_bytes 4 (r * c * w) ++ le_bytes 2 (c * w) ++ le_bytes 2 (w * 8)
          ++ b "data" ++ le_bytes 4 n)%list.
Proof.
  intros (H1 & H2 & H3 & H4 & H5 & H6).
  assert (Hn : (n < 2 ^ 32)%N) by lia.
  unfold wav_header, pack_I, pack_H.
  apply N.ltb_lt in H1, H2, H3, H4, H5, H6, Hn.
  rewrite H1. cbn [obind].
  change (16 <? 2 ^ 32)%N with true. cbn [obind].
  change (1 <? 2 ^ 16)%N with true. cbn [obind].
  rewrite H4. cbn [obind]. rewrite H2. cbn [obind]. rewrite H3. cbn [obind].
  rewrite H5. cbn [obind]. rewrite H6. cbn [obind]. rewrite Hn. cbn [obind].
  reflexivity.
Qed.

Lemma wav_header_overflow (n r c w : N) :
  ~ header_fits n r c w -> wav_header n r c w = None.
Proof.
  intros H. unfold wav_header, pack_I, pack_H.
  destruct (N.ltb_spec (36 + n) (2 ^ 32)) as [H1 | H1]; [ | reflexivity ].
  cbn [obind]. change (16 <? 2 ^ 32)%N with true. cbn [obind].
  change (1 <? 2 ^ 16)%N with true. cbn [obind].
  destruct (N.ltb_spec c (2 ^ 16)) as [H4 | H4]; [ | reflexivity ]. cbn [obind].
  destruct (N.ltb_spec r (2 ^ 32)) as [H2 | H2]; [ | reflexivity ]. cbn [obind].
  destruct (N.ltb_spec (r * c * w) (2 ^ 32)) as [H3 | H3]; [ | reflexivity ].
  cbn [obind].
  destruct (N.ltb_spec (c * w) (2 ^ 16)) as [H5 | H5]; [ | reflexivity ].
  cbn [obind].
  destruct (N.ltb_spec (w * 8) (2 ^ 16)) as [H6 | H6]; [ | reflexivity ].
  exfalso. apply H. unfold header_fits. tauto.
Qed.

Lemma to_N_byte_of_N (v : N) : Byte.to_N (byte_of_N v) = (v mod 256)%N.
Proof.
  unfold byte_of_N.
  destruct (Byte.of_N (v mod 256)) as [x | ] eqn:E.
  - apply Byte.to_of_N. exact E.
  - apply Byte.of_N_None_iff in E.
    pose proof (N.mod_upper_bound v 256). lia.
Qed.

Lemma int_from_le_bytes (k : nat) (v : N) :
  int_from_le (le_bytes k v) = (v mod 256 ^ N.of_nat k)%N.
Proof.
  revert v. induction k as [ | k IH ]; intros v.
  - cbn. rewrite N.mod_1_r. reflexivity.
  - cbn [le_bytes int_from_le]. rewrite to_N_byte_of_N, IH.
    rewrite Nat2N.inj_succ, N.pow_succ_r'.
    rewrite N.Div0.mod_mul_r. reflexivity.
Qed.

Lemma int_from_le_bytes_small (k : nat) (v : N) :
  (v < 256 ^ N.of_nat k)%N -> int_from_le (le_bytes k v) = v.
Proof.
  intros H. rewrite int_from_le_bytes. apply N.mod_small. exact H.
Qed.

Lemma create_wav_fits (data : bytes) (r c w : N) :
  header_fits (N.of_nat (len data)) r c w ->
  _create_wav_from_raw_pcm data r c w
  = (b "RIFF" ++ le_bytes 4 (36 + N.of_nat (len data)) ++ b "WAVE" ++ b "fmt "
     ++ le_bytes 4 16 ++ le_bytes 2 1 ++ le_bytes 2 c ++ le_bytes 4 r
     ++ le_bytes 4 (r * c * w) ++ le_bytes 2 (c * w) ++ le_bytes 2 (w * 8)
     ++ b "data" ++ le_bytes 4 (N.of_nat (len data)) ++ data)%list.
Proof.
  intros H. unfold _create_wav_from_raw_pcm. rewrite (wav_header_fits _ _ _ _ H).
  rewrite <- !app_assoc. reflexivity.
Qed.

Ltac header_cells :=
  change (b "RIFF") with [x52; x49; x46; x46];
  change (b "WAVE") with [x57; x41; x56; x45];
  change (b "fmt ") with [x66; x6d; x74; x20];
  change (b "data") with [x64; x61; x74; x61];
  cbn [le_bytes app].

Lemma create_wav_sniffed (data : bytes) (r c w : N) :
  header_fits (N.of_nat (len data)) r c w ->
  f_format (_analyze_audio_format (_create_wav_from_raw_pcm data r c w)) = "wav"
  /\ f_is_valid (_analyze_audio_format (_create_wav_from_raw_pcm data r c w)) = true
  /\ f_needs_conversion
       (_analyze_audio_format (_create_wav_from_raw_pcm data r c w)) = false.
Proof.
  intros H. rewrite (create_wav_fits _ _ _ _ H). header_cells.
  unfold _analyze_audio_format. cbn [len List.length Nat.ltb Nat.leb].
  cbn [slice Nat.sub firstn skipn].
  change (b "RIFF") with [x52; x49; x46; x46].
  change (b "WAVE") with [x57; x41; x56; x45].
  cbn. repeat split.
Qed.


(** X2: a WAV synthesised by [_create_wav_from_raw_pcm] from fields that
    fit their formats is recognised by the sniffer as a valid wav that
    needs no conversion, whatever the raw data. *)
Theorem synthesised_wav_is_sniffed_as_wav (data : bytes) (r c w : N) :
  header_fits (N.of_nat (len data)) r c w ->
  f_format (_analyze_audio_format (_create_wav_from_raw_pcm data r c w)) = "wav"
  /\ f_is_valid (_analyze_audio_format (_create_wav_from_raw_pcm data r c w)) = true
  /\ f_needs_conversion
       (_analyze_audio_format (_create_wav_from_raw_pcm data r c w)) = false.
Proof.
  intros H. apply create_wav_sniffed. exact H.
Qed.

Lemma synthesised_wav_is_sniffed_as_wav_witness :
  f_format (_analyze_audio_format (_create_wav_from_raw_pcm [] 16000 1 2)) = "wav".
Proof.
  apply (synthesised_wav_is_sniffed_as_wav [] 16000 1 2).
  vm_compute. repeat split.
Defined.

(** X3: when the fields fit, the output of [_create_wav_from_raw_pcm] is a
    44-byte header followed by the raw data unchanged, and the header reads
    back, little-endian, as the RIFF size 36 + n, the channel count, the
    sample rate, the byte rate, the block alignment, the bits per sample and
    the data size n. *)
Theorem wav_header_reads_back (data : bytes) (r c w : N) :
  header_fits (N.of_nat (len data)) r c w ->
  len (_create_wav_from_raw_pcm data r c w) = 44 + len data
  /\ skipn 44 (_create_wav_from_raw_pcm data r c w) = data
  /\ int_from_le (slice 4 8 (_create_wav_from_raw_pcm data r c w))
     = (36 + N.of_nat (len data))%N
  /\ int_from_le (slice 20 22 (_create_wav_from_raw_pcm data r c w)) = 1%N
  /\ int_from_le (slice 22 24 (_create_wav_from_raw_pcm data r c w)) = c
  /\ int_from_le (slice 24 28 (_create_wav_from_raw_pcm data r c w)) = r
  /\ int_from_le (slice 28 32 (_create_wav_from_raw_pcm data r c w))
     = (r * c * w)%N
  /\ int_from_le (slice 32 34 (_create_wav_from_raw_pcm data r c w)) = (c * w)%N
  /\ int_from_le (slice 34 36 (_create_wav_from_raw_pcm data r c w)) = (w * 8)%N
  /\ int_from_le (slice 40 44 (_create_wav_from_raw_pcm data r c w))
     = N.of_nat (len data).
Proof.
  intros H. rewrite (create_wav_fits _ _ _ _ H). header_cells.
  destruct H as (H1 & H2 & H3 & H4 & H5 & H6).
  change (2 ^ 32)%N with 4294967296%N in *.
  change (2 ^ 16)%N with 65536%N in *.
  cbn [len List.length slice Nat.sub firstn skipn].
  split; [ reflexivity | ]. split; [ reflexivity | ].
  repeat split;
    first [ apply (int_from_le_bytes_small 4);
            change (256 ^ N.of_nat 4)%N with 4294967296%N; lia
          | apply (int_from_le_bytes_small 2);
            change (256 ^ N.of_nat 2)%N with 65536%N; lia ].
Qed.

Lemma wav_header_reads_back_witness :
  int_from_le (slice 24 28 (_create_wav_from_raw_pcm (repeat x00 6) 44100 1 2))
  = 44100%N.
Proof.
  apply (wav_header_reads_back (repeat x00 6) 44100 1 2).
  vm_compute. repeat split.
Defined.

(** X4: when a field does not fit its format ([struct.error]), for instance
    a sample rate of 2^32 or raw data of 2^32 - 36 bytes,
    [_create_wav_from_raw_pcm] returns the raw data as they are, without a
    header. *)
Theorem wav_creation_falls_back_to_raw (data : bytes) (r c w : N) :
  ~ header_fits (N.of_nat (len data)) r c w ->
  _create_wav_from_raw_pcm data r c w = data.
Proof.
  intros H. unfold _create_wav_from_raw_pcm.
  rewrite (wav_header_overflow _ _ _ _ H). reflexivity.
Qed.

Lemma wav_creation_falls_back_to_raw_witness :
  _create_wav_from_raw_pcm [x01; x02] 4294967296 1 2 = [x01; x02].
Proof.
  apply wav_creation_falls_back_to_raw.
  unfold header_fits. vm_compute. intros (_ & H & _). discriminate H.
Defined.

(** ** The raw-PCM fallback and the mock recogniser on every length *)

Lemma raw_pcm_variant_short (a : bytes) (r : N) :
  len a - len a mod 2 < 200 ->
  raw_pcm_variant a {| rate := r; channels := 1; width := 2 |} = None.
Proof.
  intros Hlen. unfold raw_pcm_variant.
  cbn [rate channels width]. change (N.to_nat (1 * 2)) with 2.
  cbn [Nat.eqb].
  cbv zeta.
  match goal with
  | |- context [len ?t <? _] =>
      assert (Ht : len t = len a - len a mod 2)
  end.
  { destruct (Nat.eqb_spec (len a mod 2) 0) as [E | _]; cbn [negb].
    - rewrite E. lia.
    - unfold slice. rewrite Nat.sub_0_r. apply len_trimmed. }
  rewrite Ht.
  destruct (Nat.ltb_spec (len a - len a mod 2) (2 * 100)); [ reflexivity | lia ].
Qed.

(** X5: [_try_raw_pcm_variants] gives up exactly on blobs shorter than 200
    bytes; from 200 bytes on it returns the 16000 Hz WAV of the blob cut to
    an even length. *)
Theorem raw_pcm_variants_none_iff_short (audio_data : bytes) :
  (_try_raw_pcm_variants audio_data = None <-> len audio_data < 200)
  /\ (200 <= len audio_data ->
      _try_raw_pcm_variants audio_data
      = Some (_create_wav_from_raw_pcm
                (firstn (len audio_data - len audio_data mod 2) audio_data)
                16000 1 2)).
Proof.
  pose proof (Nat.mod_upper_bound (len audio_data) 2) as Hm.
  pose proof (Nat.div_mod_eq (len audio_data) 2) as Hd.
  assert (Hlong : 200 <= len audio_data ->
          _try_raw_pcm_variants audio_data
          = Some (_create_wav_from_raw_pcm
                    (firstn (len audio_data - len audio_data mod 2) audio_data)
                    16000 1 2)).
  { intros H. unfold _try_raw_pcm_variants, configs. cbn [first_variant].
    rewrite raw_pcm_variant_long; [ reflexivity | lia ]. }
  split; [ | exact Hlong ].
  split.
  - intros Hnone. destruct (Nat.lt_ge_cases (len audio_data) 200) as [L | G];
      [ exact L | ].
    rewrite (Hlong G) in Hnone. discriminate Hnone.
  - intros L. unfold _try_raw_pcm_variants, configs. cbn [first_variant].
    rewrite !raw_pcm_variant_short by lia. reflexivity.
Qed.

Lemma raw_pcm_variants_none_iff_short_witness :
  _try_raw_pcm_variants (repeat x00 199) = None
  /\ _try_raw_pcm_variants (repeat x00 201)
     = Some (_create_wav_from_raw_pcm (repeat x00 200) 16000 1 2).
Proof.
  split.
  - apply (proj1 (raw_pcm_variants_none_iff_short (repeat x00 199))).
    unfold len. rewrite repeat_length. lia.
  - apply (proj2 (raw_pcm_variants_none_iff_short (repeat x00 201))).
    unfold len. rewrite repeat_length. lia.
Defined.

Lemma nth_error_small_phrase (i : nat) :
  i < 4 ->
  exists phrase,
    nth_error mock_responses_small i = Some phrase
    /\ In phrase mock_responses_small /\ truthy (Some phrase) = true.
Proof.
  intros H.
  do 4 (destruct i as [ | i ];
        [ eexists; split; [ reflexivity | split; [ cbn; tauto | reflexivity ] ] | ]).
  lia.
Qed.

Lemma mock_small_by_hash (a : bytes) :
  200 <= len a < 1024 ->
  exists phrase,
    _try_mock_recognition a = Some phrase
    /\ In phrase mock_responses_small /\ truthy (Some phrase) = true.
Proof.
  intros H. unfold _try_mock_recognition.
  destruct (Nat.ltb_spec (len a) 200); [ lia | ].
  destruct (Nat.ltb_spec (len a) 1024); [ | lia ].
  unfold MD5.hexdigest.
  destruct (digest_first_byte a) as [l ->].
  rewrite int_of_hex_prefix. cbn [obind hd].
  change (List.length mock_responses_small) with 4.
  apply nth_error_small_phrase. apply Nat.mod_upper_bound. discriminate.
Qed.

(** The mock transcript of a blob of 200 bytes or more: a phrase that is
    not empty. *)
Lemma mock_answers (a : bytes) :
  200 <= len a ->
  exists phrase,
    _try_mock_recognition a = Some phrase /\ truthy (Some phrase) = true
    /\ In phrase (if len a <? 1024 then mock_responses_small
                  else mock_responses_large).
Proof.
  intros H. destruct (Nat.ltb_spec (len a) 1024) as [L | G].
  - destruct (mock_small_by_hash a) as (phrase & Hm & Hin & Ht); [ lia | ].
    exists phrase. tauto.
  - assert (Hi : N.to_nat (Byte.to_N (hd x00 (MD5.digest a))) mod 5 < 5)
      by (apply Nat.mod_upper_bound; discriminate).
    destruct (large_phrase_truthy _ Hi) as (Ht & Hin).
    eexists. split; [ apply mock_large_by_hash; exact G | ]. tauto.
Qed.

(** X6: [_try_mock_recognition] answers [None] exactly under 200 bytes;
    from 200 to 1023 bytes it answers one of the four short phrases, from
    1024 bytes on one of the five long ones, the phrase being picked by the
    first byte of the MD5 digest of the blob. *)
Theorem mock_recognition_by_length (audio_data : bytes) :
  (_try_mock_recognition audio_data = None <-> len audio_data < 200)
  /\ (200 <= len audio_data < 1024 ->
      _try_mock_recognition audio_data
      = nth_error mock_responses_small
          (N.to_nat (Byte.to_N (hd x00 (MD5.digest audio_data))) mod 4)
      /\ exists phrase,
           _try_mock_recognition audio_data = Some phrase
           /\ In phrase mock_responses_small)
  /\ (1024 <= len audio_data ->
      _try_mock_recognition audio_data
      = nth_error mock_responses_large
          (N.to_nat (Byte.to_N (hd x00 (MD5.digest audio_data))) mod 5)
      /\ exists phrase,
           _try_mock_recognition audio_data = Some phrase
           /\ In phrase mock_responses_large).
Proof.
  split; [ | split ].
  - split.
    + intros Hnone. destruct (Nat.lt_ge_cases (len audio_data) 200) as [L | G];
        [ exact L | ].
      destruct (mock_answers audio_data G) as (phrase & Hm & _).
      rewrite Hm in Hnone. discriminate Hnone.
    + intros L. unfold _try_mock_recognition.
      destruct (Nat.ltb_spec (len audio_data) 200); [ reflexivity | lia ].
  - intros H. split.
    + unfold _try_mock_recognition.
      destruct (Nat.ltb_spec (len audio_data) 200); [ lia | ].
      destruct (Nat.ltb_spec (len audio_data) 1024); [ | lia ].
      unfold MD5.hexdigest. destruct (digest_first_byte audio_data) as [l ->].
      rewrite int_of_hex_prefix. reflexivity.
    + destruct (mock_small_by_hash audio_data H) as (phrase & Hm & Hin & _).
      exists phrase. tauto.
  - intros H. split.
    + rewrite (mock_large_by_hash audio_data H).
      symmetry. apply nth_error_nth_large.
      apply Nat.mod_upper_bound. discriminate.
    + assert (Hi : N.to_nat (Byte.to_N (hd x00 (MD5.digest audio_data))) mod 5 < 5)
        by (apply Nat.mod_upper_bound; discriminate).
      eexists. split; [ apply mock_large_by_hash; exact H | ].
      apply large_phrase_truthy. exact Hi.
Qed.

Lemma mock_recognition_by_length_witness :
  _try_mock_recognition (repeat x00 199) = None
  /\ exists phrase,
       _try_mock_recognition (repeat x00 200) = Some phrase
       /\ In phrase mock_responses_small.
Proof.
  pose proof (mock_recognition_by_length (repeat x00 199)) as (Hnone & _).
  pose proof (mock_recognition_by_length (repeat x00 200)) as (_ & Hsmall & _).
  unfold len in *. rewrite repeat_length in *.
  split.
  - apply Hnone. lia.
  - apply Hsmall. lia.
Defined.

(** ** The recognition chain as a whole *)

Section ChainPostconditionRules.

Variable W : Type.
Variable self : collaborators W.

Lemma bind_run {A B} (m : M W A) (f : A -> M W B) (s : W * list call) :
  bind m f s = f (fst (m s)) (snd (m s)).
Proof. unfold bind. destruct (m s) as [a s']. reflexivity. Qed.

Lemma appends_ret {A} (a : A) (P : A -> list call -> Prop) :
  P a [] -> appends W (ret a) P.
Proof.
  intros H w log. exists []. cbn. rewrite app_nil_r. split; [ reflexivity | exact H ].
Qed.

Lemma appends_bind {A B} (m : M W A) (f : A -> M W B)
  (P : A -> list call -> Prop) (Q : A -> B -> list call -> Prop)
  (R : B -> list call -> Prop) :
  appends W m P ->
  (forall a, appends W (f a) (Q a)) ->
  (forall a t1 r t2, P a t1 -> Q a r t2 -> R r (t1 ++ t2)%list) ->
  appends W (bind m f) R.
Proof.
  intros Hm Hf HR w log. rewrite bind_run.
  destruct (Hm w log) as (t1 & E1 & H1).
  destruct (m (w, log)) as [a [w' log']]. cbn [fst snd] in *. subst log'.
  destruct (Hf a w' (log ++ t1)%list) as (t2 & E2 & H2).
  exists (t1 ++ t2)%list. split.
  - rewrite E2, app_assoc. reflexivity.
  - apply (HR a); assumption.
Qed.

Lemma appends_invoke {A} (c : call) (f : W -> A * W) (P : A -> list call -> Prop) :
  (forall a, P a [c]) -> appends W (invoke c f) P.
Proof.
  intros H w log. exists [c]. unfold invoke. destruct (f w) as [a w'].
  split; [ reflexivity | apply H ].
Qed.

Lemma appends_compute {A} (c : call) (a : A) (P : A -> list call -> Prop) :
  P a [c] -> appends W (compute c a) P.
Proof.
  intros H w log. exists [c]. split; [ reflexivity | exact H ].
Qed.

Lemma appends_quiet {A} (f : W -> A * W) (P : A -> list call -> Prop) :
  (forall a, P a []) -> appends W (quiet f) P.
Proof.
  intros H w log. exists []. unfold quiet. destruct (f w) as [a w'].
  cbn [fst snd]. rewrite app_nil_r. split; [ reflexivity | apply H ].
Qed.

Lemma appends_weaken {A} (m : M W A) (P Q : A -> list call -> Prop) :
  appends W m P -> (forall a t, P a t -> Q a t) -> appends W m Q.
Proof.
  intros Hm H w log. destruct (Hm w log) as (t & E & Hp).
  exists t. split; [ exact E | apply H; exact Hp ].
Qed.


Lemma truthy_some (r : option string) :
  truthy r = true -> exists text, r = Some text.
Proof.
  destruct r as [text | ]; [ eexists; reflexivity | discriminate ].
Qed.

Lemma try_methods_real (methods : list (string * method_func W)) :
  Forall real_method methods ->
  appends W (try_methods W self methods)
    (fun r t => Forall real_call t /\ heard r).
Proof.
  induction 1 as [ | [method_name f] rest Hf _ IH ]; cbn [try_methods].
  - apply appends_ret. split; [ constructor | left; reflexivity ].
  - unfold real_method in Hf. cbn [snd] in Hf.
    destruct (startswith "direct_" method_name), f as [body | body].
    + eapply appends_bind with (Q := fun _ r t => Forall real_call t /\ heard r);
        [ exact Hf | | ].
      * intros result. destruct (truthy result) eqn:E; [ | exact IH ].
        apply appends_ret. split; [ constructor | right; exact E ].
      * intros a t1 r t2 H1 [H2 H3]. split; [ apply Forall_app; tauto | exact H3 ].
    + eapply appends_bind with (Q := fun _ r t => Forall real_call t /\ heard r);
        [ exact Hf | intros _; exact IH | ].
      intros a t1 r t2 H1 [H2 H3]. split; [ apply Forall_app; tauto | exact H3 ].
    + exact IH.
    + eapply appends_bind with (Q := fun _ r t => Forall real_call t /\ heard r);
        [ exact Hf | | ].
      * intros [audio | ]; [ | exact IH ].
        destruct (usable (Some audio)); [ | exact IH ].
        eapply appends_bind
          with (P := fun _ t => Forall real_call t)
               (Q := fun _ r t => Forall real_call t /\ heard r).
        -- apply appends_invoke. intros _. repeat constructor.
        -- intros result. destruct (truthy result) eqn:E; [ | exact IH ].
           apply appends_ret. split; [ constructor | right; exact E ].
        -- intros a t1 r t2 H1 [H2 H3].
           split; [ apply Forall_app; tauto | exact H3 ].
      * intros a t1 r t2 H1 [H2 H3]. split; [ apply Forall_app; tauto | exact H3 ].
Qed.

Lemma recognition_methods_real (audio_data : bytes) (fi : format_info) :
  Forall real_method (recognition_methods W self audio_data fi).
Proof.
  unfold recognition_methods. apply Forall_app. split.
  - destruct (f_format fi =? "webm")%string;
      [ | destruct (f_needs_conversion fi
                    && ((f_format fi =? "mp4") || (f_format fi =? "ogg"))%string);
          [ | destruct (f_is_valid fi && (f_format fi =? "wav")%string) ] ];
      repeat constructor; unfold real_method; cbn [snd];
      first [ apply appends_invoke; intros _; repeat constructor
            | apply appends_ret; constructor ].
  - destruct (1000 <? len audio_data); repeat constructor.
    unfold real_method; cbn [snd]. apply appends_compute. repeat constructor.
Qed.

(** What [alternatives_then_mock] appends and returns on a blob the mock
    accepts. *)
Lemma alternatives_then_mock_post (audio_data : bytes) :
  200 <= len audio_data ->
  appends W (alternatives_then_mock W self audio_data)
    (fun r t =>
       truthy r = true
       /\ (t = [ Call_try_alternative_processing audio_data ]
           \/ t = [ Call_try_alternative_processing audio_data;
                    Call_try_mock_recognition audio_data ]
              /\ r = _try_mock_recognition audio_data)).
Proof.
  intros Hlen. destruct (mock_answers audio_data Hlen) as (phrase & Hm & Ht & _).
  unfold alternatives_then_mock.
  eapply appends_bind
    with (P := fun _ t => t = [ Call_try_alternative_processing audio_data ])
         (Q := fun alt r t =>
                 truthy r = true
                 /\ (t = [] \/ t = [ Call_try_mock_recognition audio_data ]
                               /\ r = _try_mock_recognition audio_data)).
  - apply appends_invoke. reflexivity.
  - intros alt_result. destruct (truthy alt_result) eqn:E.
    + apply appends_ret. split; [ exact E | left; reflexivity ].
    + eapply appends_bind
        with (P := fun m t => t = [ Call_try_mock_recognition audio_data ]
                              /\ m = _try_mock_recognition audio_data)
             (Q := fun m r t => t = [] /\ r = if truthy m then m else None).
      * apply appends_compute. split; reflexivity.
      * intros mock_result. destruct (truthy mock_result) eqn:Em;
          apply appends_ret; rewrite ?Em; split; reflexivity.
      * intros m t1 r t2 [-> ->] [-> ->]. rewrite Hm, Ht.
        split; [ exact Ht | right; split; reflexivity ].
  - intros alt t1 r t2 -> [Hr [-> | [-> Hv]]]; (split; [ exact Hr | ]).
    + left. reflexivity.
    + right. split; [ reflexivity | exact Hv ].
Qed.

Lemma last_resort_after (audio_data : bytes) (r : option string)
  (t1 t2 : list call) :
  Forall real_call t1 ->
  truthy r = true
  /\ (t2 = [ Call_try_alternative_processing audio_data ]
      \/ t2 = [ Call_try_alternative_processing audio_data;
                Call_try_mock_recognition audio_data ]
         /\ r = _try_mock_recognition audio_data) ->
  path_post audio_data r (t1 ++ t2).
Proof.
  intros H1 [Hr H2]. split; [ exact Hr | ].
  exists t1, t2. split; [ reflexivity | ]. split; [ exact H1 | ].
  destruct H2 as [-> | [-> Hv]].
  - split; [ right; left; reflexivity | ].
    intros [H | []]. discriminate H.
  - split; [ right; right; reflexivity | intros _; exact Hv ].
Qed.

Lemma answered_at_once (audio_data : bytes) (r : option string) (t1 : list call) :
  Forall real_call t1 -> truthy r = true -> path_post audio_data r (t1 ++ []).
Proof.
  intros H1 Hr. split; [ exact Hr | ].
  exists t1, []. repeat split; try assumption.
  - left. reflexivity.
  - intros [].
Qed.

Lemma full_path_post (audio_data : bytes) :
  200 <= len audio_data ->
  appends W (full_path W self audio_data) (path_post audio_data).
Proof.
  intros Hlen. unfold full_path.
  eapply appends_bind
    with (P := fun r t => Forall real_call t /\ heard r)
         (Q := fun r0 r t =>
                 (r0 <> None /\ r = r0 /\ t = [])
                 \/ (truthy r = true
                     /\ (t = [ Call_try_alternative_processing audio_data ]
                         \/ t = [ Call_try_alternative_processing audio_data;
                                  Call_try_mock_recognition audio_data ]
                            /\ r = _try_mock_recognition audio_data))).
  - apply try_methods_real. apply recognition_methods_real.
  - intros [text | ].
    + apply appends_ret. left. repeat split. discriminate.
    + eapply appends_weaken; [ apply alternatives_then_mock_post; exact Hlen | ].
      intros r t H. right. exact H.
  - intros r0 t1 r t2 [H1 Hh] [(Hn & -> & ->) | H2].
    + apply answered_at_once; [ exact H1 | ].
      destruct Hh as [Hh | Hh]; [ contradiction | exact Hh ].
    + apply last_resort_after; assumption.
Qed.

Lemma quick_attempt_real (audio_data : bytes) (t : list call) :
  quick_attempt audio_data t -> Forall real_call t.
Proof.
  intros [-> | [_ [-> | (converted & _ & ->)]]]; repeat constructor.
Qed.

(** The quick branch: at most one conversion and one recognition, then the
    last resort. *)
Lemma quick_path_post (audio_data : bytes) :
  200 <= len audio_data ->
  appends W (quick_path W self audio_data)
    (fun r t =>
       truthy r = true
       /\ exists t1 t2,
            t = (t1 ++ t2)%list /\ quick_attempt audio_data t1
            /\ last_resort audio_data t2
            /\ (In (Call_try_mock_recognition audio_data) t2 ->
                r = _try_mock_recognition audio_data)).
Proof.
  intros Hlen. unfold quick_path.
  eapply appends_bind
    with (P := fun r t => quick_attempt audio_data t /\ heard r)
         (Q := fun r0 r t =>
                 (r0 <> None /\ r = r0 /\ t = [])
                 \/ (truthy r = true
                     /\ (t = [ Call_try_alternative_processing audio_data ]
                         \/ t = [ Call_try_alternative_processing audio_data;
                                  Call_try_mock_recognition audio_data ]
                            /\ r = _try_mock_recognition audio_data))).
  - destruct (String.eqb_spec (f_format (_analyze_audio_format audio_data)) "webm")
      as [Hfmt | _].
    + eapply appends_bind
        with (P := fun _ t => t = [ Call_convert_webm_to_wav audio_data ])
             (Q := fun _ r t =>
                     heard r
                     /\ (t = []
                         \/ exists converted,
                              44 < len converted
                              /\ t = [ Call_try_speech_recognition "webm_quick"
                                         converted ])).
      * apply appends_invoke. reflexivity.
      * intros [audio | ];
          [ | apply appends_ret; split; [ left | left ]; reflexivity ].
        destruct (usable (Some audio)) eqn:Hu;
          [ | apply appends_ret; split; [ left | left ]; reflexivity ].
        eapply appends_bind
          with (P := fun _ t => t = [ Call_try_speech_recognition "webm_quick" audio ])
               (Q := fun _ r t => heard r /\ t = []).
        -- apply appends_invoke. reflexivity.
        -- intros result. destruct (truthy result) eqn:E; apply appends_ret.
           ++ split; [ right; exact E | reflexivity ].
           ++ split; [ left; reflexivity | reflexivity ].
        -- intros _ t1 r t2 -> [Hh ->]. split; [ exact Hh | ].
           right. exists audio. split; [ apply usable_long; exact Hu | reflexivity ].
      * intros _ t1 r t2 -> [Hh [-> | (converted & Hc & ->)]];
          (split; [ | exact Hh ]); right; (split; [ exact Hfmt | ]).
        -- left. reflexivity.
        -- right. exists converted. split; [ exact Hc | reflexivity ].
    + apply appends_ret. split; left; reflexivity.
  - intros [text | ].
    + apply appends_ret. left. repeat split. discriminate.
    + eapply appends_weaken; [ apply alternatives_then_mock_post; exact Hlen | ].
      intros r t H. right. exact H.
  - intros r0 t1 r t2 [H1 Hh] [(Hn & -> & ->) | [Hr H2]].
    + split; [ destruct Hh as [Hh | Hh]; [ contradiction | exact Hh ] | ].
      exists t1, []. repeat split; try assumption.
      * left. reflexivity.
      * intros [].
    + split; [ exact Hr | ].
      exists t1, t2. split; [ reflexivity | ]. split; [ exact H1 | ].
      destruct H2 as [-> | [-> Hv]].
      * split; [ right; left; reflexivity | ]. intros [H | []]. discriminate H.
      * split; [ right; right; reflexivity | intros _; exact Hv ].
Qed.

End ChainPostconditionRules.

(** The five verdicts of the sniffer on a blob of 12 bytes or more. *)
Lemma sniffer_cases (a : bytes) :
  12 <= len a ->
  let verdict format valid conversion :=
    {| f_format := format; f_is_valid := valid; f_size := len a;
       f_needs_conversion := conversion; f_error := None |} in
  _analyze_audio_format a = verdict "wav" true false
  \/ _analyze_audio_format a = verdict "webm" false true
  \/ _analyze_audio_format a = verdict "mp4" false true
  \/ _analyze_audio_format a = verdict "ogg" false true
  \/ _analyze_audio_format a = verdict "unknown" false false.
Proof.
  intros Hlen verdict. subst verdict. unfold _analyze_audio_format.
  destruct (Nat.ltb_spec (len a) 12) as [L | _]; [ lia | ].
  destruct (bytes_eqb (slice 0 4 a) (b "RIFF") && bytes_eqb (slice 8 12 a) (b "WAVE"));
    [ tauto | ].
  destruct (bytes_eqb (slice 0 4 a) EBML_MAGIC); [ tauto | ].
  destruct (bytes_in (b "ftyp") (slice 0 20 a)); [ tauto | ].
  destruct (bytes_eqb (slice 0 4 a) (b "OggS")); tauto.
Qed.

Lemma riff_wave_sniffed (a : bytes) :
  12 <= len a -> firstn 4 a = b "RIFF" -> slice 8 12 a = b "WAVE" ->
  _analyze_audio_format a
  = {| f_format := "wav"; f_is_valid := true; f_size := len a;
       f_needs_conversion := false; f_error := None |}.
Proof.
  intros Hlen Hriff Hwave. unfold _analyze_audio_format.
  destruct (Nat.ltb_spec (len a) 12) as [L | _]; [ lia | ].
  change (slice 0 4 a) with (firstn 4 a). rewrite Hriff, Hwave. reflexivity.
Qed.

(** From 500 bytes on, [speech_to_text] is the quick branch under 2000
    bytes and the full strategy list from 2000 bytes on. *)
Lemma speech_to_text_long (W : Type) (self : collaborators W) (a : bytes) :
  500 <= len a ->
  speech_to_text W self a
  = if len a <? 2000 then quick_path W self a else full_path W self a.
Proof.
  intros Hlen. unfold speech_to_text.
  destruct (validate_by_length a) as (_ & _ & H1 & H2 & H3).
  destruct (Nat.ltb_spec (len a) 500) as [L | _]; [ lia | ].
  destruct (Nat.ltb_spec (len a) 2000) as [L | G].
  - destruct (Nat.lt_ge_cases (len a) 1000) as [L' | G'].
    + destruct H1 as (-> & -> & _); [ lia | ]. reflexivity.
    + destruct H2 as (-> & -> & _); [ lia | ]. reflexivity.
  - destruct H3 as (-> & -> & _); [ lia | ]. reflexivity.
Qed.

Lemma speech_to_text_short (W : Type) (self : collaborators W) (a : bytes)
  (s : W * list call) :
  len a < 500 -> speech_to_text W self a s = (None, s).
Proof.
  intros Hlen. unfold speech_to_text.
  destruct (negb (v_is_valid (_validate_audio_data a))); [ reflexivity | ].
  destruct (Nat.ltb_spec (len a) 500) as [_ | G]; [ reflexivity | lia ].
Qed.

Lemma speech_to_text_answers (W : Type) (self : collaborators W) (a : bytes)
  (s : W * list call) :
  500 <= len a -> truthy (fst (speech_to_text W self a s)) = true.
Proof.
  intros Hlen. destruct s as [w log]. rewrite (speech_to_text_long W self a Hlen).
  destruct (len a <? 2000).
  - destruct (quick_path_post W self a) with (w := w) (log := log)
      as (t & _ & Hr & _); [ lia | exact Hr ].
  - destruct (full_path_post W self a) with (w := w) (log := log)
      as (t & _ & Hr & _); [ lia | exact Hr ].
Qed.

(** X7: [speech_to_text] returns no transcript exactly for blobs shorter
    than 500 bytes; from 500 bytes on it always returns a transcript that is
    not empty, whatever the converters and recognisers answer. *)
Theorem transcript_iff_at_least_500_bytes
  (W : Type) (self : collaborators W) (audio_data : bytes)
  (w : W) (log : list call) :
  (fst (speech_to_text W self audio_data (w, log)) = None <-> len audio_data < 500)
  /\ (500 <= len audio_data ->
      truthy (fst (speech_to_text W self audio_data (w, log))) = true).
Proof.
  split; [ | apply speech_to_text_answers ].
  split.
  - intros Hnone. destruct (Nat.lt_ge_cases (len audio_data) 500) as [L | G];
      [ exact L | ].
    pose proof (speech_to_text_answers W self audio_data (w, log) G) as Hlong.
    rewrite Hnone in Hlong. discriminate Hlong.
  - intros L. rewrite speech_to_text_short by exact L. reflexivity.
Qed.

Lemma transcript_iff_at_least_500_bytes_witness :
  truthy (fst (speech_to_text unit (stand_in None (fun _ => None))
                 (repeat x00 500) (tt, []))) = true.
Proof.
  apply (transcript_iff_at_least_500_bytes unit (stand_in None (fun _ => None))
           (repeat x00 500) tt []).
  unfold len. rewrite repeat_length. lia.
Defined.

(** X8: in every run of [speech_to_text] the calls are real strategy calls
    followed by nothing, by alternative extraction, or by alternative
    extraction and then the mock: the mock is called at most once, as the
    very last call, right after alternative extraction, and when it is
    called its phrase is the transcript returned. *)
Theorem mock_is_the_last_resort
  (W : Type) (self : collaborators W) (audio_data : bytes) (w : W) :
  exists t1 t2,
    snd (snd (speech_to_text W self audio_data (w, []))) = (t1 ++ t2)%list
    /\ Forall real_call t1
    /\ last_resort audio_data t2
    /\ (In (Call_try_mock_recognition audio_data) t2 ->
        fst (speech_to_text W self audio_data (w, []))
        = _try_mock_recognition audio_data).
Proof.
  destruct (Nat.lt_ge_cases (len audio_data) 500) as [L | G].
  - rewrite speech_to_text_short by exact L.
    exists [], []. repeat split; [ constructor | left; reflexivity | intros [] ].
  - rewrite (speech_to_text_long W self audio_data G).
    destruct (len audio_data <? 2000).
    + destruct (quick_path_post W self audio_data) with (w := w) (log := @nil call)
        as (t & E & _ & t1 & t2 & -> & Hq & Hl & Hm); [ lia | ].
      exists t1, t2. split; [ exact E | ].
      split; [ exact (quick_attempt_real _ _ Hq) | ]. split; assumption.
    + destruct (full_path_post W self audio_data) with (w := w) (log := @nil call)
        as (t & E & _ & t1 & t2 & -> & Hq & Hl & Hm); [ lia | ].
      exists t1, t2. split; [ exact E | ]. repeat split; assumption.
Qed.

Lemma invoke_run {W A : Type} (c : call) (f : W -> A * W) (w : W)
  (log : list call) :
  invoke c f (w, log) = (fst (f w), (snd (f w), (log ++ [c])%list)).
Proof. unfold invoke. destruct (f w) as [a w']. reflexivity. Qed.

Lemma last_resort_tail (W : Type) (self : collaborators W) (a : bytes)
  (s : W * list call) :
  200 <= len a ->
  exists t2,
    snd (snd (alternatives_then_mock W self a s)) = (snd s ++ t2)%list
    /\ last_resort a t2
    /\ t2 <> [].
Proof.
  intros Hlen. destruct s as [w log].
  destruct (alternatives_then_mock_post W self a Hlen w log)
    as (t & E & _ & [-> | [-> _]]).
  - exists [ Call_try_alternative_processing a ]. cbn [snd].
    split; [ exact E | ]. split; [ right; left; reflexivity | discriminate ].
  - exists [ Call_try_alternative_processing a; Call_try_mock_recognition a ].
    cbn [snd]. split; [ exact E | ].
    split; [ right; right; reflexivity | discriminate ].
Qed.

Lemma quick_path_calls (W : Type) (self : collaborators W) (a : bytes) (w : W) :
  200 <= len a ->
  exists t2,
    snd (snd (quick_path W self a (w, []))) = (quick_calls W self a w ++ t2)%list
    /\ last_resort a t2
    /\ (t2 = [] ->
        exists converted,
          quick_calls W self a w
          = [ Call_convert_webm_to_wav a;
              Call_try_speech_recognition "webm_quick" converted ]).
Proof.
  intros Hlen. unfold quick_path, quick_calls. cbv zeta.
  destruct (f_format (_analyze_audio_format a) =? "webm")%string.
  - rewrite (bind_run W), (bind_run W), invoke_run. cbn [fst snd app].
    destruct (_convert_webm_to_wav W self a w) as [[converted | ] w1];
      cbn [fst snd].
    + destruct (usable (Some converted)).
      * rewrite (bind_run W), invoke_run. cbn [fst snd].
        destruct (_try_speech_recognition W self "webm_quick" converted w1)
          as [result w2].
        cbn [fst snd].
        destruct result as [text | ]; cbn [truthy].
        -- destruct text as [ | c text ]; cbn [ret fst snd].
           ++ destruct (last_resort_tail W self a
                          (w2, [ Call_convert_webm_to_wav a;
                                 Call_try_speech_recognition "webm_quick" converted ])
                          Hlen) as (t2 & E & Hl & Hne).
              exists t2. split; [ exact E | ]. split; [ exact Hl | ].
              intros Hnil. contradiction.
           ++ exists []. split; [ reflexivity | ].
              split; [ left; reflexivity | ].
              intros _. exists converted. reflexivity.
        -- cbn [ret fst snd].
           destruct (last_resort_tail W self a
                       (w2, [ Call_convert_webm_to_wav a;
                              Call_try_speech_recognition "webm_quick" converted ])
                       Hlen) as (t2 & E & Hl & Hne).
           exists t2. split; [ exact E | ]. split; [ exact Hl | ].
           intros Hnil. contradiction.
      * cbn [ret fst snd].
        destruct (last_resort_tail W self a (w1, [ Call_convert_webm_to_wav a ])
                    Hlen) as (t2 & E & Hl & Hne).
        exists t2. split; [ exact E | ]. split; [ exact Hl | ].
        intros Hnil. contradiction.
    + cbn [ret fst snd].
      destruct (last_resort_tail W self a (w1, [ Call_convert_webm_to_wav a ])
                  Hlen) as (t2 & E & Hl & Hne).
      exists t2. split; [ exact E | ]. split; [ exact Hl | ].
      intros Hnil. contradiction.
  - rewrite (bind_run W). cbn [ret fst snd].
    destruct (last_resort_tail W self a (w, []) Hlen) as (t2 & E & Hl & Hne).
    exists t2. split; [ exact E | ]. split; [ exact Hl | ].
    intros Hnil. contradiction.
Qed.



(** X10: a blob of 2000 bytes or more with the RIFF/WAVE signature is handed
    to the recogniser as it is, under the name "original_wav", before
    anything else; when the recogniser answers a text that is not empty,
    that text is the transcript and no other call is made. *)
Theorem wav_blob_is_recognised_as_is
  (W : Type) (self : collaborators W) (audio_data : bytes) (w : W) :
  2000 <= len audio_data ->
  firstn 4 audio_data = b "RIFF" ->
  slice 8 12 audio_data = b "WAVE" ->
  truthy (fst (_try_speech_recognition W self "original_wav" audio_data w)) = true ->
  speech_to_text W self audio_data (w, [])
  = (fst (_try_speech_recognition W self "original_wav" audio_data w),
     (snd (_try_speech_recognition W self "original_wav" audio_data w),
      [ Call_try_speech_recognition "original_wav" audio_data ])).
Proof.
  intros Hlen Hriff Hwave Hheard.
  rewrite speech_to_text_long by lia.
  destruct (Nat.ltb_spec (len audio_data) 2000) as [L | _]; [ lia | ].
  unfold full_path. rewrite riff_wave_sniffed by (assumption || lia).
  unfold recognition_methods. cbn [f_format f_is_valid f_needs_conversion].
  change ("wav" =? "webm")%string with false.
  change ("wav" =? "wav")%string with true.
  cbn [andb orb app]. cbn [try_methods].
  change (startswith "direct_" "original_wav") with false. cbv beta iota.
  assert (Hu : usable (Some audio_data) = true).
  { unfold usable.
    destruct (Nat.eqb_spec (len audio_data) 0); [ lia | ].
    destruct (Nat.ltb_spec 44 (len audio_data)); [ reflexivity | lia ]. }
  rewrite (bind_run W). rewrite (bind_run W (ret (Some audio_data))).
  cbn [ret fst snd]. rewrite Hu.
  rewrite (bind_run W (invoke _ _)). rewrite invoke_run. cbn [fst snd app].
  rewrite Hheard. cbn [ret fst snd].
  destruct (fst (_try_speech_recognition W self "original_wav" audio_data w))
    as [text | ]; [ reflexivity | discriminate Hheard ].
Qed.

Lemma wav_blob_is_recognised_as_is_witness :
  speech_to_text unit (stand_in None (fun _ => Some "hello")) wav_2000 (tt, [])
  = (Some "hello", (tt, [ Call_try_speech_recognition "original_wav" wav_2000 ])).
Proof.
  apply (wav_blob_is_recognised_as_is unit (stand_in None (fun _ => Some "hello"))
           wav_2000 tt).
  - vm_compute. lia.
  - reflexivity.
  - reflexivity.
  - reflexivity.
Defined.

Section FirstAttempt.

Variable W : Type.
Variable self : collaborators W.

Lemma appends_after_ret {A B} (a : A) (f : A -> M W B)
  (P : B -> list call -> Prop) :
  appends W (f a) P -> appends W (bind (ret a) f) P.
Proof.
  intros H w log. rewrite bind_run. exact (H w log).
Qed.

(** A computation whose first recorded call is [c]. *)
Lemma appends_first {A B} (c : call) (m : M W A) (f : A -> M W B) :
  appends W m (fun _ t => t = [c]) ->
  (forall a, appends W (f a) (fun _ _ => True)) ->
  appends W (bind m f) (fun _ t => exists rest, t = c :: rest).
Proof.
  intros Hm Hf.
  eapply appends_bind with (Q := fun _ _ _ => True); [ exact Hm | exact Hf | ].
  intros a t1 r t2 -> _. exists t2. reflexivity.
Qed.

Lemma try_methods_grows (methods : list (string * method_func W)) :
  Forall real_method methods ->
  appends W (try_methods W self methods) (fun _ _ => True).
Proof.
  intros H. eapply appends_weaken; [ apply try_methods_real; exact H | ].
  intros; exact I.
Qed.

Lemma recognise_then_go_on (method_name : string) (audio : bytes)
  (rest : list (string * method_func W)) :
  Forall real_method rest ->
  appends W
    (bind (invoke (Call_try_speech_recognition method_name audio)
             (_try_speech_recognition W self method_name audio))
       (fun result =>
          if truthy result then ret result else try_methods W self rest))
    (fun _ t => exists more, t = Call_try_speech_recognition method_name audio :: more).
Proof.
  intros Hrest. apply appends_first.
  - apply appends_invoke. reflexivity.
  - intros result. destruct (truthy result);
      [ apply appends_ret; exact I | apply try_methods_grows; exact Hrest ].
Qed.

Lemma convert_then_go_on (method_name : string)
  (rest : list (string * method_func W)) (converted_audio : option bytes) :
  Forall real_method rest ->
  appends W
    match converted_audio with
    | Some audio =>
        if usable converted_audio then
          bind (invoke (Call_try_speech_recognition method_name audio)
                  (_try_speech_recognition W self method_name audio))
            (fun result =>
               if truthy result then ret result else try_methods W self rest)
        else try_methods W self rest
    | None => try_methods W self rest
    end
    (fun _ _ => True).
Proof.
  intros Hrest. destruct converted_audio as [audio | ];
    [ | apply try_methods_grows; exact Hrest ].
  destruct (usable (Some audio)); [ | apply try_methods_grows; exact Hrest ].
  eapply appends_weaken; [ apply recognise_then_go_on; exact Hrest | ].
  intros; exact I.
Qed.

Lemma try_methods_cons (method_name : string) (f : method_func W)
  (rest : list (string * method_func W)) :
  try_methods W self ((method_name, f) :: rest)
  = if startswith "direct_" method_name then
      match f with
      | Coroutine _ body =>
          bind body (fun result =>
            if truthy result then ret result else try_methods W self rest)
      | Plain _ body => bind body (fun _ => try_methods W self rest)
      end
    else
      match f with
      | Plain _ body =>
          bind body (fun converted_audio =>
            match converted_audio with
            | Some audio =>
                if usable converted_audio then
                  bind (invoke (Call_try_speech_recognition method_name audio)
                          (_try_speech_recognition W self method_name audio))
                    (fun result =>
                       if truthy result then ret result
                       else try_methods W self rest)
                else try_methods W self rest
            | None => try_methods W self rest
            end)
      | Coroutine _ _ => try_methods W self rest
      end.
Proof. reflexivity. Qed.

Ltac literal_tests :=
  repeat match goal with
         | |- context [String.eqb ?x ?y] =>
             let v := eval vm_compute in (String.eqb x y) in
             change (String.eqb x y) with v
         end;
  change ("mp4" ++ "_converted")%string with "mp4_converted";
  change ("ogg" ++ "_converted")%string with "ogg_converted".

Lemma full_path_first_attempt (a : bytes) :
  2000 <= len a ->
  appends W (full_path W self a) (fun _ t => exists rest, t = first_attempt a :: rest).
Proof.
  intros Hlen. unfold full_path.
  eapply appends_bind
    with (P := fun _ t => exists rest, t = first_attempt a :: rest)
         (Q := fun _ _ _ => True).
  - pose proof (recognition_methods_real W self a (_analyze_audio_format a)) as Hreal.
    unfold first_attempt. revert Hreal. unfold recognition_methods.
    destruct (Nat.ltb_spec 1000 (len a)) as [_ | G]; [ | lia ].
    destruct (sniffer_cases a) as [E | [E | [E | [E | E]]]]; [ lia | .. ];
      rewrite E; cbn [f_format f_is_valid f_needs_conversion];
      literal_tests; cbn [andb orb app]; intros Hreal.
    + (* wav *)
      rewrite try_methods_cons.
      change (startswith "direct_" "original_wav") with false. cbv beta iota.
      apply appends_after_ret.
      assert (Hu : usable (Some a) = true).
      { unfold usable. destruct (Nat.eqb_spec (len a) 0); [ lia | ].
        destruct (Nat.ltb_spec 44 (len a)); [ reflexivity | lia ]. }
      cbv beta iota. rewrite Hu. cbv beta iota.
      eapply appends_weaken;
        [ apply recognise_then_go_on; inversion Hreal; assumption | ].
      intros r t H. exact H.
    + (* webm *)
      rewrite try_methods_cons.
      change (startswith "direct_" "direct_webm") with true. cbv beta iota.
      apply appends_first; [ apply appends_invoke; reflexivity | ].
      intros result. destruct (truthy result); [ apply appends_ret; exact I | ].
      apply try_methods_grows. inversion Hreal; assumption.
    + (* mp4 *)
      rewrite try_methods_cons.
      change (startswith "direct_" "mp4_converted") with false. cbv beta iota.
      apply appends_first; [ apply appends_invoke; reflexivity | ].
      intros converted. apply convert_then_go_on. inversion Hreal; assumption.
    + (* ogg *)
      rewrite try_methods_cons.
      change (startswith "direct_" "ogg_converted") with false. cbv beta iota.
      apply appends_first; [ apply appends_invoke; reflexivity | ].
      intros converted. apply convert_then_go_on. inversion Hreal; assumption.
    + (* unknown *)
      rewrite try_methods_cons.
      change (startswith "direct_" "raw_pcm_fallback") with false. cbv beta iota.
      apply appends_first; [ apply appends_compute; reflexivity | ].
      intros converted. apply convert_then_go_on. constructor.
  - intros [text | ]; [ apply appends_ret; exact I | ].
    eapply appends_weaken; [ apply alternatives_then_mock_post; lia | ].
    intros; exact I.
  - intros a0 t1 r t2 [rest ->] _. exists (rest ++ t2)%list. reflexivity.
Qed.

End FirstAttempt.

(** X11: on a blob of 2000 bytes or more the first call of [speech_to_text]
    is decided by the sniffed format: direct recognition for webm, the
    container conversion for mp4 and ogg, recognition of the bytes as they
    are for wav, and the raw-PCM reading for an unknown format. *)
Theorem first_attempt_follows_format
  (W : Type) (self : collaborators W) (audio_data : bytes) (w : W) :
  2000 <= len audio_data ->
  exists rest,
    snd (snd (speech_to_text W self audio_data (w, [])))
    = first_attempt audio_data :: rest.
Proof.
  intros Hlen. rewrite speech_to_text_long by lia.
  destruct (Nat.ltb_spec (len audio_data) 2000) as [L | _]; [ lia | ].
  destruct (full_path_first_attempt W self audio_data Hlen w [])
    as (t & E & rest & ->).
  exists rest. exact E.
Qed.

Lemma first_attempt_follows_format_witness :
  exists rest,
    snd (snd (speech_to_text unit (stand_in None (fun _ => None)) webm_2000 (tt, [])))
    = Call_try_direct_webm_recognition webm_2000 :: rest.
Proof.
  apply (first_attempt_follows_format unit (stand_in None (fun _ => None))
           webm_2000 tt).
  vm_compute. lia.
Defined.

(** ** Alternative extraction *)

Lemma length_le_bytes (k : nat) (v : N) : Datatypes.length (le_bytes k v) = k.
Proof.
  revert v. induction k as [ | k IH ]; intros v; cbn [le_bytes Datatypes.length];
    [ | rewrite IH ]; reflexivity.
Qed.

Lemma header_fits_dec (n r c w : N) :
  header_fits n r c w \/ ~ header_fits n r c w.
Proof.
  unfold header_fits.
  destruct (N.ltb_spec (36 + n) (2 ^ 32)) as [H1 | H1];
    [ | right; intros (G1 & G2 & G3 & G4 & G5 & G6); lia ].
  destruct (N.ltb_spec r (2 ^ 32)) as [H2 | H2];
    [ | right; intros (G1 & G2 & G3 & G4 & G5 & G6); lia ].
  destruct (N.ltb_spec (r * c * w) (2 ^ 32)) as [H3 | H3];
    [ | right; intros (G1 & G2 & G3 & G4 & G5 & G6); lia ].
  destruct (N.ltb_spec c (2 ^ 16)) as [H4 | H4];
    [ | right; intros (G1 & G2 & G3 & G4 & G5 & G6); lia ].
  destruct (N.ltb_spec (c * w) (2 ^ 16)) as [H5 | H5];
    [ | right; intros (G1 & G2 & G3 & G4 & G5 & G6); lia ].
  destruct (N.ltb_spec (w * 8) (2 ^ 16)) as [H6 | H6];
    [ | right; intros (G1 & G2 & G3 & G4 & G5 & G6); lia ].
  left. exact (conj H1 (conj H2 (conj H3 (conj H4 (conj H5 H6))))).
Qed.

Lemma create_wav_len_cases (data : bytes) (r c w : N) :
  (header_fits (N.of_nat (len data)) r c w
   /\ len (_create_wav_from_raw_pcm data r c w) = 44 + len data)
  \/ (~ header_fits (N.of_nat (len data)) r c w
      /\ _create_wav_from_raw_pcm data r c w = data).
Proof.
  destruct (header_fits_dec (N.of_nat (len data)) r c w) as [F | F].
  - left. split; [ exact F | ].
    rewrite (create_wav_fits _ _ _ _ F).
    unfold len. rewrite !length_app, !length_le_bytes. reflexivity.
  - right. split; [ exact F | ].
    unfold _create_wav_from_raw_pcm.
    rewrite (wav_header_overflow _ _ _ _ F). reflexivity.
Qed.

Lemma extraction_threshold (data : bytes) (r : N) :
  In r extraction_rates ->
  (1000 <? len (_create_wav_from_raw_pcm data r 1 2)) = (956 <? len data).
Proof.
  intros Hr.
  destruct (create_wav_len_cases data r 1 2) as [[_ E] | [F E]].
  - rewrite E.
    destruct (Nat.ltb_spec 1000 (44 + len data));
      destruct (Nat.ltb_spec 956 (len data)); (reflexivity || lia).
  - rewrite E.
    assert (L : 1000 < len data).
    { destruct (Nat.lt_ge_cases 1000 (len data)) as [L | G]; [ exact L | ].
      exfalso. apply F. unfold header_fits.
      cbn [In extraction_rates] in Hr.
      change (2 ^ 32)%N with 4294967296%N.
      destruct Hr as [<- | [<- | [<- | [<- | []]]]];
        (split; [ lia | ]); (split; [ reflexivity | ]);
        (split; [ reflexivity | ]); (split; [ reflexivity | ]);
        (split; reflexivity). }
    destruct (Nat.ltb_spec 1000 (len data));
      destruct (Nat.ltb_spec 956 (len data)); (reflexivity || lia).
Qed.

Section AlternativeExtraction.

Variable W : Type.
Variable self : collaborators W.
Variable ffmpeg_to_wav : bytes -> W -> option bytes * W.

Lemma raw_extraction_loop_short (a : bytes) (rates : list N) (s : W * list call) :
  (forall r, In r rates ->
             (1000 <? len (_create_wav_from_raw_pcm a r 1 2)) = false) ->
  raw_extraction_loop W self a rates s = (None, s).
Proof.
  intros H. induction rates as [ | rate rest IH ]; [ reflexivity | ].
  cbn [raw_extraction_loop]. cbv zeta.
  rewrite (H rate (or_introl eq_refl)).
  apply IH. intros r Hr. apply H. right. exact Hr.
Qed.

Lemma raw_extraction_loop_long (a : bytes) (rates : list N) :
  (forall r, In r rates ->
             (1000 <? len (_create_wav_from_raw_pcm a r 1 2)) = true) ->
  appends W (raw_extraction_loop W self a rates)
    (fun r t => heard r /\ tried a rates r t).
Proof.
  intros H. induction rates as [ | rate rest IH ].
  - apply appends_ret. split; [ left; reflexivity | ].
    exists 0. split; [ apply Nat.le_refl | ].
    split; [ reflexivity | ]. split; [ intros F; contradiction | reflexivity ].
  - cbn [raw_extraction_loop]. cbv zeta.
    rewrite (H rate (or_introl eq_refl)).
    eapply appends_bind
      with (P := fun _ t =>
                   t = [ Call_try_speech_recognition
                           ("raw_extracted_" ++ str_of_N rate)
                           (_create_wav_from_raw_pcm a rate 1 2) ])
           (Q := fun result r t =>
                   (truthy result = true /\ r = result /\ t = [])
                   \/ (heard r /\ tried a rest r t)).
    + apply appends_invoke. reflexivity.
    + intros result. destruct (truthy result) eqn:E.
      * apply appends_ret. left. repeat split.
      * eapply appends_weaken;
          [ apply IH; intros r Hr; apply H; right; exact Hr | ].
        intros r t Hp. right. exact Hp.
    + intros result t1 r t2 -> [(Ht & -> & ->) | (Hh & k & Hk & -> & _ & Hn)].
      * split; [ right; exact Ht | ].
        exists 1. cbn [List.length]. split; [ lia | ].
        split; [ reflexivity | ]. split; [ intros _; lia | ].
        intros ->. discriminate Ht.
      * split; [ exact Hh | ].
        exists (S k). cbn [List.length]. split; [ lia | ].
        split; [ reflexivity | ]. split; [ intros _; lia | ].
        intros Hr. rewrite (Hn Hr). reflexivity.
Qed.

Lemma raw_extraction_post (a : bytes) :
  appends W (_try_raw_audio_extraction W self a)
    (fun r t =>
       heard r
       /\ ((len a <= 956 /\ t = [] /\ r = None)
           \/ (956 < len a /\ tried a extraction_rates r t))).
Proof.
  unfold _try_raw_audio_extraction.
  destruct (Nat.ltb_spec 956 (len a)) as [L | G].
  - eapply appends_weaken.
    + apply raw_extraction_loop_long. intros r Hr.
      rewrite (extraction_threshold a r Hr). apply Nat.ltb_lt. exact L.
    + intros r t [Hh Ht]. split; [ exact Hh | right; split; assumption ].
  - intros w log. exists [].
    rewrite raw_extraction_loop_short.
    + cbn [fst snd]. rewrite app_nil_r. split; [ reflexivity | ].
      split; [ left; reflexivity | left; repeat split; exact G ].
    + intros r Hr. rewrite (extraction_threshold a r Hr).
      apply Nat.ltb_ge. exact G.
Qed.

Lemma opus_extraction_post (a : bytes) :
  appends W (opus_extraction W self a)
    (fun r t => heard r /\ opus_calls a t).
Proof.
  assert (Hnone : appends W (ret (@None string))
                    (fun r t => heard r /\ opus_calls a t)).
  { apply appends_ret. split; left; reflexivity. }
  unfold opus_extraction.
  destruct (50 <? len a); [ | exact Hnone ].
  destruct (bytes_in (b "OpusHead") a); [ | exact Hnone ].
  destruct (bytes_find (b "OpusHead") a) as [opus_start | ] eqn:Ef;
    [ | exact Hnone ].
  destruct (Nat.ltb_spec 0 opus_start) as [Hpos | _]; [ | exact Hnone ].
  cbv zeta.
  destruct (100 <? len (skipn (opus_start + 50) a)); [ | exact Hnone ].
  eapply appends_bind
    with (Q := fun result r t => heard r /\ (truthy result = true \/ r = None) /\ t = []).
  - apply raw_extraction_post.
  - intros result. destruct (truthy result) eqn:E.
    + apply appends_ret. split; [ right; exact E | ].
      split; [ left; reflexivity | reflexivity ].
    + apply appends_ret. split; [ left; reflexivity | ].
      split; [ right; reflexivity | reflexivity ].
  - intros result t1 r t2 [_ Hcases] (Hh & _ & ->). rewrite app_nil_r.
    split; [ exact Hh | ].
    destruct Hcases as [(_ & -> & _) | (L & k & Hk & -> & Hone & _)];
      [ left; reflexivity | ].
    right. exists opus_start, k.
    split; [ exact Ef | ]. split; [ exact Hpos | ].
    split.
    { unfold len in L. rewrite length_skipn in L. unfold len. lia. }
    split; [ | reflexivity ].
    split; [ apply Hone; discriminate | exact Hk ].
Qed.

Lemma ffmpeg_extraction_post (a : bytes) :
  appends W (_try_ffmpeg_extraction W self ffmpeg_to_wav a)
    (fun _ t => ffmpeg_calls t).
Proof.
  unfold _try_ffmpeg_extraction.
  eapply appends_bind
    with (P := fun _ t => t = []) (Q := fun _ _ t => ffmpeg_calls t).
  - apply appends_quiet. reflexivity.
  - intros [wav_data | ].
    + apply appends_invoke. intros _. right. exists wav_data. reflexivity.
    + apply appends_ret. left. reflexivity.
  - intros converted t1 r t2 -> H. exact H.
Qed.

Lemma alternative_processing_post (a : bytes) :
  appends W (_try_alternative_processing_body W self ffmpeg_to_wav a)
    (fun r t =>
       heard r
       /\ exists t1 t2,
            t = (t1 ++ t2)%list /\ opus_calls a t1 /\ ffmpeg_calls t2).
Proof.
  unfold _try_alternative_processing_body.
  eapply appends_bind
    with (Q := fun extracted r t =>
                 (extracted <> None /\ r = extracted /\ t = [])
                 \/ (heard r /\ ffmpeg_calls t)).
  - apply opus_extraction_post.
  - intros [result | ].
    + apply appends_ret. left. repeat split. discriminate.
    + eapply appends_bind
        with (Q := fun ffmpeg_result r t =>
                     (r = None \/ truthy r = true) /\ t = []).
      * apply ffmpeg_extraction_post.
      * intros ffmpeg_result. destruct (truthy ffmpeg_result) eqn:E;
          apply appends_ret; (split; [ | reflexivity ]);
          [ right; exact E | left; reflexivity ].
      * intros ffmpeg_result t1 r t2 Hf [Hr ->]. rewrite app_nil_r.
        right. split; [ exact Hr | exact Hf ].
  - intros extracted t1 r t2 [Hh Ho] [(_ & -> & ->) | (Hr & Hf)].
    + split; [ exact Hh | ].
      exists t1, []. split; [ reflexivity | ].
      split; [ exact Ho | left; reflexivity ].
    + split; [ exact Hr | ].
      exists t1, t2. split; [ reflexivity | ]. split; assumption.
Qed.

End AlternativeExtraction.



(** X13: [_try_alternative_processing] runs the Opus extraction first.  Its
    recognition calls are not empty only when the first [OpusHead] stands
    after the first byte of the blob and more than 956 bytes follow its
    50-byte header, and then they are the first k raw-extraction calls on
    these bytes.  When the Opus extraction returns a text, that text is the
    answer and FFmpeg is not run.  Otherwise the FFmpeg extraction follows:
    it makes one recognition call, under the name ffmpeg_converted, on the
    very bytes FFmpeg wrote, and none when FFmpeg wrote nothing.  The
    answer is nothing or a text that is not empty. *)
Theorem alternative_processing_calls
  (W : Type) (self : collaborators W)
  (ffmpeg_to_wav : bytes -> W -> option bytes * W)
  (audio_data : bytes) (w : W) (log : list call) :
  let opus := opus_extraction W self audio_data (w, log) in
  let run :=
    _try_alternative_processing_body W self ffmpeg_to_wav audio_data (w, log) in
  (exists t1, snd (snd opus) = (log ++ t1)%list /\ opus_calls audio_data t1)
  /\ heard (fst run)
  /\ (fst opus <> None -> run = opus)
  /\ (fst opus = None ->
      snd (snd run)
      = (snd (snd opus)
         ++ match fst (ffmpeg_to_wav audio_data (fst (snd opus))) with
            | Some wav_data =>
                [ Call_try_speech_recognition "ffmpeg_converted" wav_data ]
            | None => []
            end)%list).
Proof.
  cbv zeta.
  split.
  { destruct (opus_extraction_post W self audio_data w log) as (t1 & E & _ & Ho).
    exists t1. split; [ exact E | exact Ho ]. }
  split.
  { destruct (alternative_processing_post W self ffmpeg_to_wav audio_data w log)
      as (t & _ & Hh & _).
    exact Hh. }
  unfold _try_alternative_processing_body. rewrite (bind_run W).
  destruct (opus_extraction W self audio_data (w, log))
    as [[result | ] [w1 log1]]; cbn [fst snd].
  - split; [ intros _; reflexivity | intros H; discriminate H ].
  - split; [ intros H; contradiction | intros _ ].
    rewrite (bind_run W). unfold _try_ffmpeg_extraction.
    rewrite (bind_run W). unfold quiet.
    destruct (ffmpeg_to_wav audio_data w1) as [[wav_data | ] w2]; cbn [fst snd].
    + rewrite invoke_run. cbn [fst snd].
      destruct (truthy (fst (_try_speech_recognition W self "ffmpeg_converted"
                               wav_data w2))); reflexivity.
    + cbn [ret truthy fst snd]. rewrite app_nil_r. reflexivity.
Qed.

Lemma alternative_processing_calls_witness :
  snd (snd (_try_alternative_processing_body unit
              (stand_in None (fun _ => None))
              (fun audio w => (Some (repeat x00 64), w))
              (repeat x00 2000) (tt, [])))
  = [ Call_try_speech_recognition "ffmpeg_converted" (repeat x00 64) ].
Proof.
  pose proof (alternative_processing_calls unit (stand_in None (fun _ => None))
                (fun audio w => (Some (repeat x00 64), w))
                (repeat x00 2000) tt []) as H.
  cbv zeta in H. destruct H as (_ & _ & _ & Hffmpeg).
  exact (Hffmpeg eq_refl).
Defined.

Lemma opus_extraction_idle (W : Type) (self : collaborators W)
  (audio_data : bytes) (s : W * list call) :
  (forall opus_start,
     bytes_find (b "OpusHead") audio_data = Some opus_start ->
     opus_start = 0 \/ len audio_data <= opus_start + 1006) ->
  opus_extraction W self audio_data s = (None, s).
Proof.
  intros H. unfold opus_extraction.
  destruct (50 <? len audio_data); [ | reflexivity ].
  destruct (bytes_in (b "OpusHead") audio_data); [ | reflexivity ].
  destruct (bytes_find (b "OpusHead") audio_data) as [opus_start | ];
    [ | reflexivity ].
  destruct (Nat.ltb_spec 0 opus_start) as [Hpos | _]; [ | reflexivity ].
  cbv zeta.
  destruct (100 <? len (skipn (opus_start + 50) audio_data)); [ | reflexivity ].
  rewrite bind_run. unfold _try_raw_audio_extraction.
  rewrite raw_extraction_loop_short; [ reflexivity | ].
  intros r Hr. rewrite (extraction_threshold _ r Hr). apply Nat.ltb_ge.
  unfold len. rewrite length_skipn.
  destruct (H opus_start eq_refl) as [Z | G]; unfold len in *; lia.
Qed.

(** X14: when no [OpusHead] is found, or the first one stands at the very
    start of the blob, or at most 956 bytes follow its 50-byte header, the
    Opus extraction does nothing and [_try_alternative_processing] is the
    FFmpeg extraction alone: same calls, same effects, and its answer with
    an empty text turned into [None]. *)
Theorem without_opus_payload_only_ffmpeg
  (W : Type) (self : collaborators W)
  (ffmpeg_to_wav : bytes -> W -> option bytes * W)
  (audio_data : bytes) (s : W * list call) :
  (forall opus_start,
     bytes_find (b "OpusHead") audio_data = Some opus_start ->
     opus_start = 0 \/ len audio_data <= opus_start + 1006) ->
  _try_alternative_processing_body W self ffmpeg_to_wav audio_data s
  = let ffmpeg := _try_ffmpeg_extraction W self ffmpeg_to_wav audio_data s in
    (if truthy (fst ffmpeg) then fst ffmpeg else None, snd ffmpeg).
Proof.
  intros H. unfold _try_alternative_processing_body.
  rewrite bind_run, (opus_extraction_idle W self audio_data s H).
  cbn [fst snd]. rewrite bind_run. cbv zeta.
  destruct (truthy (fst (_try_ffmpeg_extraction W self ffmpeg_to_wav audio_data s)));
    reflexivity.
Qed.

Lemma without_opus_payload_only_ffmpeg_witness :
  _try_alternative_processing_body unit (stand_in None (fun _ => Some "hello"))
    (fun audio w => (Some audio, w))
    (b "OpusHead" ++ repeat x00 2000)%list (tt, [])
  = (Some "hello",
     (tt, [ Call_try_speech_recognition "ffmpeg_converted"
              (b "OpusHead" ++ repeat x00 2000)%list ])).
Proof.
  apply (without_opus_payload_only_ffmpeg unit
           (stand_in None (fun _ => Some "hello"))
           (fun audio w => (Some audio, w))
           (b "OpusHead" ++ repeat x00 2000)%list (tt, [])).
  intros opus_start E. left.
  change (bytes_find (b "OpusHead") (b "OpusHead" ++ repeat x00 2000)%list)
    with (Some 0) in E.
  injection E as E. symmetry. exact E.
Defined.

(** ** The replies of the router *)

Lemma clean_ends_with_terminator (response kc um : string) :
  endswith_any TERMINATORS (_clean_and_validate_response response kc um) = true.
Proof.
  rewrite clean_unfold. cbv zeta.
  destruct (str_in "I'm here to provide support based on our documentation"
              (strip_scaffolding response)); [ reflexivity | ].
  destruct ((String.length (strip_scaffolding response) <? 15)
            && negb (str_in "documentation" (lower (strip_scaffolding response))));
    [ reflexivity | ].
  destruct (endswith_any TERMINATORS (strip_scaffolding response)) eqn:E;
    cbn [negb]; [ exact E | ].
  unfold endswith_any, TERMINATORS. cbn [existsb].
  rewrite endswith_append. apply orb_true_r.
Qed.

Lemma prefix_length (needle hay : string) :
  String.prefix needle hay = true -> String.length needle <= String.length hay.
Proof.
  revert hay. induction needle as [ | c needle IH ]; intros hay H.
  - cbn. lia.
  - destruct hay as [ | d hay ]; [ discriminate H | ].
    cbn [String.prefix] in H. destruct (ascii_dec c d); [ | discriminate H ].
    cbn [String.length]. apply IH in H. lia.
Qed.

Lemma str_in_length (needle hay : string) :
  str_in needle hay = true -> String.length needle <= String.length hay.
Proof.
  induction hay as [ | d hay IH ]; cbn [str_in]; intros H.
  - rewrite orb_false_r in H. apply prefix_length. exact H.
  - apply orb_true_iff in H. destruct H as [H | H].
    + apply prefix_length. exact H.
    + apply IH in H. cbn [String.length]. lia.
Qed.

Lemma length_lower (s : string) : String.length (lower s) = String.length s.
Proof.
  induction s as [ | c s IH ]; cbn [lower String.length]; [ | rewrite IH ];
    reflexivity.
Qed.

Lemma clean_length (response kc um : string) :
  13 <= String.length (_clean_and_validate_response response kc um).
Proof.
  rewrite clean_unfold. cbv zeta.
  destruct (str_in "I'm here to provide support based on our documentation"
              (strip_scaffolding response)); [ vm_compute; lia | ].
  destruct (Nat.ltb_spec (String.length (strip_scaffolding response)) 15)
    as [L | G]; cbn [andb].
  - destruct (str_in "documentation" (lower (strip_scaffolding response))) eqn:D;
      cbn [negb]; [ | vm_compute; lia ].
    apply str_in_length in D. rewrite length_lower in D.
    change (String.length "documentation") with 13 in D.
    destruct (negb (endswith_any TERMINATORS (strip_scaffolding response)));
      rewrite ?length_append; lia.
  - destruct (negb (endswith_any TERMINATORS (strip_scaffolding response)));
      rewrite ?length_append; lia.
Qed.

Section RouterReplies.

Variable W : Type.
Variable net : backends W.

(** A reply is the apology or a cleaned text. *)
Lemma gemini_text (persona : agent_persona) (um kc : string) (self : service W) :
  fst (_generate_gemini_response W net persona um kc self) = APOLOGY
  \/ exists generated_text,
       fst (_generate_gemini_response W net persona um kc self)
       = _clean_and_validate_response generated_text kc um.
Proof.
  unfold _generate_gemini_response. cbn [emit world].
  destruct (generate_content W net kc um (world self)) as [[ | text] w].
  - left. reflexivity.
  - right. eexists. reflexivity.
Qed.

Lemma dispatch_text (persona : agent_persona) (um kc : string) (self : service W) :
  fst (dispatch W net persona um kc self) = APOLOGY
  \/ exists generated_text,
       fst (dispatch W net persona um kc self)
       = _clean_and_validate_response generated_text kc um.
Proof.
  unfold dispatch.
  destruct (use_ollama self) as [[ | ] | ]; try apply gemini_text.
  unfold _generate_ollama_response.
  destruct (persona_goal persona) as [role | ]; [ | apply gemini_text ].
  cbv zeta. cbn [emit world].
  destruct (post_api_generate W net role kc um (world self)) as [reply w].
  destruct reply as [ | status_code response ].
  - pose proof (gemini_text persona um kc
                  (assign_use_ollama W false (set_world W w (emit W PostOllama self))))
      as H.
    cbn [emit] in H.
    destruct (_generate_gemini_response W net persona um kc _) as [text self2].
    exact H.
  - destruct (status_code =? 200).
    + right. eexists. reflexivity.
    + pose proof (gemini_text persona um kc
                    (assign_use_ollama W false (set_world W w (emit W PostOllama self))))
        as H.
      cbn [emit] in H.
      destruct (_generate_gemini_response W net persona um kc _) as [text self2].
      exact H.
Qed.

Lemma generate_response_text (persona : agent_persona) (um kc : string)
  (self : service W) :
  fst (generate_response W net persona um kc self) = APOLOGY
  \/ exists generated_text,
       fst (generate_response W net persona um kc self)
       = _clean_and_validate_response generated_text kc um.
Proof.
  rewrite generate_response_halves. apply dispatch_text.
Qed.

Lemma generate_response_well_formed (persona : agent_persona) (um kc : string)
  (self : service W) :
  endswith_any TERMINATORS (fst (generate_response W net persona um kc self)) = true
  /\ 13 <= String.length (fst (generate_response W net persona um kc self)).
Proof.
  destruct (generate_response_text persona um kc self) as [-> | [g ->]].
  - split; [ reflexivity | vm_compute; lia ].
  - split; [ apply clean_ends_with_terminator | apply clean_length ].
Qed.

Lemma gemini_down (persona : agent_persona) (um kc : string) (self : service W) :
  (forall w, fst (generate_content W net kc um w) = GeminiRaises) ->
  fst (_generate_gemini_response W net persona um kc self) = APOLOGY.
Proof.
  intros H. unfold _generate_gemini_response. cbn [emit world].
  specialize (H (world self)).
  destruct (generate_content W net kc um (world self)) as [reply w].
  cbn [fst] in H. rewrite H. reflexivity.
Qed.

Lemma dispatch_down (persona : agent_persona) (um kc : string) (self : service W) :
  (forall w, local_call_fails W net persona um kc w) ->
  (forall w, fst (generate_content W net kc um w) = GeminiRaises) ->
  use_ollama self <> None ->
  fst (dispatch W net persona um kc self) = APOLOGY
  /\ use_ollama (snd (dispatch W net persona um kc self)) = Some false.
Proof.
  intros Hlocal Hremote Hpin. unfold dispatch.
  destruct (use_ollama self) as [[ | ] | ] eqn:E; [ | | contradiction ].
  - specialize (Hlocal (world self)). unfold local_call_fails in Hlocal.
    unfold _generate_ollama_response.
    destruct (persona_goal persona) as [role | ].
    + cbv zeta. cbn [emit world].
      destruct (post_api_generate W net role kc um (world self)) as [reply w].
      cbn [fst] in Hlocal.
      pose proof (gemini_down persona um kc
                    (assign_use_ollama W false (set_world W w (emit W PostOllama self)))
                    Hremote) as Ht.
      pose proof (gemini_effect W net persona um kc
                    (assign_use_ollama W false (set_world W w (emit W PostOllama self))))
        as [Hu _].
      cbn [emit] in Ht, Hu.
      destruct reply as [ | status_code response ].
      * destruct (_generate_gemini_response W net persona um kc _) as [text self2].
        split; [ exact Ht | exact Hu ].
      * destruct (Nat.eqb_spec status_code 200) as [E200 | _];
          [ contradiction | ].
        destruct (_generate_gemini_response W net persona um kc _) as [text self2].
        split; [ exact Ht | exact Hu ].
    + split; [ apply gemini_down; exact Hremote | ].
      rewrite (proj1 (gemini_effect W net persona um kc _)). reflexivity.
  - split; [ apply gemini_down; exact Hremote | ].
    rewrite (proj1 (gemini_effect W net persona um kc _)). exact E.
Qed.

Lemma probe_once_pins (self : service W) : use_ollama (probe_once W net self) <> None.
Proof.
  unfold probe_once. destruct (use_ollama self) as [value | ] eqn:E.
  - rewrite E. discriminate.
  - cbn [emit world].
    destruct (_check_ollama_availability W net (world self)) as [available w].
    discriminate.
Qed.

End RouterReplies.


(** X16: when the local backend fails in every world (the prompt cannot be
    built, the request raises, or the status is not 200) and the remote
    backend raises in every world, [generate_response] returns the apology
    and leaves the pin remote, whatever the pin was. *)
Theorem both_backends_down_apologises
  (W : Type) (net : backends W) (persona : agent_persona) (um kc : string)
  (self : service W) :
  (forall w, local_call_fails W net persona um kc w) ->
  (forall w, fst (generate_content W net kc um w) = GeminiRaises) ->
  fst (generate_response W net persona um kc self) = APOLOGY
  /\ use_ollama (snd (generate_response W net persona um kc self)) = Some false.
Proof.
  intros Hlocal Hremote. rewrite generate_response_halves.
  apply dispatch_down; [ exact Hlocal | exact Hremote | apply probe_once_pins ].
Qed.

Lemma both_backends_down_apologises_witness :
  fst (generate_response unit both_down
         {| persona_personality := PersonalityAbsent |} "When do you open?" ""
         (HybridLLMService unit tt)) = APOLOGY
  /\ use_ollama (snd (generate_response unit both_down
                        {| persona_personality := PersonalityAbsent |}
                        "When do you open?" "" (HybridLLMService unit tt)))
     = Some false.
Proof.
  apply (both_backends_down_apologises unit both_down
           {| persona_personality := PersonalityAbsent |} "When do you open?" ""
           (HybridLLMService unit tt)).
  - intros w. vm_compute. exact I.
  - intros w. reflexivity.
Defined.

(** X17: an answer of the local backend with status 200 and no text (the
    key is missing, or the text is empty or white space) is not a failure:
    the reply is the canonical sentence, the pin stays local and the remote
    backend is not asked. *)
Theorem local_answer_without_text
  (W : Type) (net : backends W) (persona : agent_persona) (um kc role : string)
  (self : service W) (response : option string) (w' : W) :
  use_ollama self = Some true ->
  persona_goal persona = Some role ->
  post_api_generate W net role kc um (world self) = (OllamaStatus 200 response, w') ->
  strip (match response with Some r => r | None => "" end) = "" ->
  generate_response W net persona um kc self
  = (CANONICAL_FALLBACK,
     {| use_ollama := Some true; world := w';
        trace := (trace self ++ [PostOllama])%list |}).
Proof.
  intros Hpin Hgoal Hpost Hstrip. rewrite generate_response_halves.
  unfold probe_once, dispatch. rewrite Hpin. cbv beta iota. rewrite ?Hpin.
  unfold _generate_ollama_response. rewrite Hgoal. cbv zeta. cbn [emit world].
  rewrite Hpost. cbn [Nat.eqb]. cbv beta iota. rewrite Hstrip.
  unfold set_world, emit. cbn [use_ollama world trace]. rewrite Hpin.
  reflexivity.
Qed.

Lemma local_answer_without_text_witness :
  generate_response unit silent_local
    {| persona_personality := PersonalityAbsent |} "When do you open?" ""
    {| use_ollama := Some true; world := tt; trace := [] |}
  = (CANONICAL_FALLBACK,
     {| use_ollama := Some true; world := tt; trace := [PostOllama] |}).
Proof.
  apply (local_answer_without_text unit silent_local
           {| persona_personality := PersonalityAbsent |} "When do you open?" ""
           "Represent the organization"
           {| use_ollama := Some true; world := tt; trace := [] |} None tt);
    reflexivity.
Defined.

(** X18: a persona whose personality has no [get] makes the prompt of the
    local backend fail before any request: with the pin local,
    [generate_response] sends nothing to the local backend, sets the pin
    remote and asks the remote backend. *)
Theorem malformed_persona_skips_local_backend
  (W : Type) (net : backends W) (persona : agent_persona) (um kc : string)
  (self : service W) :
  use_ollama self = Some true ->
  persona_personality persona = PersonalityOther ->
  trace (snd (generate_response W net persona um kc self))
  = (trace self ++ [SetUseOllama false; CallGemini])%list
  /\ use_ollama (snd (generate_response W net persona um kc self)) = Some false
  /\ fst (generate_response W net persona um kc self)
     = fst (_generate_gemini_response W net persona um kc
              (assign_use_ollama W false self)).
Proof.
  intros Hpin Hother. rewrite generate_response_halves.
  unfold probe_once, dispatch. rewrite Hpin. cbv beta iota. rewrite ?Hpin.
  unfold _generate_ollama_response, persona_goal. rewrite Hother.
  cbv beta iota.
  destruct (gemini_effect W net persona um kc (assign_use_ollama W false self))
    as [Hu Ht].
  split; [ | split; [ | reflexivity ] ].
  - rewrite Ht. cbn [assign_use_ollama trace]. rewrite <- app_assoc. reflexivity.
  - rewrite Hu. reflexivity.
Qed.

Lemma malformed_persona_skips_local_backend_witness :
  trace (snd (generate_response unit failing_local
                {| persona_personality := PersonalityOther |} "When do you open?" ""
                {| use_ollama := Some true; world := tt; trace := [] |}))
  = [SetUseOllama false; CallGemini].
Proof.
  apply (malformed_persona_skips_local_backend unit failing_local
           {| persona_personality := PersonalityOther |} "When do you open?" ""
           {| use_ollama := Some true; world := tt; trace := [] |});
    reflexivity.
Defined.

(** ** Texts the cleaner leaves alone *)

Lemma replace_from_absent (old new s : string) :
  str_in old s = false -> replace_from old new 0 s = s.
Proof.
  induction s as [ | c s IH ]; [ reflexivity | ].
  cbn [str_in replace_from]. intros H.
  apply orb_false_iff in H. destruct H as [Hp Hs].
  rewrite Hp, (IH Hs). reflexivity.
Qed.

Lemma str_in_prefix (needle hay : string) :
  String.prefix needle hay = true -> str_in needle hay = true.
Proof.
  intros H. destruct hay; cbn [str_in]; rewrite H; reflexivity.
Qed.

Lemma prefix_app_str_in (before needle hay : string) :
  String.prefix (before ++ needle) hay = true -> str_in needle hay = true.
Proof.
  revert hay. induction before as [ | c before IH ]; intros hay H.
  - apply str_in_prefix. exact H.
  - destruct hay as [ | d hay ]; [ discriminate H | ].
    cbn [append String.prefix] in H.
    destruct (ascii_dec c d); [ | discriminate H ].
    cbn [str_in]. rewrite (IH hay H). apply orb_true_r.
Qed.

Lemma str_in_app (before needle hay : string) :
  str_in (before ++ needle) hay = true -> str_in needle hay = true.
Proof.
  induction hay as [ | d hay IH ]; intros H; cbn [str_in] in H.
  - rewrite orb_false_r in H. apply (prefix_app_str_in before). exact H.
  - apply orb_true_iff in H. destruct H as [H | H].
    + apply (prefix_app_str_in before). exact H.
    + cbn [str_in]. rewrite (IH H). apply orb_true_r.
Qed.

(** X19: a text without the tokens [Assistant:], [AI:] and [Response:],
    without white space at its ends and without the support sentence, of 15
    characters or more and ending with a terminator, comes out of
    [_clean_and_validate_response] unchanged. *)
Theorem well_formed_text_is_kept (response kc um : string) :
  str_in "Assistant:" response = false ->
  str_in "AI:" response = false ->
  str_in "Response:" response = false ->
  strip response = response ->
  str_in "I'm here to provide support based on our documentation" response = false ->
  15 <= String.length response ->
  endswith_any TERMINATORS response = true ->
  _clean_and_validate_response response kc um = response.
Proof.
  intros Hassistant Hai Hresponse Hstrip Hsupport Hlen Hend.
  assert (Hyour : str_in "Your Response:" response = false).
  { destruct (str_in "Your Response:" response) eqn:E; [ | reflexivity ].
    apply (str_in_app "Your " "Response:") in E. congruence. }
  assert (Hclean : strip_scaffolding response = response).
  { unfold strip_scaffolding, replace.
    rewrite (replace_from_absent "Assistant:" "" response Hassistant).
    rewrite (replace_from_absent "AI:" "" response Hai).
    rewrite (replace_from_absent "Response:" "" response Hresponse).
    rewrite (replace_from_absent "Your Response:" "" response Hyour).
    exact Hstrip. }
  rewrite clean_unfold. cbv zeta. rewrite Hclean, Hsupport, Hend.
  destruct (Nat.ltb_spec (String.length response) 15); [ lia | reflexivity ].
Qed.

Lemma well_formed_text_is_kept_witness :
  _clean_and_validate_response "We open at nine on weekdays." "" ""
  = "We open at nine on weekdays.".
Proof.
  apply (well_formed_text_is_kept "We open at nine on weekdays." "" "");
    try reflexivity.
  vm_compute. lia.
Defined.

(** ** The conversation engine *)

Section EngineReplies.

Variable W : Type.
Variable net : backends W.
Variable env : ConversationEngine.environment W.

(** The ways a turn of the engine ends. *)
Lemma engine_turn_cases (agent_id : string)
  (conversation_log : list ConversationEngine.log_entry) (w : W) :
  let turn := ConversationEngine.generate_response W net env agent_id
                conversation_log w in
  (snd turn = None
   /\ In (fst (fst turn))
        [ ConversationEngine.TROUBLE; ConversationEngine.NOT_ABLE;
          ConversationEngine.DID_NOT_CATCH; ConversationEngine.NO_DOCUMENTS ])
  \/ (exists persona kc w1,
        truthy (ConversationEngine.latest_human (rev conversation_log)) = true
        /\ turn
           = (fst (generate_response W net persona
                     (ConversationEngine.text_of
                        (ConversationEngine.latest_human (rev conversation_log)))
                     kc (HybridLLMService W w1)),
              world (snd (generate_response W net persona
                            (ConversationEngine.text_of
                               (ConversationEngine.latest_human
                                  (rev conversation_log)))
                            kc (HybridLLMService W w1))),
              Some (snd (generate_response W net persona
                           (ConversationEngine.text_of
                              (ConversationEngine.latest_human
                                 (rev conversation_log)))
                           kc (HybridLLMService W w1))))).
Proof.
  cbv zeta. unfold ConversationEngine.generate_response.
  destruct (ConversationEngine.get_agent env agent_id w) as [[[agent | ] | ] w1].
  - destruct (truthy (ConversationEngine.latest_human (rev conversation_log)))
      eqn:Hmsg; cbn [negb].
    + destruct (ConversationEngine.documents env w1) as [[stored | ] w2].
      * destruct (List.length stored =? 0).
        -- left. split; [ reflexivity | cbn; tauto ].
        -- destruct (ConversationEngine.load_all stored) as [all_documents | ].
           ++ right. cbv zeta.
              exists {| persona_personality :=
                          ConversationEngine.agent_personality agent |},
                (ConversationEngine._prepare_full_knowledge_context all_documents),
                w2.
              split; [ reflexivity | ].
              destruct (generate_response W net _ _ _ (HybridLLMService W w2))
                as [response llm_service].
              reflexivity.
           ++ left. split; [ reflexivity | cbn; tauto ].
      * left. split; [ reflexivity | cbn; tauto ].
    + left. split; [ reflexivity | cbn; tauto ].
  - destruct (ConversationEngine.list_agents env w1) as [[u | ] w2];
      left; (split; [ reflexivity | cbn; tauto ]).
  - left. split; [ reflexivity | cbn; tauto ].
Qed.

End EngineReplies.

(** X20: every reply of the engine's [generate_response], from its early
    exits, its [except] branch or the LLM service, ends with a terminator
    and has at least 13 characters. *)
Theorem engine_reply_is_well_formed
  (W : Type) (net : backends W) (env : ConversationEngine.environment W)
  (agent_id : string) (conversation_log : list ConversationEngine.log_entry)
  (w : W) :
  endswith_any TERMINATORS
    (fst (fst (ConversationEngine.generate_response W net env agent_id
                 conversation_log w))) = true
  /\ 13 <= String.length
             (fst (fst (ConversationEngine.generate_response W net env agent_id
                          conversation_log w))).
Proof.
  destruct (engine_turn_cases W net env agent_id conversation_log w)
    as [[_ Hin] | (persona & kc & w1 & _ & ->)].
  - cbn [In] in Hin.
    destruct Hin as [<- | [<- | [<- | [<- | []]]]];
      (split; [ reflexivity | vm_compute; lia ]).
  - cbn [fst]. apply generate_response_well_formed.
Qed.

(** X21: the engine creates a new LLM service on every turn that reaches
    the LLM, so the pin of an earlier turn is never reused: on such a turn
    the service starts with the probe of the local backend and the
    assignment of the pin, makes no other probe, ends with the pin set, and
    is asked about the latest human message, which is not empty. *)
Theorem every_llm_turn_probes_afresh
  (W : Type) (net : backends W) (env : ConversationEngine.environment W)
  (agent_id : string) (conversation_log : list ConversationEngine.log_entry)
  (w : W) (llm : service W) :
  snd (ConversationEngine.generate_response W net env agent_id
         conversation_log w) = Some llm ->
  (exists value t,
     trace llm = Probe :: SetUseOllama value :: t /\ probes t = 0)
  /\ use_ollama llm <> None
  /\ truthy (ConversationEngine.latest_human (rev conversation_log)) = true.
Proof.
  intros Hllm.
  destruct (engine_turn_cases W net env agent_id conversation_log w)
    as [[Hnone _] | (persona & kc & w1 & Hmsg & E)].
  - rewrite Hnone in Hllm. discriminate Hllm.
  - rewrite E in Hllm. cbn [snd] in Hllm. injection Hllm as <-.
    destruct (generate_response_effect W net persona
                (ConversationEngine.text_of
                   (ConversationEngine.latest_human (rev conversation_log)))
                kc (HybridLLMService W w1))
      as [t [Ht _ Hset _ Hfirst _]].
    split; [ | split; [ exact Hset | exact Hmsg ] ].
    destruct (Hfirst eq_refl) as (value & t' & -> & Hp).
    exists value, t'. split; [ exact Ht | exact Hp ].
Qed.

Lemma every_llm_turn_probes_afresh_witness :
  exists value t,
    trace (snd (generate_response unit failing_local
                  {| persona_personality := PersonalityAbsent |}
                  "When do you open?"
                  (ConversationEngine._prepare_full_knowledge_context
                     [ {| ConversationEngine.doc_title := Some "Hours";
                          ConversationEngine.doc_content := Some "We open at nine.";
                          ConversationEngine.doc_categories := Some [] |} ])
                  (HybridLLMService unit tt)))
    = Probe :: SetUseOllama value :: t
    /\ probes t = 0.
Proof.
  apply (every_llm_turn_probes_afresh unit failing_local an_engine "agent"
           [ {| ConversationEngine.speaker := "human";
                ConversationEngine.message := "When do you open?" |} ] tt).
  reflexivity.
Defined.

Lemma latest_human_skips (others rest : list ConversationEngine.log_entry) :
  Forall (fun entry => ConversationEngine.speaker entry <> "human") others ->
  ConversationEngine.latest_human (others ++ rest)
  = ConversationEngine.latest_human rest.
Proof.
  induction 1 as [ | entry others Hentry _ IH ]; [ reflexivity | ].
  cbn [app ConversationEngine.latest_human].
  apply String.eqb_neq in Hentry. rewrite Hentry. exact IH.
Qed.

Lemma latest_human_found (earlier later : list ConversationEngine.log_entry)
  (entry : ConversationEngine.log_entry) :
  ConversationEngine.speaker entry = "human" ->
  Forall (fun e => ConversationEngine.speaker e <> "human") later ->
  ConversationEngine.latest_human (rev (earlier ++ entry :: later))
  = Some (ConversationEngine.message entry).
Proof.
  intros Hentry Hlater.
  rewrite rev_app_distr. cbn [rev]. rewrite <- app_assoc.
  rewrite latest_human_skips by (apply Forall_rev; exact Hlater).
  cbn [app ConversationEngine.latest_human]. rewrite Hentry. reflexivity.
Qed.

(** X22: the engine answers the last entry of the human speaker only.  When
    that entry has an empty message the reply is the request to repeat,
    whatever the human said in earlier entries, and the turn stops after
    the agent lookup: the knowledge base is not read and no LLM service is
    created.  When it has a text, the turn does not end with that
    request unless the LLM service is asked. *)
Theorem last_human_entry_decides
  (W : Type) (net : backends W) (env : ConversationEngine.environment W)
  (agent_id : string)
  (earlier later : list ConversationEngine.log_entry)
  (entry : ConversationEngine.log_entry)
  (w w1 : W) (agent : ConversationEngine.agent) :
  ConversationEngine.get_agent env agent_id w = (Some (Some agent), w1) ->
  ConversationEngine.speaker entry = "human" ->
  Forall (fun e => ConversationEngine.speaker e <> "human") later ->
  (ConversationEngine.message entry = "" ->
   ConversationEngine.generate_response W net env agent_id
     (earlier ++ entry :: later) w
   = (ConversationEngine.DID_NOT_CATCH, w1, None))
  /\ (ConversationEngine.message entry <> "" ->
      snd (ConversationEngine.generate_response W net env agent_id
             (earlier ++ entry :: later) w) = None ->
      In (fst (fst (ConversationEngine.generate_response W net env agent_id
                      (earlier ++ entry :: later) w)))
        [ ConversationEngine.TROUBLE; ConversationEngine.NO_DOCUMENTS ]).
Proof.
  intros Hagent Hentry Hlater.
  unfold ConversationEngine.generate_response. rewrite Hagent.
  rewrite (latest_human_found earlier later entry Hentry Hlater).
  split.
  - intros ->. reflexivity.
  - intros Hmsg.
    assert (Ht : truthy (Some (ConversationEngine.message entry)) = true).
    { destruct (ConversationEngine.message entry); [ contradiction | reflexivity ]. }
    rewrite Ht. cbn [negb].
    destruct (ConversationEngine.documents env w1) as [[stored | ] w2];
      [ | intros _; cbn; tauto ].
    destruct (List.length stored =? 0); [ intros _; cbn; tauto | ].
    destruct (ConversationEngine.load_all stored) as [all_documents | ];
      [ | intros _; cbn; tauto ].
    cbv zeta.
    destruct (generate_response W net _ _ _ (HybridLLMService W w2))
      as [response llm_service].
    cbn [snd]. discriminate.
Qed.

Lemma last_human_entry_decides_witness :
  ConversationEngine.generate_response unit failing_local an_engine "agent"
    [ {| ConversationEngine.speaker := "human";
         ConversationEngine.message := "When do you open?" |};
      {| ConversationEngine.speaker := "human";
         ConversationEngine.message := "" |};
      {| ConversationEngine.speaker := "agent";
         ConversationEngine.message := "Hello!" |} ] tt
  = (ConversationEngine.DID_NOT_CATCH, tt, None).
Proof.
  assert (Hlater :
            Forall (fun e => ConversationEngine.speaker e <> "human")
              [ {| ConversationEngine.speaker := "agent";
                   ConversationEngine.message := "Hello!" |} ])
    by (constructor; [ discriminate | constructor ]).
  apply (proj1 (last_human_entry_decides unit failing_local an_engine "agent"
                  [ {| ConversationEngine.speaker := "human";
                       ConversationEngine.message := "When do you open?" |} ]
                  [ {| ConversationEngine.speaker := "agent";
                       ConversationEngine.message := "Hello!" |} ]
                  {| ConversationEngine.speaker := "human";
                     ConversationEngine.message := "" |}
                  tt tt {| ConversationEngine.agent_personality := PersonalityAbsent |}
                  eq_refl eq_refl Hlater)).
  reflexivity.
Defined.

Lemma validate_recommends (audio_data : bytes) :
  len audio_data < 2000 ->
  exists recommendation,
    v_recommendation (_validate_audio_data audio_data) = Some recommendation
    /\ truthy (Some recommendation) = true.
Proof.
  intros Hlen. unfold _validate_audio_data.
  destruct (len audio_data =? 0); [ eexists; split; reflexivity | ].
  destruct (len audio_data <? 44); [ eexists; split; reflexivity | ].
  destruct (len audio_data <? 1000); [ eexists; split; reflexivity | ].
  destruct (Nat.ltb_spec (len audio_data) 2000) as [_ | G];
    [ eexists; split; reflexivity | lia ].
Qed.

Lemma process_speech_input_cases
  (W : Type) (net : backends W) (chain : collaborators W)
  (env : ConversationEngine.environment W)
  (audio_data : bytes) (agent_id : string) (w : W) :
  let turn :=
    ConversationEngine.process_speech_input W net chain env audio_data agent_id w in
  let reply := fst (fst turn) in
  (ConversationEngine.success reply = true <-> 500 <= len audio_data)
  /\ ConversationEngine.audio_validation reply = _validate_audio_data audio_data
  /\ (len audio_data < 500 ->
      ConversationEngine.transcribed_text reply = None
      /\ ConversationEngine.error reply = v_error (_validate_audio_data audio_data)
      /\ v_recommendation (_validate_audio_data audio_data)
         = Some (ConversationEngine.response_text reply)
      /\ snd turn
         = [ ConversationEngine.Engine_speech_to_text [];
             ConversationEngine.Engine_text_to_speech
               (ConversationEngine.response_text reply) ])
  /\ (500 <= len audio_data ->
      exists text calls llm,
        text <> ""
        /\ ConversationEngine.transcribed_text reply = Some text
        /\ ConversationEngine.error reply = None
        /\ snd turn
           = [ ConversationEngine.Engine_speech_to_text calls;
               ConversationEngine.Engine_generate_response
                 [ {| ConversationEngine.speaker := "human";
                      ConversationEngine.message := text |} ] llm;
               ConversationEngine.Engine_text_to_speech
                 (ConversationEngine.response_text reply) ]).
Proof.
  cbv zeta. unfold ConversationEngine.process_speech_input.
  destruct (Nat.lt_ge_cases (len audio_data) 500) as [L | G].
  - rewrite (speech_to_text_short W chain audio_data (w, []) L).
    cbn [truthy negb].
    destruct (validate_recommends audio_data) as (recommendation & Hr & Ht);
      [ lia | ].
    rewrite Hr, Ht. cbn [ConversationEngine.text_of].
    destruct (ConversationEngine.text_to_speech env recommendation agent_id w)
      as [audio_response w1].
    cbn [fst snd ConversationEngine.success ConversationEngine.audio_validation
         ConversationEngine.transcribed_text ConversationEngine.error
         ConversationEngine.response_text].
    split; [ split; [ discriminate | lia ] | ].
    split; [ reflexivity | ].
    split; [ intros _; repeat split; exact Hr | intros G; lia ].
  - pose proof (speech_to_text_answers W chain audio_data (w, []) G) as Hheard.
    destruct (speech_to_text W chain audio_data (w, []))
      as [transcribed_text [w1 calls]].
    cbn [fst] in Hheard. rewrite Hheard. cbn [negb].
    destruct transcribed_text as [text | ]; [ | discriminate Hheard ].
    cbn [ConversationEngine.text_of].
    destruct (ConversationEngine.generate_response W net env agent_id _ w1)
      as [[response_text w2] llm].
    destruct (ConversationEngine.text_to_speech env response_text agent_id w2)
      as [audio_response w3].
    cbn [fst snd ConversationEngine.success ConversationEngine.audio_validation
         ConversationEngine.transcribed_text ConversationEngine.error
         ConversationEngine.response_text].
    split; [ split; [ intros _; exact G | reflexivity ] | ].
    split; [ reflexivity | ].
    split; [ intros L; lia | ].
    intros _. exists text, calls, llm.
    split; [ | repeat split ].
    intros ->. discriminate Hheard.
Qed.


(** X23: [process_speech_input] reports success exactly for blobs of 500
    bytes or more.  Below 500 bytes it runs no recognition strategy and no
    LLM turn, and its error and its spoken reply are the diagnostic and the
    recommendation of the gate (the generic messages are never used).  From
    500 bytes on it always has a transcript that is not empty, which it
    passes to the engine as a log of one human entry, and it speaks the
    engine's reply. *)
Theorem speech_turn_succeeds_iff_500_bytes
  (W : Type) (net : backends W) (chain : collaborators W)
  (env : ConversationEngine.environment W)
  (audio_data : bytes) (agent_id : string) (w : W) :
  let turn :=
    ConversationEngine.process_speech_input W net chain env audio_data agent_id w in
  let reply := fst (fst turn) in
  (ConversationEngine.success reply = true <-> 500 <= len audio_data)
  /\ ConversationEngine.audio_validation reply = _validate_audio_data audio_data
  /\ (len audio_data < 500 ->
      ConversationEngine.transcribed_text reply = None
      /\ ConversationEngine.error reply = v_error (_validate_audio_data audio_data)
      /\ v_recommendation (_validate_audio_data audio_data)
         = Some (ConversationEngine.response_text reply)
      /\ snd turn
         = [ ConversationEngine.Engine_speech_to_text [];
             ConversationEngine.Engine_text_to_speech
               (ConversationEngine.response_text reply) ])
  /\ (500 <= len audio_data ->
      exists text calls llm,
        text <> ""
        /\ ConversationEngine.transcribed_text reply = Some text
        /\ ConversationEngine.error reply = None
        /\ snd turn
           = [ ConversationEngine.Engine_speech_to_text calls;
               ConversationEngine.Engine_generate_response
                 [ {| ConversationEngine.speaker := "human";
                      ConversationEngine.message := text |} ] llm;
               ConversationEngine.Engine_text_to_speech
                 (ConversationEngine.response_text reply) ]).
Proof.
  apply process_speech_input_cases.
Qed.

Lemma speech_turn_succeeds_iff_500_bytes_witness :
  v_recommendation (_validate_audio_data (repeat x00 50))
  = Some (ConversationEngine.response_text
            (fst (fst (ConversationEngine.process_speech_input unit failing_local
                         (stand_in None (fun _ => None)) an_engine
                         (repeat x00 50) "agent" tt)))).
Proof.
  pose proof (speech_turn_succeeds_iff_500_bytes unit failing_local
                (stand_in None (fun _ => None)) an_engine
                (repeat x00 50) "agent" tt) as H.
  cbv zeta in H. destruct H as (_ & _ & Hshort & _).
  destruct Hshort as (_ & _ & Hr & _); [ vm_compute; lia | ].
  exact Hr.
Defined.

(** ** The knowledge context *)

Lemma join_length (sep : string) (parts : list string) :
  parts <> [] ->
  String.length (ConversationEngine.join sep parts) + String.length sep
  = list_sum (map (fun part => String.length part + String.length sep) parts).
Proof.
  induction parts as [ | part rest IH ]; [ intros H; contradiction | intros _ ].
  destruct rest as [ | next rest ].
  - cbn [ConversationEngine.join map list_sum fold_right]. lia.
  - change (ConversationEngine.join sep (part :: next :: rest))
      with (part ++ sep ++ ConversationEngine.join sep (next :: rest))%string.
    rewrite !length_append.
    change (list_sum (map (fun p => String.length p + String.length sep)
                        (part :: next :: rest)))
      with (String.length part + String.length sep
            + list_sum (map (fun p => String.length p + String.length sep)
                          (next :: rest))).
    rewrite <- IH by discriminate. lia.
Qed.

Lemma list_sum_flat_map {A B} (f : B -> nat) (g : A -> list B) (l : list A) :
  list_sum (map f (flat_map g l))
  = list_sum (map (fun a => list_sum (map f (g a))) l).
Proof.
  induction l as [ | a l IH ]; [ reflexivity | ].
  cbn [flat_map map]. rewrite map_app, list_sum_app, IH. reflexivity.
Qed.

Lemma length_substring_0 (n : nat) (s : string) :
  n <= String.length s -> String.length (substring 0 n s) = n.
Proof.
  revert s. induction n as [ | n IH ]; intros s H.
  - destruct s; reflexivity.
  - destruct s as [ | c s ]; [ cbn in H; lia | ].
    cbn [substring String.length]. rewrite IH; [ reflexivity | ].
    cbn [String.length] in H. lia.
Qed.

Lemma context_parts_length (doc : ConversationEngine.document) :
  list_sum (map (fun part => String.length part
                             + String.length ConversationEngine.NEWLINE)
              (ConversationEngine.context_parts doc))
  = 44
    + String.length
        (ConversationEngine.get (ConversationEngine.doc_title doc) "Document")
    + String.length
        (ConversationEngine.join ", "
           (ConversationEngine.get (ConversationEngine.doc_categories doc) []))
    + (if 5000 <? String.length
                    (ConversationEngine.get (ConversationEngine.doc_content doc) "")
       then 5023
       else String.length
              (ConversationEngine.get (ConversationEngine.doc_content doc) "")).
Proof.
  unfold ConversationEngine.context_parts. cbv zeta.
  cbn [map list_sum fold_right]. rewrite !length_append.
  change (String.length ConversationEngine.NEWLINE) with 1.
  change (String.length "Document Title: ") with 16.
  change (String.length "Categories: ") with 12.
  change (String.length "Content: ") with 9.
  change (String.length "---") with 3.
  destruct (Nat.ltb_spec 5000
              (String.length
                 (ConversationEngine.get (ConversationEngine.doc_content doc) "")))
    as [L | G].
  - rewrite length_append, length_substring_0 by (apply Nat.lt_le_incl; exact L).
    change (String.length "... [content truncated]") with 23.
    change 5023 with (5000 + 23). lia.
  - lia.
Qed.

(** X24: the length of the knowledge context is exact and bounded per
    document: with a line feed counted after each of its four lines, a
    document contributes 44 characters of labels, its title (or the word
    Document), its categories joined by a comma and a space, and its
    content, which counts as it is up to 5000 characters and as exactly
    5023 characters (the first 5000 and the truncation marker) beyond.
    Without documents the context is empty. *)
Theorem knowledge_context_length
  (all_documents : list ConversationEngine.document) :
  ConversationEngine._prepare_full_knowledge_context [] = ""
  /\ (all_documents <> [] ->
      String.length
        (ConversationEngine._prepare_full_knowledge_context all_documents) + 1
      = list_sum
          (map (fun doc =>
                  44
                  + String.length
                      (ConversationEngine.get
                         (ConversationEngine.doc_title doc) "Document")
                  + String.length
                      (ConversationEngine.join ", "
                         (ConversationEngine.get
                            (ConversationEngine.doc_categories doc) []))
                  + (if 5000 <? String.length
                                  (ConversationEngine.get
                                     (ConversationEngine.doc_content doc) "")
                     then 5023
                     else String.length
                            (ConversationEngine.get
                               (ConversationEngine.doc_content doc) "")))
             all_documents)).
Proof.
  split; [ reflexivity | ].
  intros Hdocs. unfold ConversationEngine._prepare_full_knowledge_context.
  change 1 with (String.length ConversationEngine.NEWLINE) at 1.
  rewrite join_length.
  - rewrite list_sum_flat_map. f_equal. apply map_ext.
    intros doc. apply context_parts_length.
  - destruct all_documents as [ | doc rest ]; [ contradiction | ].
    cbn [flat_map ConversationEngine.context_parts app]. discriminate.
Qed.

Lemma knowledge_context_length_witness :
  String.length
    (ConversationEngine._prepare_full_knowledge_context
       [ {| ConversationEngine.doc_title := Some "Hours";
            ConversationEngine.doc_content := Some "We open at nine.";
            ConversationEngine.doc_categories := None |} ]) + 1
  = 65.
Proof.
  apply (proj2 (knowledge_context_length
                  [ {| ConversationEngine.doc_title := Some "Hours";
                       ConversationEngine.doc_content := Some "We open at nine.";
                       ConversationEngine.doc_categories := None |} ])).
  discriminate.
Defined.

(** ** The WAV readings of raw data *)



(** ** The fallback sentences and the cleaner *)

(** X26: [_get_fallback_response] answers one of three sentences, by agent
    type ([support] when the key is missing).  The support sentence is the
    one [_clean_and_validate_response] takes for a failed answer: cleaning
    replaces it with the canonical sentence, and leaves the two others
    unchanged. *)
Theorem fallback_sentence_through_cleaner
  (agent_type : option string) (kc um : string) :
  _clean_and_validate_response (_get_fallback_response agent_type) kc um
  = if match agent_type with
       | Some t => (t =? "support")%string
       | None => true
       end
    then CANONICAL_FALLBACK
    else _get_fallback_response agent_type.
Proof.
  unfold _get_fallback_response.
  destruct agent_type as [t | ]; [ | reflexivity ].
  destruct (String.eqb_spec t "sales") as [-> | Hsales]; [ reflexivity | ].
  destruct (t =? "support")%string; reflexivity.
Qed.

(** ** The endpoint *)

(** X27: [speech_chat] reports success exactly when the agent exists and
    the blob has 500 bytes or more.  An unknown agent, or a lookup that
    raises, does not leave the handler as an HTTP error: the reply is the
    dictionary of its [except] branch, and the engine is not run.  Every
    failure has an empty transcript, no audio and one of two fixed
    sentences.  For an existing agent and a blob under 500 bytes the error
    is the diagnostic of the gate, while the recommendation of the gate,
    which the engine had turned into speech, is replaced by the fixed
    sentence and its audio is dropped. *)
Theorem endpoint_drops_the_recommendation
  (W : Type) (net : backends W) (chain : collaborators W)
  (env : ConversationEngine.environment W)
  (audio_data : bytes) (agent_id : string) (w : W) :
  let outcome := speech_chat W net chain env audio_data agent_id w in
  let reply := fst (fst outcome) in
  (chat_success reply = true <->
   (exists agent w1,
      ConversationEngine.get_agent env agent_id w = (Some (Some agent), w1))
   /\ 500 <= len audio_data)
  /\ (forall w1,
        ConversationEngine.get_agent env agent_id w = (Some None, w1)
        \/ ConversationEngine.get_agent env agent_id w = (None, w1) ->
        outcome
        = ({| chat_success := false; chat_error_msg := Some Server_error;
              chat_transcribed_text := "";
              chat_response_text := TECHNICAL_DIFFICULTIES;
              chat_audio_url := None |}, w1, []))
  /\ (chat_success reply = false ->
      chat_transcribed_text reply = ""
      /\ chat_audio_url reply = None
      /\ In (chat_response_text reply) [ SORRY; TECHNICAL_DIFFICULTIES ])
  /\ (forall agent w1,
        ConversationEngine.get_agent env agent_id w = (Some (Some agent), w1) ->
        len audio_data < 500 ->
        chat_error_msg reply
        = Some (Engine_error (v_error (_validate_audio_data audio_data)))
        /\ chat_response_text reply = SORRY
        /\ exists recommendation,
             v_recommendation (_validate_audio_data audio_data)
             = Some recommendation
             /\ snd outcome
                = [ ConversationEngine.Engine_speech_to_text [];
                    ConversationEngine.Engine_text_to_speech recommendation ]).
Proof.
  cbv zeta. unfold speech_chat.
  destruct (ConversationEngine.get_agent env agent_id w)
    as [[[agent | ] | ] w1].
  - pose proof (process_speech_input_cases W net chain env audio_data agent_id w1)
      as H.
    cbv zeta in H. destruct H as (Hiff & _ & Hshort & _).
    destruct (ConversationEngine.process_speech_input W net chain env audio_data
                agent_id w1) as [[result w2] calls].
    cbn [fst snd] in Hiff, Hshort.
    destruct (ConversationEngine.success result) eqn:Hs; cbn [negb fst snd].
    + cbn [chat_success chat_transcribed_text chat_audio_url chat_response_text
           chat_error_msg].
      split.
      { split; [ intros _ | reflexivity ].
        split; [ exists agent, w1; reflexivity | apply Hiff; reflexivity ]. }
      split; [ intros w0 [E | E]; discriminate E | ].
      split; [ discriminate | ].
      intros agent0 w0 _ L. pose proof (proj1 Hiff eq_refl) as G. lia.
    + cbn [chat_success chat_transcribed_text chat_audio_url chat_response_text
           chat_error_msg].
      split.
      { split; [ discriminate | ].
        intros [_ G]. apply Hiff in G. discriminate G. }
      split; [ intros w0 [E | E]; discriminate E | ].
      split; [ intros _; repeat split; left; reflexivity | ].
      intros agent0 w0 _ L.
      destruct (Hshort L) as (_ & He & Hr & Hc).
      rewrite He. split; [ reflexivity | ]. split; [ reflexivity | ].
      exists (ConversationEngine.response_text result).
      split; [ exact Hr | exact Hc ].
  - cbn [fst snd server_error_reply chat_success chat_transcribed_text
         chat_audio_url chat_response_text chat_error_msg].
    split.
    { split; [ discriminate | ].
      intros [(agent & w0 & E) _]. discriminate E. }
    split.
    { intros w0 [E | E]; [ | discriminate E ].
      injection E as <-. reflexivity. }
    split; [ intros _; repeat split; right; left; reflexivity | ].
    intros agent w0 E. discriminate E.
  - cbn [fst snd server_error_reply chat_success chat_transcribed_text
         chat_audio_url chat_response_text chat_error_msg].
    split.
    { split; [ discriminate | ].
      intros [(agent & w0 & E) _]. discriminate E. }
    split.
    { intros w0 [E | E]; [ discriminate E | ].
      injection E as <-. reflexivity. }
    split; [ intros _; repeat split; right; left; reflexivity | ].
    intros agent w0 E. discriminate E.
Qed.

Lemma endpoint_drops_the_recommendation_witness :
  chat_response_text
    (fst (fst (speech_chat unit failing_local (stand_in None (fun _ => None))
                 an_engine (repeat x00 50) "agent" tt)))
  = SORRY.
Proof.
  pose proof (endpoint_drops_the_recommendation unit failing_local
                (stand_in None (fun _ => None)) an_engine
                (repeat x00 50) "agent" tt) as H.
  cbv zeta in H. destruct H as (_ & _ & _ & Hshort).
  destruct (Hshort {| ConversationEngine.agent_personality := PersonalityAbsent |}
              tt eq_refl) as (_ & Hr & _); [ vm_compute; lia | ].
  exact Hr.
Defined.

(** ** The raw-PCM fallback inside [speech_to_text] *)

(** The loop over two lists: the second is tried when the first yields
    nothing. *)
Lemma try_methods_app (W : Type) (self : collaborators W)
  (first second : list (string * method_func W)) (s : W * list call) :
  try_methods W self (first ++ second) s
  = match fst (try_methods W self first s) with
    | Some _ => try_methods W self first s
    | None => try_methods W self second (snd (try_methods W self first s))
    end.
Proof.
  revert s. induction first as [ | [method_name f] rest IH ]; intros s;
    [ reflexivity | ].
  cbn [app]. rewrite !(try_methods_cons W self).
  assert (Hheard : forall (result : option string) (s1 : W * list call),
            (if truthy result then ret result
             else try_methods W self (rest ++ second)) s1
            = match fst ((if truthy result then ret result
                          else try_methods W self rest) s1) with
              | Some _ => (if truthy result then ret result
                           else try_methods W self rest) s1
              | None =>
                  try_methods W self second
                    (snd ((if truthy result then ret result
                           else try_methods W self rest) s1))
              end).
  { intros result s1. destruct (truthy result) eqn:E; [ | apply IH ].
    destruct result as [text | ]; [ reflexivity | discriminate E ]. }
  destruct (startswith "direct_" method_name), f as [body | body].
  - rewrite !(bind_run W). apply Hheard.
  - rewrite !(bind_run W). apply IH.
  - apply IH.
  - rewrite !(bind_run W).
    destruct (fst (body s)) as [audio | ]; [ | apply IH ].
    destruct (usable (Some audio)); [ | apply IH ].
    rewrite !(bind_run W). apply Hheard.
Qed.

(** The strategies listed before the raw-PCM fallback have other names. *)
Lemma format_methods_not_raw
  (W : Type) (self : collaborators W) (audio_data : bytes) (fi : format_info) :
  ~ In "raw_pcm_fallback"
      (map fst
         (if (f_format fi =? "webm")%string then
            [ ("direct_webm",
               Coroutine W (invoke (Call_try_direct_webm_recognition audio_data)
                              (_try_direct_webm_recognition W self audio_data)));
              ("webm_enhanced",
               Plain W (invoke (Call_convert_webm_enhanced audio_data)
                          (_convert_webm_enhanced W self audio_data)));
              ("webm_standard",
               Plain W (invoke (Call_convert_webm_to_wav audio_data)
                          (_convert_webm_to_wav W self audio_data))) ]
          else if f_needs_conversion fi
                  && ((f_format fi =? "mp4") || (f_format fi =? "ogg"))%string
          then
            [ ((f_format fi ++ "_converted")%string,
               Plain W (invoke (Call_convert_container_format_to_wav audio_data
                                  (f_format fi))
                          (_convert_container_format_to_wav W self audio_data
                             (f_format fi)))) ]
          else if f_is_valid fi && (f_format fi =? "wav")%string
          then [ ("original_wav", Plain W (ret (Some audio_data))) ]
          else [])).
Proof.
  destruct (f_format fi =? "webm")%string.
  - cbn. intros [H | [H | [H | []]]]; discriminate H.
  - destruct (f_needs_conversion fi); cbn [andb].
    + destruct (String.eqb_spec (f_format fi) "mp4") as [-> | _];
        [ cbn; intros [H | []]; discriminate H | ].
      destruct (String.eqb_spec (f_format fi) "ogg") as [-> | _];
        [ cbn; intros [H | []]; discriminate H | ].
      cbn [orb]. destruct (f_is_valid fi && (f_format fi =? "wav")%string).
      * cbn. intros [H | []]; discriminate H.
      * intros [].
    + destruct (f_is_valid fi && (f_format fi =? "wav")%string).
      * cbn. intros [H | []]; discriminate H.
      * intros [].
Qed.

(** The fallback on a blob longer than 1000 bytes keeps the 16000 Hz WAV,
    and its entry of the list makes two calls: the reading and the
    recognition of that WAV. *)
Lemma raw_pcm_fallback_run
  (W : Type) (self : collaborators W) (audio_data : bytes) :
  1000 < len audio_data ->
  _try_raw_pcm_variants audio_data
  = Some (_create_wav_from_raw_pcm
            (firstn (len audio_data - len audio_data mod 2) audio_data) 16000 1 2)
  /\ forall w log,
       snd (snd (try_methods W self
                   [ ("raw_pcm_fallback",
                      Plain W (compute (Call_try_raw_pcm_variants audio_data)
                                 (_try_raw_pcm_variants audio_data))) ]
                   (w, log)))
       = (log ++ [ Call_try_raw_pcm_variants audio_data;
                   Call_try_speech_recognition "raw_pcm_fallback"
                     (_create_wav_from_raw_pcm
                        (firstn (len audio_data - len audio_data mod 2) audio_data)
                        16000 1 2) ])%list.
Proof.
  intros Hlen.
  set (wav := _create_wav_from_raw_pcm
                (firstn (len audio_data - len audio_data mod 2) audio_data)
                16000 1 2).
  assert (H16 : _try_raw_pcm_variants audio_data = Some wav).
  { unfold _try_raw_pcm_variants, configs. cbn [first_variant].
    rewrite raw_pcm_variant_long; [ reflexivity | ].
    pose proof (Nat.mod_upper_bound (len audio_data) 2). lia. }
  split; [ exact H16 | ].
  intros w log.
  assert (Hu : usable (Some wav) = true).
  { unfold usable.
    pose proof (create_wav_at_least
                  (firstn (len audio_data - len audio_data mod 2) audio_data)
                  16000 1 2) as Hw.
    rewrite len_trimmed in Hw. fold wav in Hw.
    pose proof (Nat.mod_upper_bound (len audio_data) 2).
    destruct (Nat.eqb_spec (len wav) 0); [ lia | ].
    destruct (Nat.ltb_spec 44 (len wav)); [ reflexivity | lia ]. }
  cbn [try_methods]. change (startswith "direct_" "raw_pcm_fallback") with false.
  cbv beta iota. unfold bind at 1. unfold compute at 1.
  rewrite H16, Hu. unfold bind, invoke.
  destruct (_try_speech_recognition W self "raw_pcm_fallback" wav w) as [result w'].
  rewrite <- app_assoc. cbn [app].
  destruct (truthy result); reflexivity.
Qed.

(** A blob under 2000 bytes never reaches the raw-PCM reading. *)
Lemma no_raw_pcm_reading_under_2000
  (W : Type) (self : collaborators W) (audio_data : bytes) (w : W) (x : bytes) :
  len audio_data < 2000 ->
  ~ In (Call_try_raw_pcm_variants x)
      (snd (snd (speech_to_text W self audio_data (w, [])))).
Proof.
  intros L.
  destruct (Nat.lt_ge_cases (len audio_data) 500) as [S | G].
  - rewrite speech_to_text_short by exact S. intros [].
  - rewrite (speech_to_text_long W self audio_data G).
    destruct (Nat.ltb_spec (len audio_data) 2000) as [_ | G']; [ | lia ].
    destruct (quick_path_calls W self audio_data w) as (t2 & -> & Hl & _);
      [ lia | ].
    intros Hin. apply in_app_or in Hin. destruct Hin as [Hin | Hin].
    + unfold quick_calls in Hin.
      destruct (f_format (_analyze_audio_format audio_data) =? "webm")%string;
        [ | destruct Hin ].
      destruct Hin as [E | Hin]; [ discriminate E | ].
      destruct (fst (_convert_webm_to_wav W self audio_data w)) as [converted | ];
        [ | destruct Hin ].
      destruct (usable (Some converted)); [ | destruct Hin ].
      destruct Hin as [E | []]. discriminate E.
    + destruct Hl as [-> | [-> | ->]].
      * destruct Hin.
      * destruct Hin as [E | []]. discriminate E.
      * destruct Hin as [E | [E | []]]; discriminate E.
Qed.

(** The continuation of the strategy list only adds calls. *)
Lemma after_the_list (W : Type) (self : collaborators W) (audio_data : bytes)
  (result : option string) (s : W * list call) :
  200 <= len audio_data ->
  exists rest,
    snd (snd (match result with
              | Some text => ret (Some text)
              | None => alternatives_then_mock W self audio_data
              end s))
    = (snd s ++ rest)%list.
Proof.
  intros Hlen. destruct result as [text | ].
  - exists []. cbn [ret snd]. rewrite app_nil_r. reflexivity.
  - destruct (last_resort_tail W self audio_data s Hlen) as (t2 & E & _).
    exists t2. exact E.
Qed.

(** C5, amended: [speech_to_text] builds the strategy list only for blobs
    of 2000 bytes or more: a shorter blob returns at once or in the quick
    branch, and the raw-PCM reading is never called on it.  From 2000
    bytes on the test of the length against 1000 bytes holds, so the
    raw-PCM fallback is always the last entry of the list, behind the
    strategies of the detected format: it runs exactly when these yield
    nothing, and then reads the blob and hands one WAV to the recogniser.
    (As a function of the length alone, for any format record, the list
    holds the fallback exactly when the blob is longer than 1000 bytes.)
    Its configurations are 16000, 44100, 48000, 22050 and 8000 Hz in that
    order, mono, 16-bit; it keeps the WAV of the first configuration whose
    header-prepended WAV is longer than 44 bytes, no recogniser being
    asked; for every blob longer than 1000 bytes that is the 16000 Hz WAV
    of the blob cut to an even length, and it is the only audio the
    strategy hands to the recogniser. *)
Theorem raw_pcm_fallback_policy
  (W : Type) (self : collaborators W) (audio_data : bytes) (fi : format_info) :
  (In "raw_pcm_fallback" (map fst (recognition_methods W self audio_data fi))
   <-> 1000 < len audio_data)
  /\ map (fun c => (rate c, channels c, width c)) configs
     = [ (16000, 1, 2); (44100, 1, 2); (48000, 1, 2); (22050, 1, 2);
         (8000, 1, 2) ]%N
  /\ (forall wav,
        _try_raw_pcm_variants audio_data = Some wav ->
        exists before config after,
          configs = (before ++ config :: after)%list
          /\ Forall (fun c => raw_pcm_variant audio_data c = None) before
          /\ raw_pcm_variant audio_data config = Some wav
          /\ 44 < len wav)
  /\ (1000 < len audio_data ->
      let wav :=
        _create_wav_from_raw_pcm
          (firstn (len audio_data - len audio_data mod 2) audio_data) 16000 1 2 in
      _try_raw_pcm_variants audio_data = Some wav
      /\ forall w log,
           snd (snd (try_methods W self
                       [ ("raw_pcm_fallback",
                          Plain W (compute (Call_try_raw_pcm_variants audio_data)
                                     (_try_raw_pcm_variants audio_data))) ]
                       (w, log)))
           = (log ++ [ Call_try_raw_pcm_variants audio_data;
                       Call_try_speech_recognition "raw_pcm_fallback" wav ])%list)
  /\ (len audio_data < 2000 ->
      forall w x,
        ~ In (Call_try_raw_pcm_variants x)
            (snd (snd (speech_to_text W self audio_data (w, [])))))
  /\ (2000 <= len audio_data ->
      exists earlier,
        recognition_methods W self audio_data (_analyze_audio_format audio_data)
        = (earlier
           ++ [ ("raw_pcm_fallback",
                 Plain W (compute (Call_try_raw_pcm_variants audio_data)
                            (_try_raw_pcm_variants audio_data))) ])%list
        /\ ~ In "raw_pcm_fallback" (map fst earlier)
        /\ forall w,
             let tried := try_methods W self earlier (w, []) in
             let run := speech_to_text W self audio_data (w, []) in
             run = full_path W self audio_data (w, [])
             /\ (fst tried <> None -> run = tried)
             /\ (fst tried = None ->
                 exists rest,
                   snd (snd run)
                   = (snd (snd tried)
                      ++ [ Call_try_raw_pcm_variants audio_data;
                           Call_try_speech_recognition "raw_pcm_fallback"
                             (_create_wav_from_raw_pcm
                                (firstn (len audio_data - len audio_data mod 2)
                                   audio_data) 16000 1 2) ]
                      ++ rest)%list)).
Proof.
  split; [ apply raw_pcm_fallback_listed | ].
  split; [ reflexivity | ].
  split.
  { intros wav H.
    destruct (first_variant_is_first _ _ _ H)
      as (before & config & after & E & Hb & Hv).
    exists before, config, after.
    repeat split; try assumption.
    exact (raw_pcm_variant_usable _ _ _ Hv). }
  split; [ intros Hlen; cbv zeta; apply raw_pcm_fallback_run; exact Hlen | ].
  split.
  { intros L w x. apply no_raw_pcm_reading_under_2000. exact L. }
  intros G. unfold recognition_methods.
  destruct (Nat.ltb_spec 1000 (len audio_data)) as [L1000 | G1000]; [ | lia ].
  eexists. split; [ reflexivity | ].
  split; [ apply format_methods_not_raw | ].
  intros w. cbv zeta.
  assert (Hrun : speech_to_text W self audio_data (w, [])
                 = full_path W self audio_data (w, [])).
  { rewrite speech_to_text_long by lia.
    destruct (Nat.ltb_spec (len audio_data) 2000) as [L | _]; [ lia | reflexivity ]. }
  split; [ exact Hrun | ].
  rewrite Hrun. unfold full_path. cbv zeta. unfold recognition_methods.
  destruct (Nat.ltb_spec 1000 (len audio_data)) as [_ | G1000]; [ | lia ].
  rewrite (bind_run W), try_methods_app.
  match goal with
  | |- context [fst (try_methods W self ?l (w, [])) <> None] =>
      destruct (try_methods W self l (w, [])) as [[text | ] [w1 log1]]
  end; cbn [fst snd].
  - split; [ intros _; reflexivity | intros H; discriminate H ].
  - split; [ intros H; contradiction | intros _ ].
    destruct (raw_pcm_fallback_run W self audio_data L1000) as [_ Hcalls].
    specialize (Hcalls w1 log1).
    match goal with
    | |- context [match fst ?r with _ => _ end (snd ?r)] =>
        destruct (after_the_list W self audio_data (fst r) (snd r)) as (rest & E);
        [ lia | ]
    end.
    exists rest. rewrite E, Hcalls, <- app_assoc. reflexivity.
Qed.

Lemma raw_pcm_fallback_policy_witness :
  _try_raw_pcm_variants raw_2000
  = Some (_create_wav_from_raw_pcm raw_2000 16000 1 2)
  /\ In "raw_pcm_fallback"
       (map fst (recognition_methods unit (stand_in None hears_44100) raw_2000
                   (_analyze_audio_format raw_2000)))
  /\ ~ In (Call_try_raw_pcm_variants (repeat x00 1500))
         (snd (snd (speech_to_text unit (stand_in None hears_44100)
                      (repeat x00 1500) (tt, [])))).
Proof.
  pose proof (raw_pcm_fallback_policy unit (stand_in None hears_44100) raw_2000
                (_analyze_audio_format raw_2000)) as (Hin & _ & _ & H & _).
  pose proof (raw_pcm_fallback_policy unit (stand_in None hears_44100)
                (repeat x00 1500) (_analyze_audio_format (repeat x00 1500)))
    as (_ & _ & _ & _ & Hsmall & _).
  assert (L : 1000 < len raw_2000).
  { unfold len, raw_2000. rewrite repeat_length. lia. }
  split; [ | split ].
  - exact (proj1 (H L)).
  - exact (proj2 Hin L).
  - apply Hsmall. unfold len. rewrite repeat_length. lia.
Defined.
